(** * Nexus operator: the approval interlock of [app/mcp_server.py]

    A shallow embedding of [call_tool], [execute_action] and [validate_ip]
    together with the parts of the Python runtime they rest on
    ([str], [dict], [repr], [json.dumps], [json.loads],
    [ipaddress.ip_address]) and of the Redis store they talk to.

    Conventions of the embedding.
    - A Python [str] is the list of its code points ([list N]).
    - A Python object that can travel through JSON is a [value]; floats
      have no constructor (no tool schema declares one), and a stored
      document holding a float is reported as [FloatInDocument].
    - A [dict] is an association list in insertion order; Python keeps its
      keys distinct, which is the well-formedness predicate [wf_value].
    - Integers are unbounded ([Z]); the interpreter's limits on digit
      counts and on recursion depth are not modelled.  The decoder
      recurses on a budget that [loads_total] shows sufficient for every
      text.
    - The collaborators behind the services (HTTP probes, the event
      stream, the language model, faults of the Redis server) and the
      random draws are fields of an [environment].
    - The services themselves ([HealthService], [SecurityService],
      [AnalyzeService]) are embedded over their [backends]: the replies of
      the network, of the stream and of the model constructors;
      [with_services] is the environment in which the server talks to
      them.  The endpoints of [app/main.py] are in [Rest].
    - Logging is not modelled. *)

From Stdlib Require Import ZArith NArith List Ascii String Lia Bool.
From Stdlib Require Import DecimalN DecimalPos DecimalFacts.
From stdpp Require Import gmap strings list fin_maps.

Local Open Scope N_scope.

(** ** Python [str] *)

Abbreviation str := (list N).

(** Code point of an ASCII character literal. *)
Definition ch (a : ascii) : N := N_of_ascii a.
Arguments ch a%_char.

(** The two characters no literal below spells out. *)
Definition dquote : N := 34.
Definition backslash : N := 92.

(** A [str] literal written in ASCII. *)
Definition u (s : string) : str := ch <$> list_ascii_of_string s.
Arguments u s%_string.

Module Str.

(** [s.startswith(p)] *)
Fixpoint startswith (p s : str) : bool :=
  match p, s with
  | [], _ => true
  | _ :: _, [] => false
  | a :: p', b :: s' => (a =? b) && startswith p' s'
  end.

(** [c in s] for a single character [c]. *)
Definition contains (c : N) (s : str) : bool := existsb (N.eqb c) s.

(** [s.split(sep)] for a single-character separator: never empty. *)
Fixpoint split (sep : N) (s : str) : list str :=
  match s with
  | [] => [[]]
  | c :: s' =>
      if c =? sep then [] :: split sep s'
      else match split sep s' with
           | [] => [[c]]
           | w :: ws => (c :: w) :: ws
           end
  end.

(** [s.partition(sep)] for a single-character separator: the text before
    the first separator, whether one was found, and the text after it. *)
Fixpoint partition (sep : N) (s : str) : str * bool * str :=
  match s with
  | [] => ([], false, [])
  | c :: s' =>
      if c =? sep then ([], true, s')
      else let '(a, found, b) := partition sep s' in (c :: a, found, b)
  end.

(** [s.replace(old, new)] for a non-empty [old]: every occurrence, left to
    right, without overlap.  [skip] counts the characters of an occurrence
    still to be dropped. *)
Fixpoint replace_from (old new : str) (skip : nat) (s : str) : str :=
  match s with
  | [] => []
  | c :: s' =>
      match skip with
      | S k => replace_from old new k s'
      | O =>
          if startswith old s
          then new ++ replace_from old new (Nat.pred (length old)) s'
          else c :: replace_from old new 0 s'
      end
  end.

Definition replace (old new s : str) : str := replace_from old new 0 s.

(** [sep.join(parts)] *)
Fixpoint join (sep : str) (parts : list str) : str :=
  match parts with
  | [] => []
  | [p] => p
  | p :: ps => p ++ sep ++ join sep ps
  end.

(** [s * n] *)
Fixpoint repeat (s : str) (n : nat) : str :=
  match n with
  | O => []
  | S k => s ++ repeat s k
  end.

End Str.

(** ** Numbers as text *)

Module Num.

(** Decimal digits of the standard library's [Decimal.uint] as characters. *)
Fixpoint chars_of_uint (d : Decimal.uint) : str :=
  match d with
  | Decimal.Nil => []
  | Decimal.D0 d => ch "0" :: chars_of_uint d
  | Decimal.D1 d => ch "1" :: chars_of_uint d
  | Decimal.D2 d => ch "2" :: chars_of_uint d
  | Decimal.D3 d => ch "3" :: chars_of_uint d
  | Decimal.D4 d => ch "4" :: chars_of_uint d
  | Decimal.D5 d => ch "5" :: chars_of_uint d
  | Decimal.D6 d => ch "6" :: chars_of_uint d
  | Decimal.D7 d => ch "7" :: chars_of_uint d
  | Decimal.D8 d => ch "8" :: chars_of_uint d
  | Decimal.D9 d => ch "9" :: chars_of_uint d
  end.

Definition is_digit (c : N) : bool := (ch "0" <=? c) && (c <=? ch "9").

(** Prepends the digit character [c] to [d]. *)
Definition push_digit (c : N) (d : Decimal.uint) : Decimal.uint :=
  match c - ch "0" with
  | 0 => Decimal.D0 d | 1 => Decimal.D1 d | 2 => Decimal.D2 d
  | 3 => Decimal.D3 d | 4 => Decimal.D4 d | 5 => Decimal.D5 d
  | 6 => Decimal.D6 d | 7 => Decimal.D7 d | 8 => Decimal.D8 d
  | _ => Decimal.D9 d
  end.

(** The longest run of decimal digits at the head of [s], and the rest. *)
Fixpoint span_digits (s : str) : Decimal.uint * str :=
  match s with
  | [] => (Decimal.Nil, [])
  | c :: s' =>
      if is_digit c
      then let '(d, rest) := span_digits s' in (push_digit c d, rest)
      else (Decimal.Nil, s)
  end.

(** [str(n)] for a natural number. *)
Definition dec_of_N (n : N) : str := chars_of_uint (N.to_uint n).

(** [str(z)] for an [int]. *)
Definition dec_of_Z (z : Z) : str :=
  match z with
  | Z0 => dec_of_N 0
  | Zpos p => dec_of_N (Npos p)
  | Zneg p => ch "-" :: dec_of_N (Npos p)
  end.

(** [int(s, 10)] for a [str] of ASCII digits. *)
Definition N_of_dec (s : str) : N := N.of_uint (fst (span_digits s)).

Definition hex_digit (d : N) : N :=
  if d <? 10 then ch "0" + d else ch "a" + (d - 10).

(** ['%0<w>x' % n]: [w] lower-case hex digits, most significant first. *)
Fixpoint hex_fixed (w : nat) (n : N) : str :=
  match w with
  | O => []
  | S w' => hex_fixed w' (n / 16) ++ [hex_digit (n mod 16)]
  end.

Fixpoint strip_zeros (s : str) : str :=
  match s with
  | c :: (_ :: _) as s' => if c =? ch "0" then strip_zeros s' else s
  | _ => s
  end.

(** ['%x' % n] for [n < 2^16]. *)
Definition hex_of_N16 (n : N) : str := strip_zeros (hex_fixed 4 n).

(** Value of one hex digit character, either case. *)
Definition hex_val (c : N) : option N :=
  if (ch "0" <=? c) && (c <=? ch "9") then Some (c - ch "0")
  else if (ch "a" <=? c) && (c <=? ch "f") then Some (c - ch "a" + 10)
  else if (ch "A" <=? c) && (c <=? ch "F") then Some (c - ch "A" + 10)
  else None.

(** [int(s, 16)] for a [str] of hex digits, [None] on any other character
    and on the empty [str]. *)
Fixpoint hex_acc (acc : N) (s : str) : option N :=
  match s with
  | [] => Some acc
  | c :: s' =>
      match hex_val c with
      | Some d => hex_acc (16 * acc + d) s'
      | None => None
      end
  end.

Definition N_of_hex (s : str) : option N :=
  match s with
  | [] => None
  | _ => hex_acc 0 s
  end.

End Num.

(** ** Python objects *)

Unset Elimination Schemes.
Inductive value :=
| VNone
| VBool (b : bool)
| VInt (z : Z)
| VStr (s : str)
| VList (l : list value)
| VDict (d : list (str * value)).
Set Elimination Schemes.

Abbreviation dict := (list (str * value)).

(** Induction over [value] that reaches the elements of lists and dicts. *)
Section ValueInd.
Variable P : value → Prop.
Hypothesis HNone : P VNone.
Hypothesis HBool : ∀ b, P (VBool b).
Hypothesis HInt : ∀ z, P (VInt z).
Hypothesis HStr : ∀ s, P (VStr s).
Hypothesis HList : ∀ l, Forall P l → P (VList l).
Hypothesis HDict : ∀ d, Forall (λ kv, P kv.2) d → P (VDict d).

Fixpoint value_deep_ind (v : value) : P v :=
  match v with
  | VNone => HNone
  | VBool b => HBool b
  | VInt z => HInt z
  | VStr s => HStr s
  | VList l =>
      HList l ((fix go (l : list value) : Forall P l :=
                  match l with
                  | [] => @List.Forall_nil _ _
                  | x :: l' => @List.Forall_cons _ _ x l' (value_deep_ind x) (go l')
                  end) l)
  | VDict d =>
      HDict d ((fix go (d : dict) : Forall (λ kv, P kv.2) d :=
                  match d with
                  | [] => @List.Forall_nil _ _
                  | kv :: d' => @List.Forall_cons _ _ kv d' (value_deep_ind kv.2) (go d')
                  end) d)
  end.
End ValueInd.

Module Dict.

(** [d.get(k)]: [None] of Python is [VNone], see [get_or]. *)
Fixpoint lookup (k : str) (d : dict) : option value :=
  match d with
  | [] => None
  | (k', v) :: d' => if decide (k' = k) then Some v else lookup k d'
  end.

(** [d.get(k, default)] *)
Definition get_or (k : str) (default : value) (d : dict) : value :=
  match lookup k d with
  | Some v => v
  | None => default
  end.

(** [d.get(k)] *)
Definition get (k : str) (d : dict) : value := get_or k VNone d.

(** [d[k] = v]: an existing key keeps its place, a new one goes last. *)
Fixpoint set (k : str) (v : value) (d : dict) : dict :=
  match d with
  | [] => [(k, v)]
  | (k', v') :: d' =>
      if decide (k' = k) then (k, v) :: d' else (k', v') :: set k v d'
  end.

(** [dict(pairs)]: later pairs win. *)
Definition of_pairs (pairs : list (str * value)) : dict :=
  fold_left (λ d kv, set kv.1 kv.2 d) pairs [].

End Dict.

(** Keys of every dict inside the value are pairwise distinct, as they are
    in any Python dict. *)
Fixpoint wf_value (v : value) : Prop :=
  match v with
  | VList l => (fix all (l : list value) : Prop :=
                  match l with
                  | [] => True
                  | x :: l' => wf_value x ∧ all l'
                  end) l
  | VDict d => NoDup d.*1 ∧
               (fix all (d : dict) : Prop :=
                  match d with
                  | [] => True
                  | kv :: d' => wf_value kv.2 ∧ all d'
                  end) d
  | _ => True
  end.

(** Every code point of the [str] is a Unicode scalar value: below
    [0x110000] and not a surrogate.  This is what a UTF-8 transport
    delivers. *)
Definition scalar (c : N) : Prop := c < 0xD800 ∨ (0xE000 ≤ c ∧ c < 0x110000).
Definition scalar_str (s : str) : Prop := Forall scalar s.

Fixpoint scalar_value (v : value) : Prop :=
  match v with
  | VStr s => scalar_str s
  | VList l => (fix all (l : list value) : Prop :=
                  match l with
                  | [] => True
                  | x :: l' => scalar_value x ∧ all l'
                  end) l
  | VDict d => (fix all (d : dict) : Prop :=
                  match d with
                  | [] => True
                  | kv :: d' => (scalar_str kv.1 ∧ scalar_value kv.2) ∧ all d'
                  end) d
  | _ => True
  end.

(** ** [repr] and [str] of an object *)

Module Repr.
Section WithTable.

(** [str.isprintable] of the interpreter's Unicode database, consulted
    for code points from [0x80] on. *)
Variable printable : N → bool.

(** One character inside the quotes of [repr(s)]. *)
Definition repr_char (quote : N) (c : N) : str :=
  if (c =? quote) || (c =? backslash) then [backslash; c]
  else if c =? 9 then [backslash; ch "t"]
  else if c =? 10 then [backslash; ch "n"]
  else if c =? 13 then [backslash; ch "r"]
  else if (c <? 32) || (c =? 127) then backslash :: ch "x" :: Num.hex_fixed 2 c
  else if c <? 127 then [c]
  else if printable c then [c]
  else if c <=? 0xff then backslash :: ch "x" :: Num.hex_fixed 2 c
  else if c <=? 0xffff then backslash :: ch "u" :: Num.hex_fixed 4 c
  else backslash :: ch "U" :: Num.hex_fixed 8 c.

(** [repr(s)] of a [str]: double quotes only when [s] has a single quote
    and no double quote. *)
Definition repr_str (s : str) : str :=
  let quote :=
    if Str.contains (ch "'") s && negb (Str.contains dquote s)
    then dquote else ch "'" in
  quote :: flat_map (repr_char quote) s ++ [quote].

Fixpoint repr (v : value) : str :=
  match v with
  | VNone => u "None"
  | VBool true => u "True"
  | VBool false => u "False"
  | VInt z => Num.dec_of_Z z
  | VStr s => repr_str s
  | VList l =>
      u "[" ++ Str.join (u ", ") (map repr l) ++ u "]"
  | VDict d =>
      u "{" ++
      Str.join (u ", ")
        (map (λ kv, repr_str kv.1 ++ u ": " ++ repr kv.2) d) ++
      u "}"
  end.

(** [str(v)], which is what an f-string field shows. *)
Definition to_str (v : value) : str :=
  match v with
  | VStr s => s
  | _ => repr v
  end.

End WithTable.
End Repr.

(** [type(v).__name__] *)
Definition type_name (v : value) : str :=
  match v with
  | VNone => u "NoneType"
  | VBool _ => u "bool"
  | VInt _ => u "int"
  | VStr _ => u "str"
  | VList _ => u "list"
  | VDict _ => u "dict"
  end.

(** ** [json.dumps] *)

Module Json.

(** The replacement of one character by [encode_basestring_ascii]. *)
Definition escape_char (c : N) : str :=
  if c =? dquote then [backslash; dquote]
  else if c =? backslash then [backslash; backslash]
  else if c =? 10 then [backslash; ch "n"]
  else if c =? 13 then [backslash; ch "r"]
  else if c =? 9 then [backslash; ch "t"]
  else if c =? 8 then [backslash; ch "b"]
  else if c =? 12 then [backslash; ch "f"]
  else if (32 <=? c) && (c <=? 126) then [c]
  else if c <? 0x10000 then backslash :: ch "u" :: Num.hex_fixed 4 c
  else
    let n := c - 0x10000 in
    let s1 := N.lor 0xd800 (N.land (N.shiftr n 10) 0x3ff) in
    let s2 := N.lor 0xdc00 (N.land n 0x3ff) in
    (backslash :: ch "u" :: Num.hex_fixed 4 s1) ++
    (backslash :: ch "u" :: Num.hex_fixed 4 s2).

Definition escape (s : str) : str := flat_map escape_char s.

(** A [str] as a JSON string, [ensure_ascii] being on. *)
Definition encode_str (s : str) : str := dquote :: escape s ++ [dquote].

Section Encoder.
(** [indent=None] or [indent=n]. *)
Variable indent : option nat.

Definition newline_indent (level : nat) : str :=
  match indent with
  | None => []
  | Some n => 10 :: Str.repeat (u " ") (n * level)
  end.

Definition item_separator (level : nat) : str :=
  match indent with
  | None => u ", "
  | Some _ => u "," ++ newline_indent level
  end.

Fixpoint encode (level : nat) (v : value) : str :=
  match v with
  | VNone => u "null"
  | VBool true => u "true"
  | VBool false => u "false"
  | VInt z => Num.dec_of_Z z
  | VStr s => encode_str s
  | VList [] => u "[]"
  | VList l =>
      u "[" ++ newline_indent (S level) ++
      Str.join (item_separator (S level)) (map (encode (S level)) l) ++
      newline_indent level ++ u "]"
  | VDict [] => u "{}"
  | VDict d =>
      u "{" ++ newline_indent (S level) ++
      Str.join (item_separator (S level))
        (map (λ kv, encode_str kv.1 ++ u ": " ++ encode (S level) kv.2) d) ++
      newline_indent level ++ u "}"
  end.
End Encoder.

(** [json.dumps(v)] *)
Definition dumps (v : value) : str := encode None 0 v.

(** [json.dumps(v, indent=n)] *)
Definition dumps_indent (n : nat) (v : value) : str := encode (Some n) 0 v.

(** ** [json.loads] *)

Inductive parsed (A : Type) :=
| Parsed (a : A) (rest : str)
| Malformed     (* the decoder raises [JSONDecodeError] *)
| HasFloat      (* a float: outside [value] *)
| Exhausted.    (* recursion budget spent *)
Arguments Parsed {A} a rest.
Arguments Malformed {A}.
Arguments HasFloat {A}.
Arguments Exhausted {A}.

Definition is_ws (c : N) : bool :=
  (c =? 32) || (c =? 9) || (c =? 10) || (c =? 13).

Fixpoint skip_ws (s : str) : str :=
  match s with
  | c :: s' => if is_ws c then skip_ws s' else s
  | [] => []
  end.

(** The character named by a one-letter escape. *)
Definition unescape (e : N) : option N :=
  if e =? dquote then Some dquote
  else if e =? backslash then Some backslash
  else if e =? ch "/" then Some (ch "/")
  else if e =? ch "b" then Some 8
  else if e =? ch "f" then Some 12
  else if e =? ch "n" then Some 10
  else if e =? ch "r" then Some 13
  else if e =? ch "t" then Some 9
  else None.

(** Four hex digits of a [\uXXXX] escape. *)
Definition hex4 (a b c d : N) : option N :=
  match Num.hex_val a, Num.hex_val b, Num.hex_val c, Num.hex_val d with
  | Some x, Some y, Some z, Some w => Some (((x * 16 + y) * 16 + z) * 16 + w)
  | _, _, _, _ => None
  end.

Definition is_high (n : N) : bool := (0xd800 <=? n) && (n <=? 0xdbff).
Definition is_low (n : N) : bool := (0xdc00 <=? n) && (n <=? 0xdfff).
Definition join_surrogates (hi lo : N) : N :=
  0x10000 + N.lor (N.shiftl (hi - 0xd800) 10) (lo - 0xdc00).

(** [scanstring], strict: the text after an opening quote up to the
    closing one, and what follows it. *)
Fixpoint scanstring (s : str) : option (str * str) :=
  match s with
  | [] => None
  | c :: s1 =>
      if c =? dquote then Some ([], s1)
      else if c =? backslash then
        match s1 with
        | [] => None
        | e :: s2 =>
            if e =? ch "u" then
              match s2 with
              | h1 :: h2 :: h3 :: h4 :: s3 =>
                  match hex4 h1 h2 h3 h4 with
                  | None => None
                  | Some n =>
                      let single :=
                        match scanstring s3 with
                        | Some (t, rest) => Some (n :: t, rest)
                        | None => None
                        end in
                      if is_high n then
                        match s3 with
                        | b :: x :: g1 :: g2 :: g3 :: g4 :: s4 =>
                            if (b =? backslash) && (x =? ch "u") then
                              match hex4 g1 g2 g3 g4 with
                              | None => None
                              | Some m =>
                                  if is_low m then
                                    match scanstring s4 with
                                    | Some (t, rest) =>
                                        Some (join_surrogates n m :: t, rest)
                                    | None => None
                                    end
                                  else single
                              end
                            else single
                        | _ => single
                        end
                      else single
                  end
              | _ => None
              end
            else
              match unescape e with
              | None => None
              | Some x =>
                  match scanstring s2 with
                  | Some (t, rest) => Some (x :: t, rest)
                  | None => None
                  end
              end
        end
      else if c <? 32 then None
      else
        match scanstring s1 with
        | Some (t, rest) => Some (c :: t, rest)
        | None => None
        end
  end.

(** Whether a fraction or an exponent follows the integer part. *)
Definition float_follows (s : str) : bool :=
  match s with
  | c :: d :: s' =>
      ((c =? ch ".") && Num.is_digit d) ||
      (((c =? ch "e") || (c =? ch "E")) &&
       (Num.is_digit d ||
        (((d =? ch "+") || (d =? ch "-")) &&
         match s' with
         | d' :: _ => Num.is_digit d'
         | [] => false
         end)))
  | _ => false
  end.

(** [_match_number]: an optional sign, then [0] or a digit run that does
    not start with [0]. *)
Definition match_number (s : str) : parsed value :=
  let '(negative, s1) :=
    match s with
    | c :: s' => if c =? ch "-" then (true, s') else (false, s)
    | [] => (false, s)
    end in
  let finish (d : Decimal.uint) (rest : str) : parsed value :=
    if float_follows rest then HasFloat
    else
      let n := Z.of_N (N.of_uint d) in
      Parsed (VInt (if negative then (- n)%Z else n)) rest in
  match s1 with
  | [] => Malformed
  | c :: s2 =>
      if (ch "1" <=? c) && (c <=? ch "9")
      then let '(d, rest) := Num.span_digits s1 in finish d rest
      else if c =? ch "0" then finish (Decimal.D0 Decimal.Nil) s2
      else Malformed
  end.

Fixpoint scan_once (fuel : nat) (s : str) {struct fuel} : parsed value :=
  match fuel with
  | O => Exhausted
  | S f =>
      match s with
      | [] => Malformed
      | c :: s' =>
          if c =? dquote then
            match scanstring s' with
            | Some (t, rest) => Parsed (VStr t) rest
            | None => Malformed
            end
          else if c =? ch "{" then
            match skip_ws s' with
            | c1 :: s1 =>
                if c1 =? ch "}" then Parsed (VDict []) s1
                else
                  match parse_pairs f (c1 :: s1) with
                  | Parsed pairs rest => Parsed (VDict (Dict.of_pairs pairs)) rest
                  | Malformed => Malformed
                  | HasFloat => HasFloat
                  | Exhausted => Exhausted
                  end
            | [] => Malformed
            end
          else if c =? ch "[" then
            match skip_ws s' with
            | c1 :: s1 =>
                if c1 =? ch "]" then Parsed (VList []) s1
                else
                  match parse_items f (c1 :: s1) with
                  | Parsed items rest => Parsed (VList items) rest
                  | Malformed => Malformed
                  | HasFloat => HasFloat
                  | Exhausted => Exhausted
                  end
            | [] => Malformed
            end
          else if Str.startswith (u "null") s then Parsed VNone (drop 4 s)
          else if Str.startswith (u "true") s then Parsed (VBool true) (drop 4 s)
          else if Str.startswith (u "false") s then Parsed (VBool false) (drop 5 s)
          else if Str.startswith (u "NaN") s then HasFloat
          else if Str.startswith (u "Infinity") s then HasFloat
          else if Str.startswith (u "-Infinity") s then HasFloat
          else match_number s
      end
  end

(** The loop of [_parse_array], entered at a term. *)
with parse_items (fuel : nat) (s : str) {struct fuel} : parsed (list value) :=
  match fuel with
  | O => Exhausted
  | S f =>
      match scan_once f s with
      | Parsed v rest =>
          match skip_ws rest with
          | c :: rest' =>
              if c =? ch "]" then Parsed [v] rest'
              else if c =? ch "," then
                match parse_items f (skip_ws rest') with
                | Parsed vs rest'' => Parsed (v :: vs) rest''
                | e => e
                end
              else Malformed
          | [] => Malformed
          end
      | Malformed => Malformed
      | HasFloat => HasFloat
      | Exhausted => Exhausted
      end
  end

(** The loop of [_parse_object], entered at a key. *)
with parse_pairs (fuel : nat) (s : str) {struct fuel}
    : parsed (list (str * value)) :=
  match fuel with
  | O => Exhausted
  | S f =>
      match s with
      | c :: s1 =>
          if c =? dquote then
            match scanstring s1 with
            | None => Malformed
            | Some (key, s2) =>
                match skip_ws s2 with
                | c2 :: s3 =>
                    if c2 =? ch ":" then
                      match scan_once f (skip_ws s3) with
                      | Parsed v rest =>
                          match skip_ws rest with
                          | c3 :: rest' =>
                              if c3 =? ch "}" then Parsed [(key, v)] rest'
                              else if c3 =? ch "," then
                                match parse_pairs f (skip_ws rest') with
                                | Parsed kvs rest'' =>
                                    Parsed ((key, v) :: kvs) rest''
                                | e => e
                                end
                              else Malformed
                          | [] => Malformed
                          end
                      | Malformed => Malformed
                      | HasFloat => HasFloat
                      | Exhausted => Exhausted
                      end
                    else Malformed
                | [] => Malformed
                end
            end
          else Malformed
      | [] => Malformed
      end
  end.

Inductive decoded :=
| Decoded (v : value)
| DecodeError        (* [JSONDecodeError] *)
| FloatInDocument    (* the document holds a float *)
| TooDeep.           (* recursion budget spent *)

(** [json.loads(s)] for a [str]: no byte order mark, one document, blanks
    around it.  The budget covers every text: a term spends at most two
    units per character. *)
Definition loads (s : str) : decoded :=
  if Str.startswith [0xFEFF] s then DecodeError
  else
    match scan_once (S (2 * length s)) (skip_ws s) with
    | Parsed v rest =>
        match skip_ws rest with
        | [] => Decoded v
        | _ :: _ => DecodeError
        end
    | Malformed => DecodeError
    | HasFloat => FloatInDocument
    | Exhausted => TooDeep
    end.

End Json.

(** ** [ipaddress.ip_address] *)

Module Ipaddress.
Section WithTable.
Variable printable : N → bool.

Inductive addr :=
| IPv4Address (ip : N)
| IPv6Address (ip : N) (scope_id : option str).

(** A check that raises when it fails, in the [option] monad. *)
Definition ensure (b : bool) : option unit := if b then Some () else None.
Local Notation "'check' b ; k" := (ensure b ≫= λ _, k)
  (at level 20, b at level 100, k at level 200, only parsing).

(** [_BaseV4._parse_octet] *)
Definition parse_octet (octet_str : str) : option N :=
  check negb (bool_decide (octet_str = []));
  check forallb Num.is_digit octet_str;
  check negb (3 <? length octet_str)%nat;
  check negb (negb (bool_decide (octet_str = u "0")) &&
              bool_decide (head octet_str = Some (ch "0")));
  let octet_int := Num.N_of_dec octet_str in
  check negb (255 <? octet_int);
  Some octet_int.

(** [int.from_bytes(map(parse, parts), 'big')] and its 16-bit
    counterpart: the parts in turn, any failure failing the whole. *)
Fixpoint fold_parts (parse : str → option N) (width : N) (acc : N)
    (parts : list str) : option N :=
  match parts with
  | [] => Some acc
  | p :: ps =>
      n ← parse p;
      fold_parts parse width (N.lor (N.shiftl acc width) n) ps
  end.

(** [_BaseV4._ip_int_from_string] *)
Definition v4_int_from_string (ip_str : str) : option N :=
  check negb (bool_decide (ip_str = []));
  let octets := Str.split (ch ".") ip_str in
  check bool_decide (length octets = 4%nat);
  fold_parts parse_octet 8 0 octets.

Definition check_int_address (n : Z) (bits : N) : option N :=
  check negb (n <? 0)%Z;
  check negb (2 ^ Z.of_N bits - 1 <? n)%Z;
  Some (Z.to_N n).

(** What [isinstance(address, int)] sees: [bool] is a subclass of [int]. *)
Definition as_int (address : value) : option Z :=
  match address with
  | VInt n => Some n
  | VBool b => Some (if b then 1 else 0)%Z
  | _ => None
  end.

(** [IPv4Address.__init__] applied to a [str]. *)
Definition v4_of_str (addr_str : str) : option N :=
  check negb (Str.contains (ch "/") addr_str);
  v4_int_from_string addr_str.

(** [IPv4Address(address)._ip] *)
Definition v4_address (address : value) : option N :=
  match as_int address with
  | Some n => check_int_address n 32
  | None => v4_of_str (Repr.to_str printable address)
  end.

Definition is_hex_digit (c : N) : bool :=
  match Num.hex_val c with Some _ => true | None => false end.

(** [_BaseV6._parse_hextet] *)
Definition parse_hextet (hextet_str : str) : option N :=
  check forallb is_hex_digit hextet_str;
  check negb (4 <? length hextet_str)%nat;
  Num.N_of_hex hextet_str.

(** The scan for one ["::"] away from both ends: [None] when there are
    two, else the index found, if any. *)
Definition find_skip (parts : list str) : option (option nat) :=
  match filter (λ i, parts !! i = Some [])
               (seq 1 (length parts - 2)) with
  | [] => Some None
  | [i] => Some (Some i)
  | _ => None
  end.

(** [_BaseV6._ip_int_from_string] *)
Definition v6_int_from_string (ip_str : str) : option N :=
  check negb (bool_decide (ip_str = []));
  let parts := Str.split (ch ":") ip_str in
  check negb (length parts <? 3)%nat;
  parts ←
    match last parts with
    | Some tail =>
        if Str.contains (ch ".") tail then
          ipv4_int ← v4_of_str tail;
          Some (removelast parts ++
                [Num.hex_of_N16 (N.land (N.shiftr ipv4_int 16) 0xFFFF);
                 Num.hex_of_N16 (N.land ipv4_int 0xFFFF)])
        else Some parts
    | None => Some parts
    end;
  check negb (9 <? length parts)%nat;
  skip_index ← find_skip parts;
  let first_empty := bool_decide (head parts = Some []) in
  let last_empty := bool_decide (last parts = Some []) in
  shape ←
    match skip_index with
    | Some i =>
        let parts_hi := i in
        let parts_lo := (length parts - i - 1)%nat in
        parts_hi ←
          (if first_empty
           then (check bool_decide (Nat.pred parts_hi = 0%nat);
                 Some (Nat.pred parts_hi))
           else Some parts_hi);
        parts_lo ←
          (if last_empty
           then (check bool_decide (Nat.pred parts_lo = 0%nat);
                 Some (Nat.pred parts_lo))
           else Some parts_lo);
        let parts_skipped := (8 - Z.of_nat (parts_hi + parts_lo))%Z in
        check negb (parts_skipped <? 1)%Z;
        Some (parts_hi, parts_lo, Z.to_N parts_skipped)
    | None =>
        check bool_decide (length parts = 8%nat);
        check negb first_empty;
        check negb last_empty;
        Some (length parts, 0%nat, 0)
    end;
  let '(parts_hi, parts_lo, parts_skipped) := shape in
  ip_int ← fold_parts parse_hextet 16 0 (take parts_hi parts);
  let ip_int := N.shiftl ip_int (16 * parts_skipped) in
  fold_parts parse_hextet 16 ip_int (drop (length parts - parts_lo) parts).

(** [IPv6Address._split_scope_id] *)
Definition split_scope_id (ip_str : str) : option (str * option str) :=
  let '(addr, sep, scope_id) := Str.partition (ch "%") ip_str in
  if negb sep then Some (addr, None)
  else
    check negb (bool_decide (scope_id = []) ||
                Str.contains (ch "%") scope_id);
    Some (addr, Some scope_id).

(** [IPv6Address(address)] *)
Definition v6_address (address : value) : option (N * option str) :=
  match as_int address with
  | Some n => ip ← check_int_address n 128; Some (ip, None)
  | None =>
      let addr_str := Repr.to_str printable address in
      check negb (Str.contains (ch "/") addr_str);
      split ← split_scope_id addr_str;
      ip ← v6_int_from_string split.1;
      Some (ip, split.2)
  end.

(** [ipaddress.ip_address(address)]: [None] stands for [ValueError]. *)
Definition ip_address (address : value) : option addr :=
  match v4_address address with
  | Some ip => Some (IPv4Address ip)
  | None =>
      match v6_address address with
      | Some (ip, scope) => Some (IPv6Address ip scope)
      | None => None
      end
  end.

End WithTable.
End Ipaddress.

(** ** Exceptions, the store and the world *)

Inductive exn :=
| ValueError (msg : str)
| TypeError (msg : str)
| AttributeError (msg : str)
| KeyError (key : str)
| JSONDecodeError            (* its position report is not modelled *)
| Fault (msg : str)          (* raised by a collaborator, [str(e) = msg] *)
| OutsideModel.              (* no exception: the run leaves the embedding
                                (a float in a stored document) *)

Inductive res (A : Type) :=
| Ok (a : A)
| Raise (e : exn).
Arguments Ok {A} a.
Arguments Raise {A} e.

(** A key of the Redis server with its value and its time to live in
    seconds. *)
Record entry := Entry { payload : str; ttl : Z }.

(** What the process asks of the outside, in order. *)
Inductive event :=
| StoreSetex (key : str) (seconds : Z) (data : str)
| StoreGet (key : str)
| StoreDelete (key : str)
| StoreKeys (prefix : str)
| HealthProbe
| ActivityRead (limit : value)
| Analysis (events : list value)
| BlocklistSet (key : str) (ex : value).

Record world := World { store : gmap str entry; trace : list event }.

Definition with_store (f : gmap str entry → gmap str entry) (w : world) : world :=
  World (f (store w)) (trace w).

Definition emit (e : event) (w : world) : world :=
  World (store w) (trace w ++ [e]).

(** Computations that read and change the world and may raise. *)
Definition M (A : Type) : Type := world → res A * world.

#[export] Instance M_ret : MRet M := λ A a w, (Ok a, w).

#[export] Instance M_bind : MBind M := λ A B f m w,
  match m w with
  | (Ok a, w') => f a w'
  | (Raise e, w') => (Raise e, w')
  end.

Definition raise {A} (e : exn) : M A := λ w, (Raise e, w).

(** [try: m except Exception as e: h e] *)
Definition catch {A} (m : M A) (h : exn → M A) : M A := λ w,
  match m w with
  | (Ok a, w') => (Ok a, w')
  | (Raise e, w') => h e w'
  end.

(** The text of [str(e)]. *)
Definition exn_str (printable : N → bool) (e : exn) : str :=
  match e with
  | ValueError msg | TypeError msg | AttributeError msg | Fault msg => msg
  | KeyError key => Repr.repr_str printable key
  | JSONDecodeError | OutsideModel => []
  end.

Module Redis.

(** [SETEX key seconds data] *)
Definition setex (key : str) (seconds : Z) (data : str) : M unit := λ w,
  (Ok (), emit (StoreSetex key seconds data)
            (with_store (insert key (Entry data seconds)) w)).

(** [GET key] *)
Definition get (key : str) : M (option str) := λ w,
  (Ok (payload <$> store w !! key), emit (StoreGet key) w).

(** [DEL key]: the number of keys removed. *)
Definition delete (key : str) : M Z := λ w,
  (Ok (match store w !! key with Some _ => 1 | None => 0 end)%Z,
   emit (StoreDelete key) (with_store (base.delete key) w)).

(** [KEYS prefix*] for a prefix without glob characters, in the
    enumeration order of the server. *)
Definition keys (prefix : str) : M (list str) := λ w,
  (Ok (filter (λ k, Str.startswith prefix k = true) (map_to_list (store w)).*1),
   emit (StoreKeys prefix) w).

(** The server's clock advancing by [seconds]: times to live shrink and
    the keys that reach zero are gone. *)
Definition elapse (seconds : Z) (w : world) : world :=
  with_store
    (λ m, (λ e, Entry (payload e) (ttl e - seconds)) <$>
          filter (λ kv, (seconds < ttl kv.2)%Z) m) w.

End Redis.

(** ** The collaborators *)

Record environment := {
  (** the interpreter's [str.isprintable] table *)
  printable : N → bool;
  (** [secrets.token_hex(4)] *)
  token_hex : str;
  (** [str(uuid.uuid4())] *)
  uuid4 : str;
  (** [HealthService.get_system_health()]: the aggregate, or the text of the
      exception that escapes it *)
  system_health : value + str;
  (** [SecurityService.get_recent_suspicious_activity(limit)], which
      catches every exception itself *)
  suspicious_activity : value → list value;
  (** [AnalyzeService.analyze_security_events(events)] *)
  analysis : list value → str;
  (** the exception text, if the server fails a well-formed
      [SET key banned EX seconds] *)
  blocklist_fault : str → Z → option str;
  (** the exception text for an [ex] that is no positive integer *)
  expiry_error : value → str
}.

Record TextContent := { type : str; text : str }.

Definition text_content (s : str) : TextContent := {| type := u "text"; text := s |}.

Section Services.
Variable env : environment.

Definition to_str : value → str := Repr.to_str (printable env).

(** [HealthService.get_system_health] *)
Definition get_system_health : M value := λ w,
  (match system_health env with
   | inl health => Ok health
   | inr msg => Raise (Fault msg)
   end, emit HealthProbe w).

(** [SecurityService.get_recent_suspicious_activity] *)
Definition get_recent_suspicious_activity (limit : value) : M (list value) :=
  λ w, (Ok (suspicious_activity env limit), emit (ActivityRead limit) w).

(** [AnalyzeService.analyze_security_events] *)
Definition analyze_security_events (events : list value) : M str := λ w,
  (Ok (analysis env events), emit (Analysis events) w).

(** [await self.redis.set(key, "banned", ex=duration_seconds)] *)
Definition blocklist_set (key : str) (ex : value) : M unit := λ w,
  let w := emit (BlocklistSet key ex) w in
  match ex with
  | VInt seconds =>
      if (0 <? seconds)%Z then
        match blocklist_fault env key seconds with
        | None => (Ok (), with_store (insert key (Entry (u "banned") seconds)) w)
        | Some msg => (Raise (Fault msg), w)
        end
      else (Raise (Fault (expiry_error env ex)), w)
  | _ => (Raise (Fault (expiry_error env ex)), w)
  end.

(** [SecurityService.ban_ip] *)
Definition ban_ip (ip_address : value) (duration_seconds : value) : M str :=
  let key := u "blacklist:" ++ to_str ip_address in
  catch
    (_ ← blocklist_set key duration_seconds;
     mret (u "IP " ++ to_str ip_address ++ u " has been banned for " ++
           to_str duration_seconds ++ u " seconds."))
    (λ e, mret (u "Error banning IP: " ++ exn_str (printable env) e)).

End Services.

(** ** [app/mcp_server.py] *)

Definition APPROVAL_PREFIX : str := u "nexus:approval:".
Definition APPROVAL_TTL : Z := 3600.
Definition DANGEROUS_TOOLS : list str := [u "ban_suspicious_ip"].


(** The fixed replies of [call_tool] and [execute_action]. *)
Definition invalid_token_message : str :=
  u "Error: Invalid, expired, or already used token.".
Definition no_pending_message : str := u "No actions pending approval.".
Definition no_activity_message : str :=
  u "No suspicious activities found to analyze.".

(** [name == literal] for an object [name]. *)
Definition is_str (name : value) (literal : str) : bool :=
  match name with
  | VStr s => bool_decide (s = literal)
  | _ => false
  end.

Section Server.
Variable env : environment.

(** [validate_ip] *)
Definition validate_ip (ip : value) : bool :=
  match Ipaddress.ip_address (printable env) ip with
  | Some _ => true
  | None => false
  end.

(** [arguments.get(key, default)] on an object that need not be a dict. *)
Definition py_get (arguments : value) (key : str) (default : value) : M value :=
  match arguments with
  | VDict d => mret (Dict.get_or key default d)
  | _ =>
      raise (AttributeError
               (u "'" ++ type_name arguments ++
                u "' object has no attribute 'get'"))
  end.

(** [action[key]] for a [str] key. *)
Definition py_getitem (action : value) (key : str) : M value :=
  match action with
  | VDict d =>
      match Dict.lookup key d with
      | Some v => mret v
      | None => raise (KeyError key)
      end
  | VStr _ => raise (TypeError (u "string indices must be integers, not 'str'"))
  | VList _ => raise (TypeError (u "list indices must be integers or slices, not str"))
  | _ =>
      raise (TypeError
               (u "'" ++ type_name action ++ u "' object is not subscriptable"))
  end.

(** [hours * n] for an [int] n *)
Definition py_mul (hours : value) (n : Z) : M value :=
  match hours with
  | VInt z => mret (VInt (z * n))
  | VBool b => mret (VInt ((if b then 1 else 0) * n))
  | VStr s => mret (VStr (Str.repeat s (Z.to_nat n)))
  | VList l => mret (VList (concat (replicate (Z.to_nat n) l)))
  | VNone | VDict _ =>
      raise (TypeError
               (u "unsupported operand type(s) for *: '" ++ type_name hours ++
                u "' and 'int'"))
  end.

(** The [try] block of [execute_action]. *)
Definition execute_action_body (name arguments : value)
    : M (list TextContent) :=
  if is_str name (u "check_system_health") then
    health_data ← get_system_health env;
    mret [text_content (Json.dumps_indent 2 health_data)]
  else if is_str name (u "get_security_events") then
    limit ← py_get arguments (u "limit") (VInt 10);
    events ← get_recent_suspicious_activity env limit;
    mret [text_content (Json.dumps_indent 2 (VList events))]
  else if is_str name (u "analyze_attack_patterns") then
    limit ← py_get arguments (u "limit") (VInt 10);
    events ← get_recent_suspicious_activity env limit;
    match events with
    | [] => mret [text_content no_activity_message]
    | _ =>
        analysis ← analyze_security_events env events;
        mret [text_content analysis]
    end
  else if is_str name (u "ban_suspicious_ip") then
    ip ← py_get arguments (u "ip") VNone;
    hours ← py_get arguments (u "hours") (VInt 1);
    duration ← py_mul hours 3600;
    result ← ban_ip env ip duration;
    mret [text_content result]
  else
    raise (ValueError (u "Unknown tool: " ++ to_str env name)).

(** [execute_action] *)
Definition execute_action (name arguments : value) : M (list TextContent) :=
  catch (execute_action_body name arguments)
    (λ e, mret [text_content (u "System Error: " ++ exn_str (printable env) e)]).

(** The dict stored for a pending action. *)
Definition action_data (name : str) (arguments : dict) : value :=
  VDict [(u "name", VStr name);
         (u "arguments", VDict arguments);
         (u "timestamp", VStr (uuid4 env))].

(** The notice returned instead of running a dangerous tool. *)
Definition interlock_message (name : str) (arguments : dict) (token : str) : str :=
  [0x26A0; 0xFE0F] ++ u " SAFETY INTERLOCK TRIGGERED" ++ [10] ++
  u "Action: " ++ name ++ [10] ++
  u "Arguments: " ++ Json.dumps (VDict arguments) ++ [10] ++
  u "Status: PENDING APPROVAL" ++ [10; 10] ++
  u "To execute this command, call 'approve_action' with:" ++ [10] ++
  u "token: " ++ token.

Definition invalid_ip_message (ip : value) : str :=
  u "Error: '" ++ to_str env ip ++ u "' is not a valid IP address.".

(** [json.loads(raw)] as [call_tool] uses it: on what [GET] returned. *)
Definition json_loads (raw : option str) : M value :=
  match raw with
  | None =>
      raise (TypeError
               (u "the JSON object must be str, bytes or bytearray, not NoneType"))
  | Some s =>
      match Json.loads s with
      | Json.Decoded v => mret v
      | Json.DecodeError => raise JSONDecodeError
      | Json.FloatInDocument | Json.TooDeep => raise OutsideModel
      end
  end.

(** The loop of the listing: [actions[token] = json.loads(get(k))]. *)
Fixpoint collect_actions (keys : list str) (actions : dict) : M dict :=
  match keys with
  | [] => mret actions
  | k :: keys' =>
      let token := Str.replace APPROVAL_PREFIX [] k in
      raw ← Redis.get k;
      action ← json_loads raw;
      collect_actions keys' (Dict.set token action actions)
  end.

(** The branch of [call_tool] for [approve_action]. *)
Definition approve (arguments : dict) : M (list TextContent) :=
  let token := Dict.get (u "token") arguments in
  let key := APPROVAL_PREFIX ++ to_str env token in
  raw_data ← Redis.get key;
  match raw_data with
  | None | Some [] => mret [text_content invalid_token_message]
  | Some raw =>
      action ← json_loads (Some raw);
      _ ← Redis.delete key;
      action_name ← py_getitem action (u "name");
      action_arguments ← py_getitem action (u "arguments");
      execute_action action_name action_arguments
  end.

(** The branch of [call_tool] for [list_pending_actions]. *)
Definition list_pending : M (list TextContent) :=
  keys ← Redis.keys APPROVAL_PREFIX;
  match keys with
  | [] => mret [text_content no_pending_message]
  | _ =>
      actions ← collect_actions keys [];
      mret [text_content (Json.dumps_indent 2 (VDict actions))]
  end.

(** The branch of [call_tool] for the names in [DANGEROUS_TOOLS]. *)
Definition submit_dangerous (name : str) (arguments : dict)
    : M (list TextContent) :=
  let token := token_hex env in
  _ ← Redis.setex (APPROVAL_PREFIX ++ token) APPROVAL_TTL
        (Json.dumps (action_data name arguments));
  mret [text_content (interlock_message name arguments token)].

(** [call_tool] *)
Definition call_tool (name : str) (arguments : dict) : M (list TextContent) :=
  if bool_decide (name = u "ban_suspicious_ip") &&
     negb (validate_ip (Dict.get (u "ip") arguments))
  then mret [text_content (invalid_ip_message (Dict.get (u "ip") arguments))]
  else if bool_decide (name ∈ DANGEROUS_TOOLS) then submit_dangerous name arguments
  else if bool_decide (name = u "approve_action") then approve arguments
  else if bool_decide (name = u "list_pending_actions") then list_pending
  else execute_action (VStr name) (VDict arguments).

End Server.

(** ** Approvals racing on one store

    Within one process the calls of the blocking Redis client cannot
    interleave, but every client process of the server runs its own
    [call_tool]; the server orders single commands only.  The branch
    [approve] is cut at its store commands: the read of line 152, the delete
    of line 157 and the execution of line 159. *)

Inductive approve_pc :=
| AtGet (arguments : dict)
| AtDelete (key : str) (action : value)
| AtExecute (action : value)
| Returned (r : res (list TextContent)).

Section Race.
Variable env : environment.

(** One step of one caller. *)
Definition approve_step (pc : approve_pc) (w : world) : approve_pc * world :=
  match pc with
  | AtGet arguments =>
      let token := Dict.get (u "token") arguments in
      let key := APPROVAL_PREFIX ++ to_str env token in
      match Redis.get key w with
      | (Ok None, w') | (Ok (Some []), w') =>
          (Returned (Ok [text_content invalid_token_message]), w')
      | (Ok (Some raw), w') =>
          match json_loads (Some raw) w' with
          | (Ok action, w'') => (AtDelete key action, w'')
          | (Raise e, w'') => (Returned (Raise e), w'')
          end
      | (Raise e, w') => (Returned (Raise e), w')
      end
  | AtDelete key action =>
      match Redis.delete key w with
      | (Ok _, w') => (AtExecute action, w')
      | (Raise e, w') => (Returned (Raise e), w')
      end
  | AtExecute action =>
      let '(r, w') :=
        (action_name ← py_getitem action (u "name");
         action_arguments ← py_getitem action (u "arguments");
         execute_action env action_name action_arguments) w in
      (Returned r, w')
  | Returned r => (Returned r, w)
  end.

(** The callers' program points and the shared world after the steps of
    a schedule, each entry naming the caller that moves. *)
Fixpoint run_schedule (schedule : list nat) (pcs : list approve_pc)
    (w : world) : list approve_pc * world :=
  match schedule with
  | [] => (pcs, w)
  | i :: schedule' =>
      match pcs !! i with
      | Some pc =>
          let '(pc', w') := approve_step pc w in
          run_schedule schedule' (<[i := pc']> pcs) w'
      | None => run_schedule schedule' pcs w
      end
  end.

(** A caller that runs alone from a program point to its return. *)
Definition run_alone (pc : approve_pc) (w : world) : approve_pc * world :=
  let '(pc1, w1) := approve_step pc w in
  let '(pc2, w2) := approve_step pc1 w1 in
  approve_step pc2 w2.

End Race.

(** Whether a reply is the refusal of a token, and how often the block list
    was written. *)
Definition is_invalid_token (r : res (list TextContent)) : bool :=
  match r with
  | Ok [c] => bool_decide (text c = invalid_token_message)
  | _ => false
  end.

Definition is_blocklist_set (e : event) : bool :=
  match e with
  | BlocklistSet _ _ => true
  | _ => false
  end.

Definition is_store_event (e : event) : bool :=
  match e with
  | StoreSetex _ _ _ | StoreGet _ | StoreDelete _ | StoreKeys _ => true
  | _ => false
  end.

(** ** A concrete environment and concrete requests *)

Module Sample.

Definition env : environment := {|
  printable := λ c, negb (c <=? 160) && negb (c =? 173);
  token_hex := u "9f3a01bc";
  uuid4 := u "6fa459ea-ee8a-4ca4-894e-db77e160355e";
  system_health :=
    inl (VDict [(u "aegis", VDict [(u "status", VStr (u "UP"))]);
                (u "cryptex", VDict [(u "status", VStr (u "DOWN"));
                                     (u "error", VStr (u "HTTP 503"))]);
                (u "nexus", VDict [(u "status", VStr (u "UP"))])]);
  suspicious_activity := λ _, [];
  analysis := λ _, u "No clear attack pattern.";
  blocklist_fault := λ _ _, None;
  expiry_error := λ _, u "invalid expire time in 'set' command"
|}.

(** The same environment with an unreachable block list. *)
Definition env_down : environment := {|
  printable := printable env;
  token_hex := token_hex env;
  uuid4 := uuid4 env;
  system_health := inr (u "Expecting value: line 1 column 1 (char 0)");
  suspicious_activity := suspicious_activity env;
  analysis := analysis env;
  blocklist_fault := λ _ _, Some (u "Connection refused");
  expiry_error := expiry_error env
|}.

Definition empty_world : world := World ∅ [].

(** [{"ip": "1.2.3.4", "hours": 1}] *)
Definition ban_arguments : dict := [(u "ip", VStr (u "1.2.3.4")); (u "hours", VInt 1)].

(** [{"token": "9f3a01bc"}] *)
Definition approve_arguments : dict := [(u "token", VStr (u "9f3a01bc"))].

(** The world after [call_tool("ban_suspicious_ip", ban_arguments)]. *)
Definition pending_world : world :=
  (call_tool env (u "ban_suspicious_ip") ban_arguments empty_world).2.

(** [pending_world] with one more approval key, holding text that is no
    JSON. *)
Definition mixed_world : world :=
  with_store
    (insert (APPROVAL_PREFIX ++ u "0badc0de") (Entry (u "{not json") 3600))
    pending_world.

(** Two callers approving the pending token, both reading before either
    deletes: read, read, delete, delete, execute, execute. *)
Definition race : list approve_pc * world :=
  run_schedule env [0; 1; 0; 1; 0; 1]%nat
    [AtGet approve_arguments; AtGet approve_arguments] pending_world.

End Sample.

(** ** [app/core/config.py] *)

(** The fields of [Settings].  Their values come from the process
    environment and [.env]; the class body gives the defaults. *)
Record Settings := {
  APP_NAME : str;
  VERSION : str;
  LOG_LEVEL : str;
  NEXUS_PORT : Z;
  REDIS_HOST : str;
  REDIS_PORT : Z;
  REDIS_PASSWORD : option str;
  POSTGRES_HOST : str;
  POSTGRES_PORT : Z;
  POSTGRES_DB : str;
  POSTGRES_USER : str;
  POSTGRES_PASSWORD : str;
  AEGIS_URL : str;
  CRYPTEX_URL : str;
  LLM_PROVIDER : str;
  OLLAMA_BASE_URL : str;
  OPENAI_API_KEY : option str;
  ANTHROPIC_API_KEY : option str
}.

Definition default_settings : Settings := {|
  APP_NAME := u "Nexus AI Operator";
  VERSION := u "1.0.0";
  LOG_LEVEL := u "INFO";
  NEXUS_PORT := 8082;
  REDIS_HOST := u "localhost";
  REDIS_PORT := 6379;
  REDIS_PASSWORD := None;
  POSTGRES_HOST := u "localhost";
  POSTGRES_PORT := 5432;
  POSTGRES_DB := u "titan_grid";
  POSTGRES_USER := u "titan_admin";
  POSTGRES_PASSWORD := u "change_me";
  AEGIS_URL := u "http://localhost:8080";
  CRYPTEX_URL := u "http://localhost:8081";
  LLM_PROVIDER := u "ollama";
  OLLAMA_BASE_URL := u "http://host.docker.internal:11434";
  OPENAI_API_KEY := None;
  ANTHROPIC_API_KEY := None
|}.

(** ** [app/services/health_service.py] *)

Module HealthService.

(** What [await client.get(url)] comes to. *)
Inductive http_reply :=
| Response (status_code : Z) (json : res value)  (* [json]: [response.json()] *)
| RequestError (msg : str)     (* an [httpx.RequestError], [str(e) = msg] *)
| OtherError (e : exn).        (* any other exception *)

(** A computation that requests URLs: it is given the URLs requested so
    far and returns them with its own added. *)
Definition probing (A : Type) : Type := list str → res A * list str.

Section WithNetwork.
Variable settings : Settings.

(** The network: the reply to a GET of a URL, given the URLs requested
    before it. *)
Variable http_get : list str → str → http_reply.

(** [HealthService.check_service_health] *)
Definition check_service_health (service_url : str) : probing value :=
  λ requested,
    let url := service_url ++ u "/actuator/health" in
    (match http_get requested url with
     | Response status_code json =>
         if (status_code =? 200)%Z then json
         else Ok (VDict [(u "status", VStr (u "DOWN"));
                         (u "error", VStr (u "HTTP " ++ Num.dec_of_Z status_code))])
     | RequestError msg =>
         Ok (VDict [(u "status", VStr (u "DOWN")); (u "error", VStr msg)])
     | OtherError e => Raise e
     end, requested ++ [url]).

(** [HealthService.get_system_health] *)
Definition get_system_health : probing value := λ requested,
  match check_service_health (AEGIS_URL settings) requested with
  | (Ok aegis_health, requested) =>
      match check_service_health (CRYPTEX_URL settings) requested with
      | (Ok cryptex_health, requested) =>
          (Ok (VDict [(u "aegis", aegis_health);
                      (u "cryptex", cryptex_health);
                      (u "nexus", VDict [(u "status", VStr (u "UP"))])]),
           requested)
      | (Raise e, requested) => (Raise e, requested)
      end
  | (Raise e, requested) => (Raise e, requested)
  end.

End WithNetwork.
End HealthService.

(** ** [app/services/security_service.py]: the event stream *)

Module SecurityService.
Section WithStream.

(** [await self.redis.xrevrange("suspicious_traffic", count=limit)]: the
    entries, newest first, each an id with its fields, or the exception
    raised. *)
Variable xrevrange : value → res (list (str * dict)).

(** [SecurityService.get_recent_suspicious_activity] *)
Definition get_recent_suspicious_activity (limit : value) : list value :=
  match xrevrange limit with
  | Ok events =>
      (λ '(event_id, data),
         VDict [(u "id", VStr event_id);
                (u "client_id", Dict.get (u "clientId") data);
                (u "ip", Dict.get (u "ip") data);
                (u "reason", Dict.get (u "reason") data);
                (u "timestamp", Dict.get (u "timestamp") data)]) <$> events
  | Raise _ => []
  end.

End WithStream.
End SecurityService.

(** ** [app/services/analyze_service.py] *)

Module AnalyzeService.

(** The constructor calls of [_initialize_llm]. *)
Inductive llm_request :=
| OllamaLLM (model base_url : str)
| ChatOpenAI (api_key : option str)
| ChatAnthropic (api_key : option str).

(** What [await chain.ainvoke(...)] returns: the text of a completion
    model, or a message whose [content] is text. *)
Inductive response :=
| Completion (text : str)
| Message (content : str).

(** A model, as the chain [prompt | llm] answers for the text given as
    [events_json]. *)
Definition llm : Type := str → res response.

Section WithModels.
Variable printable : N → bool.
Variable settings : Settings.

(** The constructors: the model, or [None] when the call raises. *)
Variable construct : llm_request → option llm.

(** [AnalyzeService._initialize_llm] *)
Definition _initialize_llm (provider : str) : option llm :=
  if bool_decide (provider = u "ollama") then
    construct (OllamaLLM (u "llama3") (OLLAMA_BASE_URL settings))
  else if bool_decide (provider = u "openai") then
    construct (ChatOpenAI (OPENAI_API_KEY settings))
  else if bool_decide (provider = u "anthropic") then
    construct (ChatAnthropic (ANTHROPIC_API_KEY settings))
  else
    construct (OllamaLLM (u "llama3") (OLLAMA_BASE_URL settings)).

(** [AnalyzeService.analyze_security_events] for the [self.llm] given. *)
Definition analyze_security_events (self_llm : option llm)
    (events : list value) : str :=
  match self_llm with
  | None => u "LLM not initialized. Cannot perform analysis."
  | Some chain =>
      match events with
      | [] => u "No events provided for analysis."
      | _ =>
          match chain (Repr.to_str printable (VList events)) with
          | Ok (Completion text) => text
          | Ok (Message content) => content
          | Raise e => u "Error during analysis: " ++ exn_str printable e
          end
      end
  end.

(** The service as [AnalyzeService()] builds it: [__init__] reads the
    provider from the settings. *)
Definition service (events : list value) : str :=
  analyze_security_events (_initialize_llm (LLM_PROVIDER settings)) events.

End WithModels.
End AnalyzeService.

(** ** The services as collaborators of the server *)

(** What lies behind the services. *)
Record backends := {
  http_get : list str → str → HealthService.http_reply;
  xrevrange : value → res (list (str * dict));
  construct : AnalyzeService.llm_request → option AnalyzeService.llm
}.

(** The environment in which the three services are the ones above; the
    block list and the random draws stay those of [base]. *)
Definition with_services (settings : Settings) (b : backends)
    (base : environment) : environment := {|
  printable := printable base;
  token_hex := token_hex base;
  uuid4 := uuid4 base;
  system_health :=
    match HealthService.get_system_health settings (http_get b) [] with
    | (Ok health, _) => inl health
    | (Raise e, _) => inr (exn_str (printable base) e)
    end;
  suspicious_activity :=
    SecurityService.get_recent_suspicious_activity (xrevrange b);
  analysis :=
    AnalyzeService.service (printable base) settings (construct b);
  blocklist_fault := blocklist_fault base;
  expiry_error := expiry_error base
|}.

(** ** [app/main.py]: the tools as plain endpoints *)

Module Rest.
Section Endpoints.
Variable env : environment.

(** [GET /tools/security] *)
Definition tool_get_security_events (limit : Z) : M value :=
  events ← get_recent_suspicious_activity env (VInt limit);
  mret (VList events).

(** [POST /tools/analyze] *)
Definition tool_analyze_events (limit : Z) : M value :=
  events ← get_recent_suspicious_activity env (VInt limit);
  match events with
  | [] => mret (VDict [(u "analysis", VStr (u "No events found."))])
  | _ =>
      analysis ← analyze_security_events env events;
      mret (VDict [(u "analysis", VStr analysis)])
  end.

(** [POST /tools/ban] *)
Definition tool_ban_ip (ip : str) (hours : Z) : M value :=
  result ← ban_ip env (VStr ip) (VInt (hours * 3600));
  mret (VDict [(u "result", VStr result)]).

End Endpoints.
End Rest.

(** ** Notions the properties are stated with *)

(** The store key that [approve] looks up for a request. *)
Definition approval_key (env : environment) (arguments : dict) : str :=
  APPROVAL_PREFIX ++ to_str env (Dict.get (u "token") arguments).

(** The world once [approve] has read and deleted [key]. *)
Definition consumed_world (key : str) (w : world) : world :=
  emit (StoreDelete key) (with_store (delete key) (emit (StoreGet key) w)).

(** The three ways in which the key of a request's token is not in the
    store: it was never written (or is simply absent), its time to live
    ran out, or an earlier approval consumed it. *)
Inductive token_gone (env : environment) (arguments : dict) : world → Prop :=
| never_issued w :
    store w !! approval_key env arguments = None →
    token_gone env arguments w
| expired w e seconds :
    store w !! approval_key env arguments = Some e →
    (ttl e ≤ seconds)%Z →
    token_gone env arguments (Redis.elapse seconds w)
| already_consumed w e action :
    store w !! approval_key env arguments = Some e →
    payload e ≠ [] →
    Json.loads (payload e) = Json.Decoded action →
    token_gone env arguments (call_tool env (u "approve_action") arguments w).2.

(** The keys that [KEYS nexus:approval:*] returns. *)
Definition pending_keys (w : world) : list str :=
  filter (λ k, Str.startswith APPROVAL_PREFIX k = true) (map_to_list (store w)).*1.

(** The stored text under [k] decodes to [v]. *)
Definition decodes_to (w : world) (k : str) (v : value) : Prop :=
  ∃ e, store w !! k = Some e ∧ Json.loads (payload e) = Json.Decoded v.

(** The dict that the listing builds from the keys and their actions. *)
Definition listing (keys : list str) (actions : list value) : dict :=
  fold_left (λ acc kv, Dict.set (Str.replace APPROVAL_PREFIX [] kv.1) kv.2 acc)
    (zip keys actions) [].

(** ** Notions of the parsers *)

(** A character that can start neither a decimal octet nor a hextet and is
    none of the separators. *)
Definition foreign (c : N) : Prop :=
  Num.is_digit c = false ∧ Ipaddress.is_hex_digit c = false ∧
  c ≠ ch "." ∧ c ≠ ch ":" ∧ c ≠ ch "%".

(** A parse that succeeds consumes input, and none runs out of budget. *)
Definition progress {A} (s : str) (r : Json.parsed A) : Prop :=
  match r with
  | Json.Parsed _ rest => (length rest < length s)%nat
  | Json.Exhausted => False
  | _ => True
  end.

(** ** Notions of the JSON round trip *)

(** What may follow a value in compact output: the end of the text, a
    comma or a closing bracket. *)
Definition closes (rest : str) : Prop :=
  match rest with
  | [] => True
  | c :: _ => c = ch "," ∨ c = ch "]" ∨ c = ch "}"
  end.

(** The result of [scanstring] with one more character in front. *)
Definition scan_cons (c : N) (r : option (str * str)) : option (str * str) :=
  match r with
  | Some (t, rest) => Some (c :: t, rest)
  | None => None
  end.

(** The compact encoder of [json.dumps(v)], at any nesting level. *)
Abbreviation enc := (Json.encode None).

(** The first character of an encoded value: no blank, no closing bracket. *)
Definition opens (s : str) : Prop :=
  match s with
  | [] => False
  | c :: _ => Json.is_ws c = false ∧ c ≠ ch "]" ∧ c ≠ ch "}"
  end.

(** What the induction gives for one value. *)
Definition round_trips (v : value) : Prop :=
  ∀ level fuel rest,
    closes rest →
    (length (enc level v) ≤ fuel)%nat →
    Json.scan_once fuel (enc level v ++ rest) = Json.Parsed v rest.

(** One [key: value] item of an encoded dict. *)
Definition pair_text (level : nat) (kv : str * value) : str :=
  Json.encode_str kv.1 ++ u ": " ++ enc level kv.2.

(** ** Notions of the further properties *)

(** An event other than the write of a pending action. *)
Definition no_setex (e : event) : Prop :=
  match e with StoreSetex _ _ _ => False | _ => True end.

(** A decoded record from which [approve] can read a name and arguments. *)
Definition complete_record (action : value) : Prop :=
  ∃ d name args,
    action = VDict d ∧
    Dict.lookup (u "name") d = Some name ∧
    Dict.lookup (u "arguments") d = Some args.

(** The request that approves the token drawn in [env]. *)
Definition approval_of (env : environment) : dict :=
  [(u "token", VStr (token_hex env))].

(** Text of hex digits, as [secrets.token_hex] returns it. *)
Definition hex_text (s : str) : Prop :=
  Forall (λ c, Ipaddress.is_hex_digit c = true) s.

(** The decimal text of an octet reads back, holds neither a dot nor a
    slash and is not empty. *)
Definition octet_ok (a : N) : bool :=
  bool_decide (Ipaddress.parse_octet (Num.dec_of_N a) = Some a) &&
  negb (Str.contains (ch ".") (Num.dec_of_N a)) &&
  negb (Str.contains (ch "/") (Num.dec_of_N a)) &&
  negb (bool_decide (Num.dec_of_N a = [])).

(** The characters of an address without its scope. *)
Definition address_char (c : N) : Prop :=
  Ipaddress.is_hex_digit c = true ∨ c = ch "." ∨ c = ch ":".

(** The URL that [check_service_health] requests for a service. *)
Definition health_url (service_url : str) : str :=
  service_url ++ u "/actuator/health".

(** The [error] that a health report gives for a reply other than one
    with status 200, if the reply is one that is reported. *)
Definition down_error (r : HealthService.http_reply) : option str :=
  match r with
  | HealthService.Response status_code _ =>
      if (status_code =? 200)%Z then None
      else Some (u "HTTP " ++ Num.dec_of_Z status_code)
  | HealthService.RequestError msg => Some msg
  | HealthService.OtherError _ => None
  end.

(** ** Concrete backends and worlds *)

Module Scenario.

(** One entry of the stream of suspicious traffic. *)
Definition entries : list (str * dict) :=
  [(u "1718000000000-0",
    [(u "clientId", VStr (u "c-17"));
     (u "ip", VStr (u "203.0.113.9"));
     (u "reason", VStr (u "RATE_LIMIT_EXCEEDED"));
     (u "timestamp", VStr (u "1718000000000"))])].

(** Nothing answers: Aegis is behind a failing proxy, Cryptex and the
    stream refuse the connection, no model can be built. *)
Definition backends_down : backends := {|
  http_get := λ _ url,
    if bool_decide (url = u "http://localhost:8080/actuator/health")
    then HealthService.Response 503 (Raise JSONDecodeError)
    else HealthService.RequestError (u "All connection attempts failed");
  xrevrange := λ _, Raise (Fault (u "Connection refused"));
  construct := λ _, None
|}.

(** Aegis answers 200 with a page that is no JSON, the stream has one
    entry, the local model is built and fails when asked. *)
Definition backends_up : backends := {|
  http_get := λ _ _,
    HealthService.Response 200
      (Raise (Fault (u "Expecting value: line 1 column 1 (char 0)")));
  xrevrange := λ _, Ok entries;
  construct := λ request,
    match request with
    | AnalyzeService.OllamaLLM _ _ =>
        Some (λ _, Raise (Fault (u "model 'llama3' not found")))
    | _ => None
    end
|}.

(** The same with no model at all. *)
Definition backends_no_model : backends := {|
  http_get := http_get backends_up;
  xrevrange := xrevrange backends_up;
  construct := λ _, None
|}.

(** A store whose one pending entry holds a record without fields. *)
Definition incomplete_world : world :=
  World {[ APPROVAL_PREFIX ++ u "9f3a01bc" := Entry (u "{}") 3600 ]} [].

(** [{"token": "0badc0de"}] *)
Definition corrupt_arguments : dict := [(u "token", VStr (u "0badc0de"))].

End Scenario.

(** * Properties *)

(** ** The addresses [validate_ip] refuses *)

Lemma split_head sep c s :
  c ≠ sep → ∃ w ws, Str.split sep (c :: s) = (c :: w) :: ws.
Proof.
  intros H. cbn [Str.split]. apply N.eqb_neq in H. rewrite H.
  destruct (Str.split sep s); eauto.
Qed.

Lemma fold_parts_head parse width acc p ps :
  parse p = None → Ipaddress.fold_parts parse width acc (p :: ps) = None.
Proof. intros H. cbn. by rewrite H. Qed.

Lemma parse_octet_foreign c w :
  Num.is_digit c = false → Ipaddress.parse_octet (c :: w) = None.
Proof.
  intros H. unfold Ipaddress.parse_octet. cbn [forallb]. rewrite H.
  by destruct (Ipaddress.ensure (negb _)).
Qed.

Lemma parse_hextet_foreign c w :
  Ipaddress.is_hex_digit c = false → Ipaddress.parse_hextet (c :: w) = None.
Proof.
  intros H. unfold Ipaddress.parse_hextet. cbn [forallb]. by rewrite H.
Qed.

(** Passes one check of a parser: either it fails, and so does the
    parser, or the parse goes on. *)
Ltac pass_check :=
  match goal with
  | |- (Ipaddress.ensure ?b ≫= _) = None =>
      destruct (Ipaddress.ensure b) as [[]|];
      cbn [mbind option_bind]; [|reflexivity]
  end.

Lemma v4_of_str_foreign c s : foreign c → Ipaddress.v4_of_str (c :: s) = None.
Proof.
  intros (Hd & _ & Hdot & _).
  unfold Ipaddress.v4_of_str, Ipaddress.v4_int_from_string.
  destruct (split_head (ch ".") c s Hdot) as (w & ws & ->).
  do 3 pass_check.
  apply fold_parts_head. by apply parse_octet_foreign.
Qed.

Lemma partition_head sep c s :
  c ≠ sep →
  ∃ a found b, Str.partition sep (c :: s) = (c :: a, found, b).
Proof.
  intros H. cbn [Str.partition]. apply N.eqb_neq in H. rewrite H.
  destruct (Str.partition sep s) as [[a found] b]. eauto.
Qed.

Lemma find_skip_index parts i :
  Ipaddress.find_skip parts = Some (Some i) → (1 ≤ i)%nat.
Proof.
  unfold Ipaddress.find_skip. intros H.
  destruct (filter _ _) as [|j [|]] eqn:E; simplify_eq.
  assert (Hin : i ∈ filter (λ i, parts !! i = Some []) (seq 1 (length parts - 2))).
  { rewrite E. left. }
  apply list_elem_of_filter in Hin as [_ Hin]. apply elem_of_seq in Hin. lia.
Qed.

Lemma v6_int_from_string_foreign c s :
  foreign c → Ipaddress.v6_int_from_string (c :: s) = None.
Proof.
  intros (_ & Hh & _ & Hcolon & _).
  unfold Ipaddress.v6_int_from_string.
  destruct (split_head (ch ":") c s Hcolon) as (w & ws & ->).
  pass_check.
  destruct ws as [|p1 [|p2 ws]]; try reflexivity.
  pass_check.
  match goal with |- (?m ≫= _) = None => destruct m as [parts|] eqn:Eparts end;
    cbn [mbind option_bind]; [|reflexivity].
  assert (Hhead : ∃ ps, parts = (c :: w) :: ps).
  { destruct (last _) as [tail|] eqn:El; [|simplify_eq; by eexists].
    destruct (Str.contains (ch ".") tail); [|simplify_eq; by eexists].
    destruct (Ipaddress.v4_of_str tail); cbn [mbind option_bind] in Eparts;
      [|done].
    simplify_eq. cbn. eauto. }
  destruct Hhead as (ps & ->). clear Eparts.
  pass_check.
  destruct (Ipaddress.find_skip _) as [skip|] eqn:Eskip;
    cbn [mbind option_bind]; [|reflexivity].
  rewrite (bool_decide_eq_false_2 (head ((c :: w) :: ps) = Some [])) by done.
  match goal with |- (?m ≫= _) = None => destruct m as [[[hi lo] sk]|] eqn:Es end;
    cbn [mbind option_bind]; [|reflexivity].
  assert (Hhi : ∃ k, hi = S k).
  { destruct skip as [i|].
    - apply find_skip_index in Eskip. cbn [mbind option_bind] in Es.
      destruct (if bool_decide _ then _ else _) as [lo'|];
        cbn [mbind option_bind] in Es; [|done].
      destruct (Ipaddress.ensure _); cbn [mbind option_bind] in Es; [|done].
      simplify_eq. exists (Nat.pred hi). lia.
    - repeat match type of Es with
             | (Ipaddress.ensure ?b ≫= _) = _ =>
                 destruct (Ipaddress.ensure b) as [[]|];
                 cbn [mbind option_bind] in Es; [|done]
             end.
      simplify_eq. cbn [length]. by eexists. }
  destruct Hhi as (k & ->). cbn [take].
  rewrite fold_parts_head by by apply parse_hextet_foreign.
  reflexivity.
Qed.

Lemma ip_address_foreign printable v c s :
  Ipaddress.as_int v = None →
  Repr.to_str printable v = c :: s →
  foreign c →
  Ipaddress.ip_address printable v = None.
Proof.
  intros Hi Hs Hf.
  unfold Ipaddress.ip_address, Ipaddress.v4_address, Ipaddress.v6_address.
  rewrite Hi, Hs, (v4_of_str_foreign c s Hf).
  enough (E : (Ipaddress.ensure (negb (Str.contains (ch "/") (c :: s))) ≫= λ _,
               Ipaddress.split_scope_id (c :: s) ≫= λ split,
               Ipaddress.v6_int_from_string split.1 ≫= λ ip,
               Some (ip, split.2)) = None) by (by rewrite E).
  pass_check.
  unfold Ipaddress.split_scope_id.
  destruct (partition_head (ch "%") c s ltac:(apply Hf))
    as (a & found & b & ->).
  destruct found; cbn [negb].
  - destruct (Ipaddress.ensure _) as [[]|]; cbn [mbind option_bind fst snd];
      [|reflexivity].
    by rewrite v6_int_from_string_foreign.
  - cbn [mbind option_bind fst snd]. by rewrite v6_int_from_string_foreign.
Qed.

(** Lists and dicts are never taken for an address. *)
Lemma validate_ip_container env v :
  match v with VList _ | VDict _ => True | _ => False end →
  validate_ip env v = false.
Proof.
  intros Hv. unfold validate_ip.
  destruct v as [| | | |l|d]; try done.
  - rewrite (ip_address_foreign _ _ (ch "[")
               (Str.join (u ", ") (map (Repr.repr (printable env)) l) ++ u "]"));
      [done|done|reflexivity|by repeat split].
  - rewrite (ip_address_foreign _ _ (ch "{")
               (Str.join (u ", ")
                  (map (λ kv, Repr.repr_str (printable env) kv.1 ++ u ": " ++
                              Repr.repr (printable env) kv.2) d) ++ u "}"));
      [done|done|reflexivity|by repeat split].
Qed.

(** ** The budget of [json.loads] *)

Lemma skip_ws_length s : (length (Json.skip_ws s) ≤ length s)%nat.
Proof.
  induction s as [|c s IH]; [done|]. cbn [Json.skip_ws].
  destruct (Json.is_ws c); cbn [length]; lia.
Qed.

Lemma scanstring_shorter n :
  ∀ s t rest,
    (length s ≤ n)%nat → Json.scanstring s = Some (t, rest) →
    (length rest < length s)%nat.
Proof.
  induction n as [|n IH]; intros s t rest Hn H.
  - destruct s; [discriminate H|cbn in Hn; lia].
  - destruct s as [|c s1]; [discriminate H|].
    cbn [Json.scanstring] in H. cbn [length] in Hn.
    repeat case_match; simplify_eq; cbn [length] in *;
      try lia;
      match goal with
      | E : Json.scanstring ?x = Some (_, rest) |- _ =>
          apply IH in E; cbn [length] in *; lia
      end.
Qed.

Lemma span_digits_length s :
  (length (Num.span_digits s).2 ≤ length s)%nat.
Proof.
  induction s as [|c s IH]; [done|]. cbn [Num.span_digits].
  destruct (Num.is_digit c); [|done].
  destruct (Num.span_digits s) as [d rest]. cbn [snd length] in *. lia.
Qed.

Lemma match_number_progress s : progress s (Json.match_number s).
Proof.
  unfold Json.match_number.
  destruct s as [|c s]; [done|].
  destruct (c =? ch "-").
  - destruct s as [|c1 s1]; [done|].
    destruct ((ch "1" <=? c1) && (c1 <=? ch "9")).
    + pose proof (span_digits_length (c1 :: s1)) as Hl.
      destruct (Num.span_digits (c1 :: s1)) as [d rest].
      destruct (Json.float_follows rest); [done|]. cbn [progress snd length] in *. lia.
    + destruct (c1 =? ch "0"); [|done].
      destruct (Json.float_follows s1); [done|]. cbn [progress length]. lia.
  - destruct ((ch "1" <=? c) && (c <=? ch "9")) eqn:E.
    + pose proof (span_digits_length s) as Hl.
      cbn [Num.span_digits].
      assert (Hd : Num.is_digit c = true).
      { unfold Num.is_digit. apply andb_prop in E as [E1 E2].
        apply N.leb_le in E1, E2. apply andb_true_intro.
        split; apply N.leb_le; [|done]. change (ch "0") with 48.
        change (ch "1") with 49 in E1. lia. }
      rewrite Hd. destruct (Num.span_digits s) as [d rest].
      destruct (Json.float_follows rest); [done|]. cbn [progress snd length] in *. lia.
    + destruct (c =? ch "0"); [|done].
      destruct (Json.float_follows s); [done|]. cbn [progress length]. lia.
Qed.

Lemma scan_budget f :
  (∀ s, (2 * length s < f)%nat → progress s (Json.scan_once f s)) ∧
  (∀ s, (2 * length s + 1 < f)%nat → progress s (Json.parse_items f s)) ∧
  (∀ s, (2 * length s + 1 < f)%nat → progress s (Json.parse_pairs f s)).
Proof.
  induction f as [|f (IHv & IHi & IHp)].
  { repeat split; intros s H; lia. }
  split; [|split]; intros s Hf.
  - destruct s as [|c s']; [done|]. cbn [length] in Hf.
    cbn [Json.scan_once].
    destruct (c =? dquote).
    { destruct (Json.scanstring s') as [[t rest]|] eqn:E; [|done].
      apply (scanstring_shorter _ _ _ _ (le_n _)) in E. cbn [progress length]. lia. }
    destruct (c =? ch "{").
    { pose proof (skip_ws_length s') as Hw.
      destruct (Json.skip_ws s') as [|c1 s1]; [done|]. cbn [length] in Hw.
      destruct (c1 =? ch "}"); [cbn [progress length]; lia|].
      pose proof (IHp (c1 :: s1) ltac:(cbn [length]; lia)) as Hp.
      destruct (Json.parse_pairs f (c1 :: s1)); cbn [progress length] in *;
        try done; lia. }
    destruct (c =? ch "[").
    { pose proof (skip_ws_length s') as Hw.
      destruct (Json.skip_ws s') as [|c1 s1]; [done|]. cbn [length] in Hw.
      destruct (c1 =? ch "]"); [cbn [progress length]; lia|].
      pose proof (IHi (c1 :: s1) ltac:(cbn [length]; lia)) as Hp.
      destruct (Json.parse_items f (c1 :: s1)); cbn [progress length] in *;
        try done; lia. }
    repeat (match goal with
            | |- context [Str.startswith ?p ?t] => destruct (Str.startswith p t)
            end;
            [first [ done
                   | cbn [progress]; rewrite length_drop; cbn [length]; lia ]|]).
    apply match_number_progress.
  - cbn [Json.parse_items].
    pose proof (IHv s ltac:(lia)) as Hv.
    destruct (Json.scan_once f s) as [v rest| | |]; try done.
    cbn [progress] in Hv.
    pose proof (skip_ws_length rest) as Hw.
    destruct (Json.skip_ws rest) as [|c rest']; [done|]. cbn [length] in Hw.
    destruct (c =? ch "]"); [cbn [progress]; lia|].
    destruct (c =? ch ","); [|done].
    pose proof (skip_ws_length rest') as Hw'.
    pose proof (IHi (Json.skip_ws rest') ltac:(lia)) as Hi.
    destruct (Json.parse_items f (Json.skip_ws rest')); cbn [progress] in *;
      try done; lia.
  - cbn [Json.parse_pairs].
    destruct s as [|c s1]; [done|]. cbn [length] in Hf.
    destruct (c =? dquote); [|done].
    destruct (Json.scanstring s1) as [[key s2]|] eqn:E; [|done].
    apply (scanstring_shorter _ _ _ _ (le_n _)) in E.
    pose proof (skip_ws_length s2) as Hw2.
    destruct (Json.skip_ws s2) as [|c2 s3]; [done|]. cbn [length] in Hw2.
    destruct (c2 =? ch ":"); [|done].
    pose proof (skip_ws_length s3) as Hw3.
    pose proof (IHv (Json.skip_ws s3) ltac:(lia)) as Hv.
    destruct (Json.scan_once f (Json.skip_ws s3)) as [v rest| | |]; try done.
    cbn [progress] in Hv.
    pose proof (skip_ws_length rest) as Hw.
    destruct (Json.skip_ws rest) as [|c3 rest']; [done|]. cbn [length] in Hw.
    destruct (c3 =? ch "}"); [cbn [progress length]; lia|].
    destruct (c3 =? ch ","); [|done].
    pose proof (skip_ws_length rest') as Hw'.
    pose proof (IHp (Json.skip_ws rest') ltac:(lia)) as Hp.
    destruct (Json.parse_pairs f (Json.skip_ws rest')); cbn [progress length] in *;
      try done; lia.
Qed.

(** [json.loads] never runs out of budget: its answers are those of the
    decoder. *)
Lemma loads_total s : Json.loads s ≠ Json.TooDeep.
Proof.
  unfold Json.loads. destruct (Str.startswith _ s); [done|].
  pose proof (skip_ws_length s) as Hw.
  destruct (scan_budget (S (2 * length s))) as (Hv & _ & _).
  pose proof (Hv (Json.skip_ws s) ltac:(lia)) as Hp.
  destruct (Json.scan_once _ _) as [v rest| | |]; try done.
  by destruct (Json.skip_ws rest).
Qed.

(** ** [json.loads] after [json.dumps] *)

Lemma closes_no_digit rest :
  closes rest →
  match rest with [] => True | c :: _ => Num.is_digit c = false end.
Proof. destruct rest as [|c rest]; [done|]. by intros [-> | [-> | ->]]. Qed.

Lemma closes_no_float rest : closes rest → Json.float_follows rest = false.
Proof.
  destruct rest as [|c [|d rest]]; [done|done|].
  by intros [-> | [-> | ->]].
Qed.

Lemma span_digits_chars d rest :
  match rest with [] => True | c :: _ => Num.is_digit c = false end →
  Num.span_digits (Num.chars_of_uint d ++ rest) = (d, rest).
Proof.
  intros Hrest. induction d; cbn [Num.chars_of_uint app];
    try (cbn [Num.span_digits]; rewrite IHd; reflexivity).
  destruct rest as [|c rest]; [done|]. cbn [Num.span_digits]. by rewrite Hrest.
Qed.

(** The decimal digits of a positive number start with a digit from 1 to 9. *)
Lemma pos_to_uint_head p :
  match Pos.to_uint p with
  | Decimal.Nil | Decimal.D0 _ => False
  | _ => True
  end.
Proof.
  pose proof (DecimalPos.Unsigned.to_uint_nonzero p) as Hz.
  pose proof (DecimalN.Unsigned.to_of (N.to_uint (Npos p))) as Hn.
  rewrite DecimalN.Unsigned.of_to in Hn. cbn [N.to_uint] in Hn.
  pose proof (DecimalPos.Unsigned.to_uint_nonnil p) as Hnil.
  destruct (Pos.to_uint p) as [|d| | | | | | | | |] eqn:E; try done.
  rewrite DecimalFacts.unorm_D0 in Hn.
  unfold Decimal.unorm in Hn.
  pose proof (DecimalFacts.nzhead_nonzero d d) as Hh.
  destruct (Decimal.nzhead d) eqn:En; done.
Qed.

(** Evaluates the comparisons between known characters. *)
Ltac decide_tests :=
  repeat match goal with
  | |- context [N.eqb ?a ?b] =>
      let v := eval vm_compute in (N.eqb a b) in
      match v with
      | true => change (N.eqb a b) with true
      | false => change (N.eqb a b) with false
      end
  | |- context [N.leb ?a ?b] =>
      let v := eval vm_compute in (N.leb a b) in
      match v with
      | true => change (N.leb a b) with true
      | false => change (N.leb a b) with false
      end
  | |- context [N.ltb ?a ?b] =>
      let v := eval vm_compute in (N.ltb a b) in
      match v with
      | true => change (N.ltb a b) with true
      | false => change (N.ltb a b) with false
      end
  end;
  cbn [andb orb negb]; cbv iota.

Lemma match_number_dec z rest :
  closes rest →
  Json.match_number (Num.dec_of_Z z ++ rest) = Json.Parsed (VInt z) rest.
Proof.
  intros Hc. pose proof (closes_no_float _ Hc) as Hf.
  pose proof (closes_no_digit _ Hc) as Hd.
  destruct z as [|p|p].
  - change (Num.dec_of_Z 0) with [ch "0"]. cbn [app].
    unfold Json.match_number. decide_tests. by rewrite Hf.
  - unfold Num.dec_of_Z, Num.dec_of_N. cbn [N.to_uint].
    pose proof (pos_to_uint_head p) as Hh.
    pose proof (span_digits_chars (Pos.to_uint p) rest Hd) as Hs.
    pose proof (DecimalPos.Unsigned.of_to p) as Hof.
    unfold Json.match_number.
    destruct (Pos.to_uint p) eqn:E; try done;
      cbn [Num.chars_of_uint app] in *; decide_tests;
      rewrite Hs, Hf; unfold N.of_uint; rewrite Hof; reflexivity.
  - unfold Num.dec_of_Z, Num.dec_of_N. cbn [N.to_uint].
    pose proof (pos_to_uint_head p) as Hh.
    pose proof (span_digits_chars (Pos.to_uint p) rest Hd) as Hs.
    pose proof (DecimalPos.Unsigned.of_to p) as Hof.
    unfold Json.match_number. cbn [app]. decide_tests.
    destruct (Pos.to_uint p) eqn:E; try done;
      cbn [Num.chars_of_uint app] in *; decide_tests;
      rewrite Hs, Hf; unfold N.of_uint; rewrite Hof; reflexivity.
Qed.

(** *** Hex digits and surrogates *)

Lemma hex_val_digit d : d < 16 → Num.hex_val (Num.hex_digit d) = Some d.
Proof.
  intros H. destruct d as [|p]; [reflexivity|].
  do 4 (destruct p as [p|p|]; try reflexivity); lia.
Qed.

Lemma hex_fixed_4 n :
  Num.hex_fixed 4 n =
    [Num.hex_digit (n / 16 / 16 / 16 mod 16); Num.hex_digit (n / 16 / 16 mod 16);
     Num.hex_digit (n / 16 mod 16); Num.hex_digit (n mod 16)].
Proof. reflexivity. Qed.

Lemma hex4_fixed n :
  n < 65536 →
  Json.hex4 (Num.hex_digit (n / 16 / 16 / 16 mod 16))
    (Num.hex_digit (n / 16 / 16 mod 16)) (Num.hex_digit (n / 16 mod 16))
    (Num.hex_digit (n mod 16)) = Some n.
Proof.
  intros H. unfold Json.hex4.
  rewrite !hex_val_digit by (apply N.mod_lt; lia).
  f_equal.
  pose proof (N.div_mod n 16). pose proof (N.div_mod (n / 16) 16).
  pose proof (N.div_mod (n / 16 / 16) 16).
  pose proof (N.mod_lt n 16). pose proof (N.mod_lt (n / 16) 16).
  pose proof (N.mod_lt (n / 16 / 16) 16).
  assert (n / 16 / 16 / 16 < 16).
  { rewrite !N.Div0.div_div. apply N.Div0.div_lt_upper_bound. lia. }
  rewrite (N.mod_small (n / 16 / 16 / 16)) by done.
  lia.
Qed.

Lemma land_shiftl_low a k x : x < 2 ^ k → N.land (N.shiftl a k) x = 0.
Proof.
  intros H. apply N.bits_inj. intros i.
  rewrite N.land_spec, N.bits_0.
  destruct (N.lt_ge_cases i k) as [Hi|Hi].
  - by rewrite N.shiftl_spec_low.
  - rewrite <- (N.mod_small x (2 ^ k)) by done.
    rewrite N.mod_pow2_bits_high by done. apply andb_false_r.
Qed.

Lemma lor_shiftl_add a k x : x < 2 ^ k → N.lor (N.shiftl a k) x = a * 2 ^ k + x.
Proof.
  intros H. rewrite <- N.lxor_lor, <- N.add_nocarry_lxor
    by (by apply land_shiftl_low).
  by rewrite N.shiftl_mul_pow2.
Qed.

(** The pair that [escape_char] writes for a code point beyond the basic
    plane, and its rejoining. *)
Lemma surrogate_pair c :
  0x10000 ≤ c → c < 0x110000 →
  let n := c - 0x10000 in
  let s1 := N.lor 0xd800 (N.land (N.shiftr n 10) 0x3ff) in
  let s2 := N.lor 0xdc00 (N.land n 0x3ff) in
  s1 < 65536 ∧ s2 < 65536 ∧
  Json.is_high s1 = true ∧ Json.is_low s2 = true ∧
  Json.join_surrogates s1 s2 = c.
Proof.
  intros Hlo Hhi n s1 s2.
  assert (Hn : n < 2 ^ 20) by (subst n; change (2 ^ 20) with 1048576; lia).
  assert (E1 : s1 = 0xd800 + n / 1024).
  { subst s1. change 0x3ff with (N.ones 10).
    rewrite N.land_ones, N.shiftr_div_pow2.
    change 0xd800 with (N.shiftl 54 10) at 1.
    change (2 ^ 10) with 1024.
    assert (n / 1024 < 1024).
    { apply N.Div0.div_lt_upper_bound. change (2^20) with 1048576 in Hn. lia. }
    rewrite N.mod_small by done.
    rewrite lor_shiftl_add by (change (2 ^ 10) with 1024; done).
    reflexivity. }
  assert (E2 : s2 = 0xdc00 + n mod 1024).
  { subst s2. change 0x3ff with (N.ones 10).
    rewrite N.land_ones. change (2 ^ 10) with 1024.
    change 0xdc00 with (N.shiftl 55 10) at 1.
    rewrite lor_shiftl_add by (change (2 ^ 10) with 1024; apply N.mod_lt; lia).
    reflexivity. }
  assert (H1 : n / 1024 < 1024).
  { apply N.Div0.div_lt_upper_bound. change (2^20) with 1048576 in Hn. lia. }
  assert (H2 : n mod 1024 < 1024) by (apply N.mod_lt; lia).
  pose proof (N.div_mod n 1024 ltac:(lia)) as Hdm.
  assert (Hc : c = 0x10000 + n) by (subst n; lia).
  rewrite E1, E2. clear E1 E2 Hn. clearbody n s1 s2.
  set (q := n / 1024) in *. set (r := n mod 1024) in *. clearbody q r.
  unfold Json.is_high, Json.is_low, Json.join_surrogates.
  repeat split; try lia.
  - apply andb_true_intro. split; apply N.leb_le; lia.
  - apply andb_true_intro. split; apply N.leb_le; lia.
  - replace (0xd800 + q - 0xd800) with q by lia.
    replace (0xdc00 + r - 0xdc00) with r by lia.
    rewrite lor_shiftl_add by (change (2 ^ 10) with 1024; done).
    change (2 ^ 10) with 1024. lia.
Qed.

(** *** Strings *)

Lemma scanstring_plain c tl :
  c ≠ dquote → c ≠ backslash → 32 ≤ c →
  Json.scanstring (c :: tl) = scan_cons c (Json.scanstring tl).
Proof.
  intros H1 H2 H3. cbn [Json.scanstring].
  apply N.eqb_neq in H1, H2. apply N.ltb_ge in H3.
  by rewrite H1, H2, H3.
Qed.

Lemma scanstring_escape e x tl :
  e ≠ ch "u" → Json.unescape e = Some x →
  Json.scanstring (backslash :: e :: tl) = scan_cons x (Json.scanstring tl).
Proof.
  intros H1 H2. cbn [Json.scanstring].
  change (backslash =? dquote) with false.
  change (backslash =? backslash) with true. cbv iota.
  apply N.eqb_neq in H1. by rewrite H1, H2.
Qed.

Lemma scanstring_u_single h1 h2 h3 h4 n tl :
  Json.hex4 h1 h2 h3 h4 = Some n → Json.is_high n = false →
  Json.scanstring (backslash :: ch "u" :: h1 :: h2 :: h3 :: h4 :: tl) =
    scan_cons n (Json.scanstring tl).
Proof.
  intros H1 H2. cbn [Json.scanstring].
  change (backslash =? dquote) with false.
  change (backslash =? backslash) with true.
  change (ch "u" =? ch "u") with true. cbv iota.
  by rewrite H1, H2.
Qed.

Lemma scanstring_u_pair h1 h2 h3 h4 g1 g2 g3 g4 n m tl :
  Json.hex4 h1 h2 h3 h4 = Some n → Json.is_high n = true →
  Json.hex4 g1 g2 g3 g4 = Some m → Json.is_low m = true →
  Json.scanstring
    (backslash :: ch "u" :: h1 :: h2 :: h3 :: h4 ::
     backslash :: ch "u" :: g1 :: g2 :: g3 :: g4 :: tl) =
    scan_cons (Json.join_surrogates n m) (Json.scanstring tl).
Proof.
  intros H1 H2 H3 H4. cbn [Json.scanstring].
  change (backslash =? dquote) with false.
  change (backslash =? backslash) with true.
  change (ch "u" =? ch "u") with true. cbn [andb]. cbv iota.
  by rewrite H1, H2, H3, H4.
Qed.

Lemma scanstring_escape_char c tl :
  scalar c →
  Json.scanstring (Json.escape_char c ++ tl) = scan_cons c (Json.scanstring tl).
Proof.
  intros Hs. unfold Json.escape_char.
  destruct (N.eqb_spec c dquote) as [->|Hq].
  { by apply scanstring_escape. }
  destruct (N.eqb_spec c backslash) as [->|Hb].
  { by apply scanstring_escape. }
  destruct (N.eqb_spec c 10) as [->|H10].
  { by apply scanstring_escape. }
  destruct (N.eqb_spec c 13) as [->|H13].
  { by apply scanstring_escape. }
  destruct (N.eqb_spec c 9) as [->|H9].
  { by apply scanstring_escape. }
  destruct (N.eqb_spec c 8) as [->|H8].
  { by apply scanstring_escape. }
  destruct (N.eqb_spec c 12) as [->|H12].
  { by apply scanstring_escape. }
  destruct ((32 <=? c) && (c <=? 126)) eqn:Hp.
  { apply andb_prop in Hp as [Hp _]. apply N.leb_le in Hp.
    by apply scanstring_plain. }
  destruct (N.ltb_spec c 0x10000) as [Hlt|Hge].
  - cbn [app]. rewrite hex_fixed_4. cbn [app].
    apply scanstring_u_single; [by apply hex4_fixed|].
    unfold Json.is_high. destruct Hs as [Hs|[Hs _]].
    + apply andb_false_intro1. apply N.leb_gt. lia.
    + apply andb_false_intro2. apply N.leb_gt. lia.
  - destruct Hs as [Hs|[_ Hs]]; [lia|].
    destruct (surrogate_pair c Hge Hs) as (B1 & B2 & Hh & Hl & Hj).
    cbv zeta.
    set (s1 := N.lor 0xd800 _) in *. set (s2 := N.lor 0xdc00 _) in *.
    clearbody s1 s2.
    cbn [app]. rewrite !hex_fixed_4. cbn [app].
    rewrite (scanstring_u_pair _ _ _ _ _ _ _ _ s1 s2 tl
               (hex4_fixed s1 B1) Hh (hex4_fixed s2 B2) Hl).
    by rewrite Hj.
Qed.

Lemma scanstring_escaped s tl :
  scalar_str s →
  Json.scanstring (Json.escape s ++ dquote :: tl) = Some (s, tl).
Proof.
  induction 1 as [|c s Hc Hs IH].
  - cbn [Json.escape flat_map app Json.scanstring].
    by change (dquote =? dquote) with true.
  - unfold Json.escape in *. cbn [flat_map]. rewrite <- app_assoc.
    rewrite scanstring_escape_char by done. by rewrite IH.
Qed.

(** *** Dicts *)

Lemma dict_set_fresh k v (d : dict) :
  k ∉ d.*1 → Dict.set k v d = d ++ [(k, v)].
Proof.
  induction d as [|[k' v'] d IH]; intros Hk; [done|].
  cbn [Dict.set]. cbn in Hk. apply not_elem_of_cons in Hk as [Hne Hk].
  destruct (decide (k' = k)) as [->|_]; [done|].
  cbn [app]. by rewrite IH.
Qed.

Lemma dict_of_pairs_nodup (pairs : dict) :
  NoDup pairs.*1 → Dict.of_pairs pairs = pairs.
Proof.
  unfold Dict.of_pairs.
  enough (H : ∀ acc, NoDup (acc ++ pairs).*1 →
                fold_left (λ d kv, Dict.set kv.1 kv.2 d) pairs acc = acc ++ pairs).
  { intros Hn. by apply (H []). }
  induction pairs as [|[k v] pairs IH]; intros acc Hn.
  - by rewrite app_nil_r.
  - cbn [fold_left fst snd]. rewrite dict_set_fresh.
    + rewrite IH; rewrite <- app_assoc; done.
    + rewrite fmap_app in Hn. apply NoDup_app in Hn as (_ & Hn & _).
      intros Hin. apply (Hn k Hin). cbn. left.
Qed.

(** *** Values *)

Lemma dec_of_Z_head z :
  ∃ c s, Num.dec_of_Z z = c :: s ∧
         (Num.is_digit c = true ∨
          (c = ch "-" ∧ ∃ d s', s = d :: s' ∧ Num.is_digit d = true)).
Proof.
  destruct z as [|p|p].
  - exists (ch "0"), []. split; [done|]. by left.
  - unfold Num.dec_of_Z, Num.dec_of_N. cbn [N.to_uint].
    pose proof (pos_to_uint_head p) as Hh.
    destruct (Pos.to_uint p); try done; cbn [Num.chars_of_uint];
      eexists _, _; (split; [reflexivity|]); by left.
  - unfold Num.dec_of_Z, Num.dec_of_N. cbn [N.to_uint].
    pose proof (pos_to_uint_head p) as Hh.
    eexists _, _. split; [reflexivity|]. right. split; [done|].
    destruct (Pos.to_uint p); try done; cbn [Num.chars_of_uint];
      eexists _, _; (split; [reflexivity|]); done.
Qed.

Lemma digit_range c : Num.is_digit c = true → 48 ≤ c ∧ c ≤ 57.
Proof.
  unfold Num.is_digit. intros H. apply andb_prop in H as [H1 H2].
  apply N.leb_le in H1, H2. done.
Qed.

Lemma encode_opens level v : opens (enc level v).
Proof.
  destruct v as [|[|]|z|s|[|x l]|[|kv d]]; try (by repeat split).
  cbn [Json.encode].
  destruct (dec_of_Z_head z) as (c & s & -> & [Hd | [-> _]]); [|by repeat split].
  apply digit_range in Hd as [H1 H2]. cbn [opens]. unfold Json.is_ws.
  repeat split.
  - repeat (apply orb_false_intro); apply N.eqb_neq; lia.
  - change (ch "]") with 93. lia.
  - change (ch "}") with 125. lia.
Qed.

Lemma skip_ws_opens s : opens s → Json.skip_ws s = s.
Proof. destruct s as [|c s]; [done|]. intros [H _]. cbn. by rewrite H. Qed.

Lemma opens_app s tl : opens s → opens (s ++ tl).
Proof. by destruct s. Qed.

Lemma scan_once_number f c s :
  Num.is_digit c = true ∨
  (c = ch "-" ∧ ∃ d s', s = d :: s' ∧ Num.is_digit d = true) →
  Json.scan_once (S f) (c :: s) = Json.match_number (c :: s).
Proof.
  intros [Hd | (-> & d & s' & -> & Hd)]; apply digit_range in Hd as [H1 H2].
  - cbn [Json.scan_once Str.startswith u fmap list_fmap list_ascii_of_string].
    repeat match goal with
    | |- context [N.eqb ?a c] =>
        rewrite (proj2 (N.eqb_neq a c)) by (vm_compute; lia)
    | |- context [N.eqb c ?a] =>
        rewrite (proj2 (N.eqb_neq c a)) by (vm_compute; lia)
    end.
    reflexivity.
  - cbn [Json.scan_once Str.startswith u fmap list_fmap list_ascii_of_string].
    decide_tests.
    repeat match goal with
    | |- context [N.eqb ?a d] =>
        rewrite (proj2 (N.eqb_neq a d)) by (vm_compute; lia)
    end.
    reflexivity.
Qed.

Lemma scan_once_string f s rest :
  scalar_str s →
  Json.scan_once (S f) (Json.encode_str s ++ rest) = Json.Parsed (VStr s) rest.
Proof.
  intros Hs. unfold Json.encode_str. cbn [app Json.scan_once].
  change (dquote =? dquote) with true. cbv iota.
  rewrite <- app_assoc. cbn [app]. by rewrite scanstring_escaped.
Qed.

Lemma join_opens level (l : list value) :
  l ≠ [] → opens (Str.join (u ", ") (map (enc level) l)).
Proof.
  destruct l as [|x [|y l]]; [done| |]; intros _; cbn [map Str.join].
  - apply encode_opens.
  - apply opens_app, encode_opens.
Qed.

Lemma join_cons2 sep (a b : str) l :
  Str.join sep (a :: b :: l) = a ++ sep ++ Str.join sep (b :: l).
Proof. reflexivity. Qed.

Lemma skip_ws_keep c s : Json.is_ws c = false → Json.skip_ws (c :: s) = c :: s.
Proof. intros H. cbn. by rewrite H. Qed.

Lemma skip_ws_space s : Json.skip_ws (ch " " :: s) = Json.skip_ws s.
Proof. reflexivity. Qed.

Lemma parse_items_join level (l : list value) :
  l ≠ [] →
  Forall round_trips l →
  ∀ f rest,
    (length (Str.join (u ", ") (map (enc level) l)) < f)%nat →
    Json.parse_items f (Str.join (u ", ") (map (enc level) l) ++ ch "]" :: rest) =
      Json.Parsed l rest.
Proof.
  intros Hne Hall. induction Hall as [|x l Hx Hl IH]; [done|].
  intros f rest Hlen. destruct f as [|f]; [lia|].
  destruct l as [|y l].
  - cbn [map Str.join] in *. cbn [Json.parse_items].
    rewrite (Hx level f (ch "]" :: rest)); [|by right; left|lia].
    rewrite skip_ws_keep by reflexivity. decide_tests. reflexivity.
  - rewrite !map_cons, join_cons2 in Hlen |- *.
    pose proof (IH ltac:(done) f rest) as IH'. rewrite !map_cons in IH'.
    rewrite !length_app in Hlen. change (length (u ", ")) with 2%nat in Hlen.
    rewrite <- !app_assoc. cbn [Json.parse_items].
    change (u ", " ++ ?t) with (ch "," :: ch " " :: t).
    rewrite (Hx level f); [|by left|lia].
    rewrite skip_ws_keep by reflexivity. decide_tests.
    rewrite skip_ws_space, skip_ws_opens.
    2:{ apply opens_app. rewrite <- map_cons. by apply join_opens. }
    rewrite IH'; [done|lia].
Qed.

Lemma pair_text_eq level k v tl :
  pair_text level (k, v) ++ tl =
    dquote :: Json.escape k ++ dquote :: ch ":" :: ch " " :: enc level v ++ tl.
Proof.
  unfold pair_text, Json.encode_str. cbn [fst snd app].
  by rewrite <- !app_assoc.
Qed.

Lemma pair_text_length level k v :
  (length (enc level v) + 4 ≤ length (pair_text level (k, v)))%nat.
Proof.
  unfold pair_text, Json.encode_str. cbn [fst snd].
  repeat (rewrite ?length_app; cbn [length]).
  change (length (u ": ")) with 2%nat. lia.
Qed.

Lemma pairs_join_opens level (d : dict) :
  d ≠ [] → opens (Str.join (u ", ") (map (pair_text level) d)).
Proof.
  destruct d as [|[k v] [|kv d]]; [done| |]; intros _; cbn [map Str.join];
    by repeat split.
Qed.

Lemma parse_pairs_join level (d : dict) :
  d ≠ [] →
  Forall (λ kv, scalar_str kv.1 ∧ round_trips kv.2) d →
  ∀ f rest,
    (length (Str.join (u ", ") (map (pair_text level) d)) < f)%nat →
    Json.parse_pairs f
      (Str.join (u ", ") (map (pair_text level) d) ++ ch "}" :: rest) =
      Json.Parsed d rest.
Proof.
  intros Hne Hall. induction Hall as [|[k v] d [Hk Hv] Hd IH]; [done|].
  cbn [fst snd] in Hk, Hv.
  intros f rest Hlen. destruct f as [|f]; [lia|].
  pose proof (pair_text_length level k v) as Hp.
  destruct d as [|kv d].
  - cbn [map Str.join] in *. rewrite pair_text_eq.
    cbn [Json.parse_pairs]. change (dquote =? dquote) with true. cbv iota.
    rewrite scanstring_escaped by done.
    rewrite skip_ws_keep by reflexivity. decide_tests.
    rewrite skip_ws_space, skip_ws_opens by apply opens_app, encode_opens.
    rewrite (Hv level f (ch "}" :: rest)); [|by right; right|lia].
    rewrite skip_ws_keep by reflexivity. decide_tests. reflexivity.
  - rewrite !map_cons, join_cons2 in Hlen |- *.
    pose proof (IH ltac:(done) f rest) as IH'. rewrite !map_cons in IH'.
    rewrite !length_app in Hlen. change (length (u ", ")) with 2%nat in Hlen.
    rewrite <- !app_assoc. rewrite pair_text_eq.
    cbn [Json.parse_pairs]. change (dquote =? dquote) with true. cbv iota.
    rewrite scanstring_escaped by done.
    rewrite skip_ws_keep by reflexivity. decide_tests.
    rewrite skip_ws_space, skip_ws_opens by apply opens_app, encode_opens.
    change (u ", " ++ ?t) with (ch "," :: ch " " :: t).
    rewrite (Hv level f); [|by left|lia].
    rewrite skip_ws_keep by reflexivity. decide_tests.
    rewrite skip_ws_space, skip_ws_opens.
    2:{ apply opens_app. rewrite <- map_cons. by apply pairs_join_opens. }
    rewrite IH'; [done|lia].
Qed.

Lemma wf_list l : wf_value (VList l) ↔ Forall wf_value l.
Proof.
  induction l as [|x l IH]; [by split|].
  rewrite Forall_cons. cbn [wf_value] in *. by rewrite IH.
Qed.

Lemma wf_dict d :
  wf_value (VDict d) ↔ NoDup d.*1 ∧ Forall (λ kv, wf_value kv.2) d.
Proof.
  cbn [wf_value]. apply and_iff_compat_l.
  induction d as [|kv d IH]; [by split|].
  rewrite Forall_cons. by rewrite IH.
Qed.

Lemma scalar_list l : scalar_value (VList l) ↔ Forall scalar_value l.
Proof.
  induction l as [|x l IH]; [by split|].
  rewrite Forall_cons. cbn [scalar_value] in *. by rewrite IH.
Qed.

Lemma scalar_dict d :
  scalar_value (VDict d) ↔
  Forall (λ kv, scalar_str kv.1 ∧ scalar_value kv.2) d.
Proof.
  induction d as [|kv d IH]; [by split|].
  rewrite Forall_cons. cbn [scalar_value] in *. by rewrite IH.
Qed.

(** Scanning what the encoder wrote gives the value back. *)
Lemma scan_encode v : wf_value v → scalar_value v → round_trips v.
Proof.
  induction v as [| b | z | s | l IH | d IH] using value_deep_ind;
    intros Hwf Hsc level fuel rest Hc Hlen.
  - destruct fuel as [|f]; [cbn in Hlen; lia|]. reflexivity.
  - destruct fuel as [|f]; [destruct b; cbn in Hlen; lia|]. by destruct b.
  - cbn [Json.encode] in *.
    destruct (dec_of_Z_head z) as (c & s & E & Hh).
    destruct fuel as [|f]; [rewrite E in Hlen; cbn in Hlen; lia|].
    pose proof (match_number_dec z rest Hc) as Hm.
    rewrite E in *. cbn [app] in *. rewrite scan_once_number; [exact Hm|].
    destruct Hh as [Hh|(-> & dd & s' & -> & Hh)]; [by left|].
    right. split; [done|]. by exists dd, (s' ++ rest).
  - cbn [Json.encode] in *.
    destruct fuel as [|f]; [cbn in Hlen; lia|].
    by apply scan_once_string.
  - apply wf_list in Hwf. apply scalar_list in Hsc.
    assert (Hall : Forall round_trips l).
    { rewrite Forall_forall in *. intros x Hx. apply IH; auto. }
    destruct l as [|x l].
    { destruct fuel as [|f]; [cbn in Hlen; lia|]. reflexivity. }
    set (l' := x :: l) in *.
    assert (E : enc level (VList l') =
                ch "[" :: Str.join (u ", ") (map (enc (S level)) l') ++ [ch "]"])
      by reflexivity.
    rewrite E in *. cbn [length] in Hlen. rewrite length_app in Hlen.
    cbn [length] in Hlen.
    destruct fuel as [|f]; [lia|].
    cbn [app Json.scan_once]. decide_tests. rewrite <- app_assoc. cbn [app].
    pose proof (join_opens (S level) l' ltac:(done)) as Ho.
    rewrite skip_ws_opens by by apply opens_app.
    pose proof (parse_items_join (S level) l' ltac:(done) Hall f rest
                  ltac:(lia)) as Hp.
    destruct (Str.join (u ", ") (map (enc (S level)) l')) as [|c1 s1] eqn:Ej;
      [done|].
    destruct Ho as (_ & Hn & _). cbn [app] in *.
    apply N.eqb_neq in Hn. rewrite Hn. by rewrite Hp.
  - apply wf_dict in Hwf as [Hnd Hwf]. apply scalar_dict in Hsc.
    assert (Hall : Forall (λ kv, scalar_str kv.1 ∧ round_trips kv.2) d).
    { rewrite Forall_forall in *. intros kv Hkv.
      split; [by apply Hsc|]. apply IH; auto. by apply Hsc. }
    destruct d as [|kv d].
    { destruct fuel as [|f]; [cbn in Hlen; lia|]. reflexivity. }
    set (d' := kv :: d) in *.
    assert (E : enc level (VDict d') =
                ch "{" :: Str.join (u ", ") (map (pair_text (S level)) d') ++
                [ch "}"]) by reflexivity.
    rewrite E in *. cbn [length] in Hlen. rewrite length_app in Hlen.
    cbn [length] in Hlen.
    destruct fuel as [|f]; [lia|].
    cbn [app Json.scan_once]. decide_tests. rewrite <- app_assoc. cbn [app].
    pose proof (parse_pairs_join (S level) d' ltac:(done) Hall f rest
                  ltac:(lia)) as Hp.
    pose proof (pairs_join_opens (S level) d' ltac:(done)) as Ho.
    rewrite skip_ws_opens by by apply opens_app.
    destruct (Str.join (u ", ") (map (pair_text (S level)) d')) as [|c1 s1] eqn:Ej;
      [done|].
    destruct Ho as (_ & _ & Hn). cbn [app] in *.
    apply N.eqb_neq in Hn. rewrite Hn. rewrite Hp.
    by rewrite dict_of_pairs_nodup.
Qed.

(** [json.loads(json.dumps(v)) == v] *)
Lemma loads_dumps v :
  wf_value v → scalar_value v → Json.loads (Json.dumps v) = Json.Decoded v.
Proof.
  intros Hwf Hsc. unfold Json.loads, Json.dumps.
  pose proof (encode_opens 0 v) as Ho.
  assert (Hb : Str.startswith [0xFEFF] (enc 0 v) = false).
  { destruct v as [|[|]|z|s|[|x l]|[|kv d]]; try reflexivity.
    cbn [Json.encode]. destruct (dec_of_Z_head z) as (c & s & -> & [Hd|[-> _]]);
      [|reflexivity].
    apply digit_range in Hd. cbn [Str.startswith].
    rewrite (proj2 (N.eqb_neq _ _)); [done|lia]. }
  rewrite Hb. rewrite skip_ws_opens by done.
  pose proof (scan_encode v Hwf Hsc 0%nat (S (2 * length (enc 0 v))) [] I
                ltac:(lia)) as Hs.
  rewrite app_nil_r in Hs. by rewrite Hs.
Qed.

(** ** The monad and the executor *)

Ltac run :=
  unfold mbind, mret, M_bind, M_ret, raise, catch in *; cbn [fst snd] in *.

(** Closes an executor case that leaves the store alone and adds [evs] to
    the trace. *)
Ltac same_store evs :=
  eexists _, _, evs; unfold emit, with_store; cbn [store trace];
  rewrite ?app_nil_r, <- ?app_assoc;
  split; [reflexivity|];
  split; [by repeat constructor|];
  split; [intros _; split; [done|by repeat constructor] | by left].

(** [execute_action] always returns one text; it never uses the approval
    commands of the store; it changes the store only by writing one block
    list key, and only for [ban_suspicious_ip]. *)
Lemma execute_action_spec env name arguments w :
  ∃ t st' evs,
    execute_action env name arguments w =
      (Ok [text_content t], World st' (trace w ++ evs)) ∧
    Forall (λ e, is_store_event e = false) evs ∧
    (is_str name (u "ban_suspicious_ip") = false →
       st' = store w ∧ Forall (λ e, is_blocklist_set e = false) evs) ∧
    (st' = store w ∨
     ∃ ip seconds,
       st' = <[u "blacklist:" ++ ip := Entry (u "banned") seconds]> (store w)).
Proof.
  destruct w as [st tr]. cbn [store trace].
  unfold execute_action, execute_action_body.
  destruct (is_str name (u "check_system_health")) eqn:E1.
  { unfold get_system_health; run.
    destruct (system_health env); same_store [HealthProbe]. }
  destruct (is_str name (u "get_security_events")) eqn:E2.
  { unfold py_get, get_recent_suspicious_activity; run.
    destruct arguments;
      first [ same_store (@nil event)
            | same_store [ActivityRead (Dict.get_or (u "limit") (VInt 10) d)] ]. }
  destruct (is_str name (u "analyze_attack_patterns")) eqn:E3.
  { unfold py_get, get_recent_suspicious_activity, analyze_security_events; run.
    destruct arguments; try same_store (@nil event).
    destruct (suspicious_activity env _) eqn:Ea.
    - same_store [ActivityRead (Dict.get_or (u "limit") (VInt 10) d)].
    - same_store [ActivityRead (Dict.get_or (u "limit") (VInt 10) d);
                  Analysis (v :: l)]. }
  destruct (is_str name (u "ban_suspicious_ip")) eqn:E4.
  2:{ run. same_store (@nil event). }
  unfold py_get, ban_ip, blocklist_set; run.
  destruct arguments; try same_store (@nil event).
  unfold py_mul; run.
  destruct (Dict.get_or (u "hours") (VInt 1) d) eqn:Eh;
    try same_store (@nil event);
    repeat case_match; simplify_eq;
    (eexists _, _, [_]; unfold emit, with_store; cbn [store trace];
     split; [reflexivity|]; split; [by repeat constructor|];
     split; [done|]; eauto).
Qed.

(** An exception inside the [try] block comes back as a system error. *)
Lemma execute_action_failure env name arguments w e w' :
  execute_action_body env name arguments w = (Raise e, w') →
  execute_action env name arguments w =
    (Ok [text_content (u "System Error: " ++ exn_str (printable env) e)], w').
Proof. intros H. unfold execute_action, catch. by rewrite H. Qed.

(** No approval key is a block list key. *)
Lemma approval_key_not_blocklist token ip :
  APPROVAL_PREFIX ++ token ≠ u "blacklist:" ++ ip.
Proof. intros H. discriminate H. Qed.

(** [execute_action] leaves every approval key as it was. *)
Lemma execute_action_keeps_approvals env name arguments w token :
  store (execute_action env name arguments w).2 !! (APPROVAL_PREFIX ++ token) =
  store w !! (APPROVAL_PREFIX ++ token).
Proof.
  destruct (execute_action_spec env name arguments w)
    as (t & st' & evs & -> & _ & _ & [-> | (ip & seconds & ->)]);
    cbn [snd store]; [done|].
  apply lookup_insert_ne. intros H. symmetry in H.
  by apply approval_key_not_blocklist in H.
Qed.

Lemma not_dangerous name :
  name ≠ u "ban_suspicious_ip" → bool_decide (name ∈ DANGEROUS_TOOLS) = false.
Proof.
  intros H. apply bool_decide_eq_false_2.
  unfold DANGEROUS_TOOLS. by rewrite list_elem_of_singleton.
Qed.

(** ** Rejected and bypassed requests *)



(** C7: a name that is neither dangerous nor one of the two interlock
    operations goes straight to [execute_action]; the reply is the
    executor's, the store is unchanged, and the trace grows by service
    calls only: no token is stored, no store command is issued. *)
Theorem safe_tool_bypasses_interlock env name arguments w :
  name ∉ DANGEROUS_TOOLS →
  name ≠ u "approve_action" →
  name ≠ u "list_pending_actions" →
  call_tool env name arguments w =
    execute_action env (VStr name) (VDict arguments) w ∧
  ∃ t evs,
    call_tool env name arguments w =
      (Ok [text_content t], World (store w) (trace w ++ evs)) ∧
    Forall (λ e, is_store_event e = false) evs ∧
    Forall (λ e, is_blocklist_set e = false) evs.
Proof.
  intros Hd Ha Hl.
  assert (Hb : name ≠ u "ban_suspicious_ip").
  { intros ->. apply Hd. unfold DANGEROUS_TOOLS. by apply list_elem_of_singleton. }
  assert (Hcall : call_tool env name arguments w =
                  execute_action env (VStr name) (VDict arguments) w).
  { unfold call_tool.
    rewrite (bool_decide_eq_false_2 (name = u "ban_suspicious_ip")) by done.
    cbn [andb]. rewrite not_dangerous by done.
    by rewrite !bool_decide_eq_false_2 by done. }
  split; [done|]. rewrite Hcall.
  destruct (execute_action_spec env (VStr name) (VDict arguments) w)
    as (t & st' & evs & -> & Hq & Hs & _).
  destruct Hs as [-> Hn].
  { unfold is_str. by apply bool_decide_eq_false_2. }
  by exists t, evs.
Qed.

Lemma safe_tool_bypasses_interlock_witness :
  call_tool Sample.env (u "check_system_health") [] Sample.pending_world =
    execute_action Sample.env (VStr (u "check_system_health")) (VDict [])
      Sample.pending_world ∧
  ∃ t evs,
    call_tool Sample.env (u "check_system_health") [] Sample.pending_world =
      (Ok [text_content t],
       World (store Sample.pending_world) (trace Sample.pending_world ++ evs)) ∧
    Forall (λ e, is_store_event e = false) evs ∧
    Forall (λ e, is_blocklist_set e = false) evs.
Proof.
  apply (safe_tool_bypasses_interlock Sample.env (u "check_system_health") []
           Sample.pending_world).
  - unfold DANGEROUS_TOOLS. rewrite list_elem_of_singleton. discriminate.
  - discriminate.
  - discriminate.
Defined.

(** ** Validation before the interlock *)

(** The validation branch: when [ipaddress.ip_address] raises [ValueError]
    on the [ip] argument, the reply is the validation error quoting the
    value, and the world is unchanged: no store command, hence no pending
    entry. *)
Lemma invalid_ip_rejected env arguments w :
  Ipaddress.ip_address (printable env) (Dict.get (u "ip") arguments) = None →
  call_tool env (u "ban_suspicious_ip") arguments w =
    (Ok [text_content
           (u "Error: '" ++ to_str env (Dict.get (u "ip") arguments) ++
            u "' is not a valid IP address.")], w) ∧
  pending_keys (call_tool env (u "ban_suspicious_ip") arguments w).2 =
    pending_keys w.
Proof.
  intros H.
  assert (E : call_tool env (u "ban_suspicious_ip") arguments w =
              (Ok [text_content
                     (invalid_ip_message env (Dict.get (u "ip") arguments))], w)).
  { unfold call_tool, validate_ip. rewrite H. reflexivity. }
  rewrite E. done.
Qed.

Lemma invalid_ip_rejected_witness :
  call_tool Sample.env (u "ban_suspicious_ip")
    [(u "ip", VStr (u "not-an-ip"))] Sample.empty_world =
    (Ok [text_content (u "Error: 'not-an-ip' is not a valid IP address.")],
     Sample.empty_world) ∧
  pending_keys
    (call_tool Sample.env (u "ban_suspicious_ip")
       [(u "ip", VStr (u "not-an-ip"))] Sample.empty_world).2 =
    pending_keys Sample.empty_world.
Proof.
  apply (invalid_ip_rejected Sample.env [(u "ip", VStr (u "not-an-ip"))]
           Sample.empty_world).
  vm_compute. reflexivity.
Defined.

(** What a submit of a ban does once [validate_ip] has accepted its [ip]. *)
Lemma accepted_ip_is_stored env ip w :
  validate_ip env ip = true →
  call_tool env (u "ban_suspicious_ip") [(u "ip", ip)] w =
    (Ok [text_content
           (interlock_message (u "ban_suspicious_ip") [(u "ip", ip)]
              (token_hex env))],
     World
       (<[APPROVAL_PREFIX ++ token_hex env :=
            Entry (Json.dumps
                     (action_data env (u "ban_suspicious_ip") [(u "ip", ip)]))
              APPROVAL_TTL]> (store w))
       (trace w ++
        [StoreSetex (APPROVAL_PREFIX ++ token_hex env) APPROVAL_TTL
           (Json.dumps
              (action_data env (u "ban_suspicious_ip") [(u "ip", ip)]))])).
Proof.
  intros Hv. unfold call_tool.
  change (Dict.get (u "ip") [(u "ip", ip)]) with ip. rewrite Hv.
  reflexivity.
Qed.

(** C5 fails on the code: [validate_ip] is [ipaddress.ip_address] not
    raising, and that function takes more than IPv4 and IPv6 literals: an
    address followed by a percent sign and free text, an integer, a
    boolean.  For each of these the call does not answer with the
    validation error: it answers with the interlock notice and stores a
    pending action.  Approving the one for the text bans it as it is. *)
Theorem non_literal_ip_accepted :
  (∀ env w,
     Forall
       (λ ip,
          validate_ip env ip = true ∧
          call_tool env (u "ban_suspicious_ip") [(u "ip", ip)] w =
            (Ok [text_content
                   (interlock_message (u "ban_suspicious_ip") [(u "ip", ip)]
                      (token_hex env))],
             World
               (<[APPROVAL_PREFIX ++ token_hex env :=
                    Entry (Json.dumps
                             (action_data env (u "ban_suspicious_ip")
                                [(u "ip", ip)])) APPROVAL_TTL]> (store w))
               (trace w ++
                [StoreSetex (APPROVAL_PREFIX ++ token_hex env) APPROVAL_TTL
                   (Json.dumps
                      (action_data env (u "ban_suspicious_ip")
                         [(u "ip", ip)]))])))
       [VStr (u "fe80::1%eth0 and more"); VInt 5; VBool true]) ∧
  let submitted :=
    (call_tool Sample.env (u "ban_suspicious_ip")
       [(u "ip", VStr (u "fe80::1%eth0 and more"))] Sample.empty_world).2 in
  let approved :=
    call_tool Sample.env (u "approve_action") Sample.approve_arguments
      submitted in
  pending_keys submitted = [APPROVAL_PREFIX ++ u "9f3a01bc"] ∧
  approved.1 =
    Ok [text_content
          (u "IP fe80::1%eth0 and more has been banned for 3600 seconds.")] ∧
  store approved.2 !! u "blacklist:fe80::1%eth0 and more" =
    Some (Entry (u "banned") 3600).
Proof.
  split.
  - intros env w.
    assert (H1 : validate_ip env (VStr (u "fe80::1%eth0 and more")) = true)
      by (vm_compute; reflexivity).
    assert (H2 : validate_ip env (VInt 5) = true) by reflexivity.
    assert (H3 : validate_ip env (VBool true) = true) by reflexivity.
    rewrite !Forall_cons.
    repeat split; try assumption; try (by apply accepted_ip_is_stored).
    constructor.
  - vm_compute. repeat split; reflexivity.
Qed.

(** C10: without an [ip] key the argument is [None]; [validate_ip] answers
    [False] on it instead of raising, as it does on every list and dict, so
    the call returns the validation error and leaves the world unchanged. *)
Theorem missing_ip_rejected env arguments w :
  Dict.lookup (u "ip") arguments = None →
  validate_ip env (Dict.get (u "ip") arguments) = false ∧
  call_tool env (u "ban_suspicious_ip") arguments w =
    (Ok [text_content (u "Error: 'None' is not a valid IP address.")], w) ∧
  (∀ l, validate_ip env (VList l) = false) ∧
  (∀ d, validate_ip env (VDict d) = false).
Proof.
  intros H. unfold call_tool, Dict.get, Dict.get_or. rewrite H.
  repeat split; intros; by apply validate_ip_container.
Qed.

Lemma missing_ip_rejected_witness :
  validate_ip Sample.env (Dict.get (u "ip") [(u "hours", VInt 2)]) = false ∧
  call_tool Sample.env (u "ban_suspicious_ip") [(u "hours", VInt 2)]
    Sample.pending_world =
    (Ok [text_content (u "Error: 'None' is not a valid IP address.")],
     Sample.pending_world) ∧
  (∀ l, validate_ip Sample.env (VList l) = false) ∧
  (∀ d, validate_ip Sample.env (VDict d) = false).
Proof.
  apply (missing_ip_rejected Sample.env [(u "hours", VInt 2)]
           Sample.pending_world).
  reflexivity.
Defined.

(** ** Submitting a dangerous action *)

(** Text written in ASCII is Unicode text. *)
Lemma scalar_ascii s : scalar_str (u s).
Proof.
  unfold scalar_str, u. apply Forall_fmap, Forall_forall. intros a _.
  left. unfold ch. cbn. pose proof (N_ascii_bounded a). lia.
Qed.

(** The branch taken for a dangerous name with a validated [ip]. *)
Lemma call_tool_dangerous env name arguments w :
  name ∈ DANGEROUS_TOOLS →
  validate_ip env (Dict.get (u "ip") arguments) = true →
  call_tool env name arguments w =
    (Ok [text_content (interlock_message name arguments (token_hex env))],
     World (<[APPROVAL_PREFIX ++ token_hex env :=
                Entry (Json.dumps (action_data env name arguments)) APPROVAL_TTL]>
              (store w))
           (trace w ++
            [StoreSetex (APPROVAL_PREFIX ++ token_hex env) APPROVAL_TTL
               (Json.dumps (action_data env name arguments))])).
Proof.
  intros Hd Hv. unfold call_tool. rewrite Hv, andb_false_r.
  rewrite bool_decide_eq_true_2 by done. reflexivity.
Qed.

(** C2: for a dangerous name whose [ip] passes validation, the call writes
    the serialized action under [prefix + token] with the approval time to
    live and does nothing else: the trace grows by that one [SETEX], every
    other key of the store, the block list included, is as before. *)
Theorem dangerous_submit_only_stores env name arguments w :
  name ∈ DANGEROUS_TOOLS →
  validate_ip env (Dict.get (u "ip") arguments) = true →
  let key := APPROVAL_PREFIX ++ token_hex env in
  let data := Json.dumps (action_data env name arguments) in
  call_tool env name arguments w =
    (Ok [text_content (interlock_message name arguments (token_hex env))],
     World (<[key := Entry data APPROVAL_TTL]> (store w))
           (trace w ++ [StoreSetex key APPROVAL_TTL data])) ∧
  (∀ k, k ≠ key →
     store (call_tool env name arguments w).2 !! k = store w !! k) ∧
  (∀ ip, store (call_tool env name arguments w).2 !! (u "blacklist:" ++ ip) =
         store w !! (u "blacklist:" ++ ip)).
Proof.
  intros Hd Hv key data.
  rewrite (call_tool_dangerous env name arguments w Hd Hv).
  cbn [snd store]. split; [done|]. split.
  - intros k Hk. by apply lookup_insert_ne.
  - intros ip. apply lookup_insert_ne. apply approval_key_not_blocklist.
Qed.

Lemma dangerous_submit_only_stores_witness :
  trace (call_tool Sample.env (u "ban_suspicious_ip") Sample.ban_arguments
           Sample.empty_world).2 =
    [StoreSetex (APPROVAL_PREFIX ++ u "9f3a01bc") 3600
       (Json.dumps
          (action_data Sample.env (u "ban_suspicious_ip") Sample.ban_arguments))] ∧
  store (call_tool Sample.env (u "ban_suspicious_ip") Sample.ban_arguments
           Sample.empty_world).2 !! (u "blacklist:1.2.3.4") = None.
Proof.
  destruct (dangerous_submit_only_stores Sample.env (u "ban_suspicious_ip")
              Sample.ban_arguments Sample.empty_world) as (E & _ & Hb).
  - unfold DANGEROUS_TOOLS. by apply list_elem_of_singleton.
  - vm_compute. reflexivity.
  - split.
    + rewrite E. reflexivity.
    + apply (Hb (u "1.2.3.4")).
Defined.



(** ** Approving *)

Lemma call_tool_approve env arguments w :
  call_tool env (u "approve_action") arguments w = approve env arguments w.
Proof. reflexivity. Qed.

Lemma approve_absent env arguments w :
  store w !! approval_key env arguments = None →
  approve env arguments w =
    (Ok [text_content invalid_token_message],
     emit (StoreGet (approval_key env arguments)) w).
Proof.
  intros H. unfold approve, Redis.get; run.
  fold (approval_key env arguments). by rewrite H.
Qed.

(** With the key present and its text decodable, [approve] deletes the key
    and then runs the stored action. *)
Lemma approve_present env arguments w e action :
  store w !! approval_key env arguments = Some e →
  payload e ≠ [] →
  Json.loads (payload e) = Json.Decoded action →
  approve env arguments w =
    (action_name ← py_getitem action (u "name");
     action_arguments ← py_getitem action (u "arguments");
     execute_action env action_name action_arguments)
      (consumed_world (approval_key env arguments) w).
Proof.
  intros H Hne Hl. unfold approve, Redis.get, Redis.delete, json_loads; run.
  fold (approval_key env arguments). rewrite H.
  cbn [fmap option_fmap option_map].
  destruct (payload e) eqn:Ep; [done|]. rewrite Hl.
  reflexivity.
Qed.

Lemma approve_consumes env arguments w e action :
  store w !! approval_key env arguments = Some e →
  payload e ≠ [] →
  Json.loads (payload e) = Json.Decoded action →
  store (approve env arguments w).2 !! approval_key env arguments = None.
Proof.
  intros H Hne Hl. rewrite (approve_present _ _ _ _ _ H Hne Hl).
  set (w1 := consumed_world _ w).
  assert (Hw1 : store w1 !! approval_key env arguments = None).
  { unfold w1, consumed_world, emit, with_store. cbn [store].
    apply lookup_delete_eq. }
  unfold py_getitem; run.
  repeat case_match; simplify_eq; cbn [snd]; try done;
    unfold approval_key in *; by rewrite execute_action_keeps_approvals.
Qed.

Lemma elapse_expires seconds w key e :
  store w !! key = Some e → (ttl e ≤ seconds)%Z →
  store (Redis.elapse seconds w) !! key = None.
Proof.
  intros H Ht. unfold Redis.elapse, with_store. cbn [store].
  rewrite lookup_fmap, map_lookup_filter, H. cbn.
  rewrite option_guard_False; [done|]. cbn. lia.
Qed.

Lemma token_gone_absent env arguments w :
  token_gone env arguments w → store w !! approval_key env arguments = None.
Proof.
  destruct 1 as [w H | w e seconds H Ht | w e action H Hne Hl].
  - done.
  - by eapply elapse_expires.
  - rewrite call_tool_approve. by eapply approve_consumes.
Qed.

(** C3: whichever way the key of the token came to be missing from the
    store (never issued, expired, consumed by an earlier approval), the reply
    is the one fixed message; the call only reads the store, and repeating
    it gives the same reply again. *)
Theorem gone_token_refused env arguments w :
  token_gone env arguments w →
  let key := approval_key env arguments in
  let again := (call_tool env (u "approve_action") arguments w).2 in
  call_tool env (u "approve_action") arguments w =
    (Ok [text_content invalid_token_message], emit (StoreGet key) w) ∧
  store again = store w ∧
  (call_tool env (u "approve_action") arguments again).1 =
    Ok [text_content invalid_token_message].
Proof.
  intros Hgone key again. apply token_gone_absent in Hgone.
  assert (E : call_tool env (u "approve_action") arguments w =
              (Ok [text_content invalid_token_message], emit (StoreGet key) w)).
  { rewrite call_tool_approve. by apply approve_absent. }
  subst again. rewrite E. cbn [snd]. repeat split.
  rewrite call_tool_approve, approve_absent; done.
Qed.

Lemma gone_token_refused_witness :
  let w :=
    (call_tool Sample.env (u "approve_action") Sample.approve_arguments
       Sample.pending_world).2 in
  call_tool Sample.env (u "approve_action") Sample.approve_arguments w =
    (Ok [text_content invalid_token_message],
     emit (StoreGet (approval_key Sample.env Sample.approve_arguments)) w) ∧
  store (call_tool Sample.env (u "approve_action") Sample.approve_arguments w).2 =
    store w ∧
  (call_tool Sample.env (u "approve_action") Sample.approve_arguments
     (call_tool Sample.env (u "approve_action") Sample.approve_arguments w).2).1 =
    Ok [text_content invalid_token_message].
Proof.
  apply (gone_token_refused Sample.env Sample.approve_arguments).
  apply (already_consumed Sample.env Sample.approve_arguments
           Sample.pending_world
           (Entry (Json.dumps (action_data Sample.env (u "ban_suspicious_ip")
                                 Sample.ban_arguments)) 3600)
           (action_data Sample.env (u "ban_suspicious_ip") Sample.ban_arguments)).
  - vm_compute. reflexivity.
  - vm_compute. discriminate.
  - vm_compute. reflexivity.
Defined.

(** C4: once [approve] has found and decoded the pending action, the reply
    is whatever [execute_action] returns on the world without the key; an
    exception inside the executor comes back as a system error text, a
    fault of the block list as the ban error text; in every case the key
    stays deleted and the next approval of the token is refused. *)
Theorem failed_execution_stays_consumed env arguments w e d name args :
  store w !! approval_key env arguments = Some e →
  payload e ≠ [] →
  Json.loads (payload e) = Json.Decoded (VDict d) →
  Dict.lookup (u "name") d = Some name →
  Dict.lookup (u "arguments") d = Some args →
  let key := approval_key env arguments in
  let w1 := consumed_world key w in
  let after := (call_tool env (u "approve_action") arguments w).2 in
  call_tool env (u "approve_action") arguments w =
    execute_action env name args w1 ∧
  (∀ x w2,
     execute_action_body env name args w1 = (Raise x, w2) →
     call_tool env (u "approve_action") arguments w =
       (Ok [text_content (u "System Error: " ++ exn_str (printable env) x)], w2)) ∧
  (∀ x w2,
     is_str name (u "ban_suspicious_ip") = true →
     (ip ← py_get args (u "ip") VNone;
      hours ← py_get args (u "hours") (VInt 1);
      duration ← py_mul hours 3600;
      blocklist_set env (u "blacklist:" ++ to_str env ip) duration) w1 =
       (Raise x, w2) →
     ∃ t, call_tool env (u "approve_action") arguments w =
            (Ok [text_content t], w2) ∧
          (t = u "System Error: " ++ exn_str (printable env) x ∨
           t = u "Error banning IP: " ++ exn_str (printable env) x)) ∧
  store after !! key = None ∧
  (call_tool env (u "approve_action") arguments after).1 =
    Ok [text_content invalid_token_message].
Proof.
  intros H Hne Hl Hname Hargs key w1 after.
  assert (E : call_tool env (u "approve_action") arguments w =
              execute_action env name args w1).
  { rewrite call_tool_approve, (approve_present _ _ _ _ _ H Hne Hl).
    unfold py_getitem; run. by rewrite Hname, Hargs. }
  assert (Hgone : store after !! key = None).
  { subst after. rewrite call_tool_approve. by eapply approve_consumes. }
  split; [done|]. split; [|split; [|split; [done|]]].
  - intros x w2 Hx. rewrite E. by apply execute_action_failure.
  - intros x w2 Hban Hx. rewrite E.
    unfold execute_action, execute_action_body.
    destruct name as [| | |s| |]; try discriminate Hban.
    cbn [is_str] in Hban. apply bool_decide_eq_true_1 in Hban as ->.
    change (is_str (VStr (u "ban_suspicious_ip")) (u "check_system_health"))
      with false.
    change (is_str (VStr (u "ban_suspicious_ip")) (u "get_security_events"))
      with false.
    change (is_str (VStr (u "ban_suspicious_ip")) (u "analyze_attack_patterns"))
      with false.
    change (is_str (VStr (u "ban_suspicious_ip")) (u "ban_suspicious_ip"))
      with true.
    cbv iota. unfold ban_ip. run.
    destruct (py_get args (u "ip") VNone w1) as [[ip|x1] w3] eqn:E1.
    2:{ simplify_eq. eauto. }
    destruct (py_get args (u "hours") (VInt 1) w3) as [[hours|x2] w4] eqn:E2.
    2:{ simplify_eq. eauto. }
    destruct (py_mul hours 3600 w4) as [[duration|x3] w5] eqn:E3.
    2:{ simplify_eq. eauto. }
    rewrite Hx. eauto.
  - rewrite call_tool_approve, approve_absent; done.
Qed.

Lemma failed_execution_stays_consumed_witness :
  let key := approval_key Sample.env_down Sample.approve_arguments in
  let after :=
    (call_tool Sample.env_down (u "approve_action") Sample.approve_arguments
       Sample.pending_world).2 in
  (call_tool Sample.env_down (u "approve_action") Sample.approve_arguments
     Sample.pending_world).1 =
    Ok [text_content (u "Error banning IP: Connection refused")] ∧
  store after !! key = None ∧
  (call_tool Sample.env_down (u "approve_action") Sample.approve_arguments
     after).1 = Ok [text_content invalid_token_message].
Proof.
  destruct (failed_execution_stays_consumed Sample.env_down
              Sample.approve_arguments Sample.pending_world
              (Entry (Json.dumps (action_data Sample.env (u "ban_suspicious_ip")
                                    Sample.ban_arguments)) 3600)
              [(u "name", VStr (u "ban_suspicious_ip"));
               (u "arguments", VDict Sample.ban_arguments);
               (u "timestamp", VStr (uuid4 Sample.env))]
              (VStr (u "ban_suspicious_ip")) (VDict Sample.ban_arguments))
    as (E & _ & _ & Hgone & Hagain).
  - vm_compute. reflexivity.
  - vm_compute. discriminate.
  - vm_compute. reflexivity.
  - reflexivity.
  - reflexivity.
  - split; [|split; [exact Hgone | exact Hagain]].
    rewrite E. vm_compute. reflexivity.
Defined.

(** ** Listing *)

Lemma pending_keys_spec w k :
  k ∈ pending_keys w ↔
  Str.startswith APPROVAL_PREFIX k = true ∧ is_Some (store w !! k).
Proof.
  unfold pending_keys. rewrite list_elem_of_filter, list_elem_of_fmap.
  split.
  - intros [Hp ([k' e] & -> & Hin)]. split; [done|].
    apply elem_of_map_to_list in Hin. eauto.
  - intros [Hp [e He]]. split; [done|]. exists (k, e). split; [done|].
    by apply elem_of_map_to_list.
Qed.

Lemma collect_actions_ok w keys vals :
  Forall2 (decodes_to w) keys vals →
  ∀ acc tr,
    collect_actions keys acc (World (store w) tr) =
      (Ok (fold_left
             (λ a kv, Dict.set (Str.replace APPROVAL_PREFIX [] kv.1) kv.2 a)
             (zip keys vals) acc),
       World (store w) (tr ++ (StoreGet <$> keys))).
Proof.
  induction 1 as [|k v keys vals (e & He & Hl) _ IH]; intros acc tr.
  - cbn. run. by rewrite app_nil_r.
  - cbn [collect_actions]. unfold Redis.get, json_loads; run.
    cbn [store] in *. rewrite He. cbn [fmap option_fmap option_map]. rewrite Hl.
    unfold emit. cbn [store trace]. rewrite IH. cbn [zip zip_with fold_left fmap list_fmap].
    by rewrite <- app_assoc.
Qed.

Lemma collect_actions_fatal keys k :
  k ∈ keys →
  ∀ acc w,
    (store w !! k = None ∨
     ∃ e, store w !! k = Some e ∧ Json.loads (payload e) = Json.DecodeError) →
    ∀ actions, (collect_actions keys acc w).1 ≠ Ok actions.
Proof.
  induction 1 as [k keys | k k' keys Hin IH]; intros acc w Hbad actions.
  - cbn [collect_actions]. unfold Redis.get, json_loads; run.
    destruct Hbad as [-> | (e & -> & Hl)]; cbn; [done|]. by rewrite Hl.
  - cbn [collect_actions]. unfold Redis.get, json_loads; run.
    destruct (store w !! k') as [e'|] eqn:E'; cbn; [|done].
    destruct (Json.loads (payload e')); try done.
    apply IH. by unfold emit.
Qed.

Lemma call_tool_list_pending env arguments w :
  call_tool env (u "list_pending_actions") arguments w = list_pending w.
Proof. reflexivity. Qed.

(** C9, as the code has it: the listing enumerates exactly the keys under the
    prefix; with none it says so; when every stored text decodes it returns
    the decoded entries, token by token; one entry that does not decode, or
    a key that is gone when the loop reads it, makes the call raise, so no
    entry is returned at all. *)
Theorem listing_all_or_nothing env arguments w :
  let keys := pending_keys w in
  (∀ k, k ∈ keys ↔
        Str.startswith APPROVAL_PREFIX k = true ∧ is_Some (store w !! k)) ∧
  (keys = [] →
   call_tool env (u "list_pending_actions") arguments w =
     (Ok [text_content no_pending_message], emit (StoreKeys APPROVAL_PREFIX) w)) ∧
  (∀ actions,
     keys ≠ [] →
     Forall2 (decodes_to w) keys actions →
     call_tool env (u "list_pending_actions") arguments w =
       (Ok [text_content (Json.dumps_indent 2 (VDict (listing keys actions)))],
        World (store w)
              (trace w ++ StoreKeys APPROVAL_PREFIX :: (StoreGet <$> keys)))) ∧
  (∀ k e,
     k ∈ keys →
     store w !! k = Some e →
     Json.loads (payload e) = Json.DecodeError →
     ∀ reply,
       (call_tool env (u "list_pending_actions") arguments w).1 ≠ Ok reply) ∧
  (∀ enumerated k acc,
     k ∈ enumerated →
     store w !! k = None →
     ∀ actions, (collect_actions enumerated acc w).1 ≠ Ok actions).
Proof.
  intros keys. split; [apply pending_keys_spec|].
  rewrite call_tool_list_pending. unfold list_pending, Redis.keys; run.
  fold (pending_keys w). fold keys.
  split; [by intros ->|]. split; [|split].
  - intros actions Hne Hdec. destruct keys as [|k keys'] eqn:Ek; [done|].
    rewrite <- Ek in *.
    unfold emit. pose proof (collect_actions_ok w keys actions Hdec [] (trace w ++ [StoreKeys APPROVAL_PREFIX])) as Hc.
    rewrite Hc. unfold listing. by rewrite <- app_assoc.
  - intros k e Hin He Hl reply.
    destruct keys as [|k0 keys'] eqn:Ek; [by apply not_elem_of_nil in Hin|].
    rewrite <- Ek in *.
    destruct (collect_actions keys [] (emit (StoreKeys APPROVAL_PREFIX) w))
      as [[actions|x] w'] eqn:Ec; [|done].
    exfalso.
    eapply (collect_actions_fatal keys k Hin [] (emit (StoreKeys APPROVAL_PREFIX) w)).
    + right. exists e. split; [by unfold emit|done].
    + by rewrite Ec.
  - intros enumerated k acc Hin Hnone actions.
    apply (collect_actions_fatal enumerated k Hin). by left.
Qed.

Lemma pending_keys_sample :
  pending_keys Sample.pending_world = [APPROVAL_PREFIX ++ u "9f3a01bc"].
Proof. vm_compute. reflexivity. Qed.

Lemma pending_world_decodes w :
  store w !! (APPROVAL_PREFIX ++ u "9f3a01bc") =
    Some (Entry (Json.dumps (action_data Sample.env (u "ban_suspicious_ip")
                               Sample.ban_arguments)) 3600) →
  decodes_to w (APPROVAL_PREFIX ++ u "9f3a01bc")
    (action_data Sample.env (u "ban_suspicious_ip") Sample.ban_arguments).
Proof.
  intros H. eexists. split; [exact H|]. vm_compute. reflexivity.
Qed.

Lemma listing_all_or_nothing_witness :
  call_tool Sample.env (u "list_pending_actions") [] Sample.pending_world =
    (Ok [text_content
           (Json.dumps_indent 2
              (VDict (listing (pending_keys Sample.pending_world)
                        [action_data Sample.env (u "ban_suspicious_ip")
                           Sample.ban_arguments])))],
     World (store Sample.pending_world)
       (trace Sample.pending_world ++
        StoreKeys APPROVAL_PREFIX :: (StoreGet <$> pending_keys Sample.pending_world))).
Proof.
  destruct (listing_all_or_nothing Sample.env [] Sample.pending_world)
    as (_ & _ & Hall & _).
  apply (Hall [action_data Sample.env (u "ban_suspicious_ip") Sample.ban_arguments]).
  - rewrite pending_keys_sample. discriminate.
  - rewrite pending_keys_sample.
    constructor; [|constructor].
    apply pending_world_decodes. vm_compute. reflexivity.
Defined.

(** C9 as stated fails: with one decodable and one undecodable entry in the
    store the listing raises [JSONDecodeError]; the decodable entry is not
    returned. *)
Lemma listing_aborts_on_corrupt_entry :
  decodes_to Sample.mixed_world (APPROVAL_PREFIX ++ u "9f3a01bc")
    (action_data Sample.env (u "ban_suspicious_ip") Sample.ban_arguments) ∧
  (call_tool Sample.env (u "list_pending_actions") [] Sample.mixed_world).1 =
    Raise JSONDecodeError.
Proof.
  split.
  - apply pending_world_decodes. vm_compute. reflexivity.
  - vm_compute. reflexivity.
Qed.

(** ** Racing approvals *)

(** A caller that is not interleaved with another runs [approve]. *)
Lemma run_alone_is_approve env arguments w :
  run_alone env (AtGet arguments) w =
    (Returned (approve env arguments w).1, (approve env arguments w).2).
Proof.
  unfold run_alone, approve, approve_step, Redis.get, Redis.delete, json_loads.
  run.
  destruct (store w !! _) as [[[|c raw] t]|];
    cbn [fmap option_fmap option_map payload]; try reflexivity.
  destruct (Json.loads (c :: raw)); try reflexivity.
  match goal with |- context [let '(r, w') := ?x in _] => destruct x end.
  reflexivity.
Qed.

(** C1 fails on the code: the delete step moves on to the execution whatever
    the server removed, and with two callers that both read the key before
    either deletes it, both run the ban and neither is refused. *)
Theorem approve_race_executes_twice :
  (∀ env key action w,
     (approve_step env (AtDelete key action) w).1 = AtExecute action) ∧
  ∃ r1 r2,
    Sample.race.1 = [Returned r1; Returned r2] ∧
    is_invalid_token r1 = false ∧
    is_invalid_token r2 = false ∧
    length (filter (λ e, is_blocklist_set e = true) (trace Sample.race.2)) =
      2%nat.
Proof.
  split; [reflexivity|].
  exists (Ok [text_content (u "IP 1.2.3.4 has been banned for 3600 seconds.")]),
         (Ok [text_content (u "IP 1.2.3.4 has been banned for 3600 seconds.")]).
  repeat split; vm_compute; reflexivity.
Qed.

(** * Further properties *)

(** ** Frames of the interlock *)

Lemma store_event_no_setex evs :
  Forall (λ e, is_store_event e = false) evs → Forall no_setex evs.
Proof. intros H. eapply Forall_impl; [exact H|]. by intros []. Qed.

(** The loop of the listing only reads. *)
Lemma collect_actions_reads keys :
  ∀ acc w, ∃ r fetched,
    collect_actions keys acc w = (r, World (store w) (trace w ++ (StoreGet <$> fetched))).
Proof.
  induction keys as [|k keys IH]; intros acc w.
  - exists (Ok acc), []. cbn. rewrite app_nil_r. by destruct w.
  - cbn [collect_actions]. unfold Redis.get, json_loads; run.
    destruct (payload <$> store w !! k) as [s|].
    + destruct (Json.loads s).
      * destruct (IH (Dict.set (Str.replace APPROVAL_PREFIX [] k) v acc) (emit (StoreGet k) w))
          as (r & fetched & ->).
        exists r, (k :: fetched). unfold emit. cbn [store trace fmap list_fmap].
        by rewrite <- app_assoc.
      * by exists (Raise JSONDecodeError), [k].
      * by exists (Raise OutsideModel), [k].
      * by exists (Raise OutsideModel), [k].
    + eexists _, [k]. reflexivity.
Qed.

Lemma list_pending_reads w :
  ∃ r fetched,
    list_pending w =
      (r, World (store w)
            (trace w ++ StoreKeys APPROVAL_PREFIX :: (StoreGet <$> fetched))).
Proof.
  unfold list_pending, Redis.keys; run.
  destruct (filter _ _) as [|k keys] eqn:E.
  - eexists _, []. reflexivity.
  - destruct (collect_actions_reads (k :: keys) [] (emit (StoreKeys APPROVAL_PREFIX) w))
      as (r & fetched & Hc).
    rewrite Hc. destruct r as [actions|e]; eexists _, fetched;
      unfold emit; cbn [store trace]; by rewrite <- app_assoc.
Qed.

(** What [approve] does to the world, whatever it finds: it reads its key,
    may delete it, and may write one block list key. *)
Lemma approve_frame env arguments w :
  let key := approval_key env arguments in
  ∃ r st' evs,
    approve env arguments w = (r, World st' (trace w ++ StoreGet key :: evs)) ∧
    Forall no_setex evs ∧
    (st' = store w ∨ st' = delete key (store w) ∨
     ∃ ip seconds,
       st' = <[u "blacklist:" ++ ip := Entry (u "banned") seconds]>
               (delete key (store w))).
Proof.
  intros key. destruct w as [st tr].
  destruct (st !! key) as [e|] eqn:E.
  2:{ rewrite approve_absent by done. eexists _, _, []. unfold emit. cbn.
      split; [done|]. split; [constructor|by left]. }
  destruct (payload e) as [|c raw] eqn:Ep.
  { unfold approve, Redis.get; run. fold (approval_key env arguments). fold key.
    cbn [store]. rewrite E. cbn [fmap option_fmap option_map]. rewrite Ep.
    eexists _, _, []. unfold emit. cbn. split; [done|]. split; [constructor|by left]. }
  destruct (Json.loads (payload e)) as [action| | |] eqn:El.
  2,3,4: unfold approve, Redis.get, json_loads; run;
    fold (approval_key env arguments); fold key; cbn [store]; rewrite E;
    cbn [fmap option_fmap option_map]; rewrite Ep; rewrite Ep in El; rewrite El;
    eexists _, _, []; unfold emit; cbn; (split; [done|]); split; [constructor|by left].
  rewrite (approve_present env arguments (World st tr) e action E) by (done || by rewrite Ep).
  fold key. unfold consumed_world, emit, with_store. cbn [store trace].
  unfold py_getitem; run.
  set (w1 := World (delete key st) ((tr ++ [StoreGet key]) ++ [StoreDelete key])).
  assert (Hstop : ∀ x, ∃ r st' evs,
            (Raise x : res (list TextContent), w1) =
              (r, World st' (tr ++ StoreGet key :: evs)) ∧
            Forall no_setex evs ∧
            (st' = st ∨ st' = delete key st ∨
             ∃ ip seconds,
               st' = <[u "blacklist:" ++ ip := Entry (u "banned") seconds]> (delete key st))).
  { intros x. eexists _, _, [StoreDelete key]. unfold w1. rewrite <- app_assoc.
    split; [done|]. split; [by repeat constructor|by right; left]. }
  destruct action as [| | | | |d]; try apply Hstop.
  destruct (Dict.lookup (u "name") d) as [name|]; [|apply Hstop].
  destruct (Dict.lookup (u "arguments") d) as [args|]; [|apply Hstop].
  destruct (execute_action_spec env name args w1) as (t & st' & evs & -> & Hq & _ & Hst).
  eexists _, _, (StoreDelete key :: evs). unfold w1. cbn [trace store] in *.
  rewrite <- !app_assoc. split; [done|]. split.
  - constructor; [done|]. by apply store_event_no_setex.
  - destruct Hst as [-> | (ip & seconds & ->)]; [by right; left|].
    right; right. eauto.
Qed.

(** ** Submitting, waiting, approving *)

(** Facts about the sample request. *)
Lemma sample_validated :
  validate_ip Sample.env (Dict.get (u "ip") Sample.ban_arguments) = true.
Proof. vm_compute. reflexivity. Qed.

Lemma sample_wf : wf_value (VDict Sample.ban_arguments).
Proof.
  apply wf_dict. split.
  - apply (bool_decide_unpack _). vm_compute. exact I.
  - unfold Sample.ban_arguments. rewrite !Forall_cons. cbn [snd wf_value].
    repeat split; constructor.
Qed.

Lemma sample_scalar : scalar_value (VDict Sample.ban_arguments).
Proof.
  apply scalar_dict. unfold Sample.ban_arguments. rewrite !Forall_cons.
  cbn [fst snd scalar_value].
  repeat split; try apply scalar_ascii; constructor.
Qed.

Lemma sample_hex : hex_text (token_hex Sample.env).
Proof. apply Forall_forall. intros c Hc.
  repeat (apply elem_of_cons in Hc as [->|Hc]; [reflexivity|]).
  by apply not_elem_of_nil in Hc. Qed.

Lemma approval_of_key env :
  approval_key env (approval_of env) = APPROVAL_PREFIX ++ token_hex env.
Proof. reflexivity. Qed.

(** The stored record of a ban decodes to itself. *)
Lemma action_data_decodes env arguments :
  wf_value (VDict arguments) →
  scalar_value (VDict arguments) →
  scalar_str (uuid4 env) →
  Json.loads (Json.dumps (action_data env (u "ban_suspicious_ip") arguments)) =
    Json.Decoded (action_data env (u "ban_suspicious_ip") arguments).
Proof.
  intros Hwf Hsc Hu. apply loads_dumps.
  - apply wf_dict. split.
    + apply (bool_decide_unpack _). vm_compute. exact I.
    + rewrite !Forall_cons. cbn [snd].
      split; [done|]. split; [exact Hwf|]. split; [done|constructor].
  - apply scalar_dict. rewrite !Forall_cons. cbn [fst snd].
    split; [split; apply scalar_ascii|].
    split; [split; [apply scalar_ascii|exact Hsc]|].
    split; [split; [apply scalar_ascii|exact Hu]|constructor].
Qed.

Lemma dumps_not_empty v : Json.dumps v ≠ [].
Proof.
  pose proof (encode_opens 0 v) as H. unfold Json.dumps.
  by destruct (Json.encode None 0 v).
Qed.

Lemma ban_is_dangerous : u "ban_suspicious_ip" ∈ DANGEROUS_TOOLS.
Proof. unfold DANGEROUS_TOOLS. by apply list_elem_of_singleton. Qed.

(** After a validated submit, the approval of its token is the execution
    of the submitted call. *)
Lemma approve_submitted env arguments w' e :
  wf_value (VDict arguments) →
  scalar_value (VDict arguments) →
  scalar_str (uuid4 env) →
  store w' !! (APPROVAL_PREFIX ++ token_hex env) = Some e →
  payload e = Json.dumps (action_data env (u "ban_suspicious_ip") arguments) →
  call_tool env (u "approve_action") (approval_of env) w' =
    execute_action env (VStr (u "ban_suspicious_ip")) (VDict arguments)
      (consumed_world (APPROVAL_PREFIX ++ token_hex env) w').
Proof.
  intros Hwf Hsc Hu He Hp. rewrite call_tool_approve.
  rewrite (approve_present env (approval_of env) w' e
             (action_data env (u "ban_suspicious_ip") arguments)).
  - reflexivity.
  - exact He.
  - rewrite Hp. apply dumps_not_empty.
  - rewrite Hp. by apply action_data_decodes.
Qed.

(** X1: after a submit whose [ip] passes the validation, the approval of the
    token drawn is the execution of the submitted call, with the submitted
    arguments, on the store without the pending key. *)
Theorem approval_runs_submitted_action env arguments w :
  validate_ip env (Dict.get (u "ip") arguments) = true →
  wf_value (VDict arguments) →
  scalar_value (VDict arguments) →
  scalar_str (uuid4 env) →
  let key := APPROVAL_PREFIX ++ token_hex env in
  let submitted := (call_tool env (u "ban_suspicious_ip") arguments w).2 in
  call_tool env (u "approve_action") (approval_of env) submitted =
    execute_action env (VStr (u "ban_suspicious_ip")) (VDict arguments)
      (consumed_world key submitted) ∧
  store (consumed_world key submitted) = delete key (store w).
Proof.
  intros Hv Hwf Hsc Hu key submitted. subst submitted.
  rewrite (call_tool_dangerous env _ arguments w ban_is_dangerous Hv).
  cbn [snd]. split.
  - eapply approve_submitted; try done.
    + cbn [store]. apply lookup_insert_eq.
    + reflexivity.
  - unfold consumed_world, emit, with_store. cbn [store].
    apply delete_insert_eq.
Qed.

Lemma approval_runs_submitted_action_witness :
  call_tool Sample.env (u "approve_action") (approval_of Sample.env)
    Sample.pending_world =
    execute_action Sample.env (VStr (u "ban_suspicious_ip"))
      (VDict Sample.ban_arguments)
      (consumed_world (APPROVAL_PREFIX ++ u "9f3a01bc") Sample.pending_world) ∧
  store (consumed_world (APPROVAL_PREFIX ++ u "9f3a01bc") Sample.pending_world) =
    delete (APPROVAL_PREFIX ++ u "9f3a01bc") (store Sample.empty_world).
Proof.
  apply (approval_runs_submitted_action Sample.env Sample.ban_arguments
           Sample.empty_world).
  - exact sample_validated.
  - exact sample_wf.
  - exact sample_scalar.
  - apply scalar_ascii.
Defined.

Lemma elapse_keeps seconds w key e :
  store w !! key = Some e → (seconds < ttl e)%Z →
  store (Redis.elapse seconds w) !! key = Some (Entry (payload e) (ttl e - seconds)).
Proof.
  intros H Ht. unfold Redis.elapse, with_store. cbn [store].
  rewrite lookup_fmap, map_lookup_filter, H. cbn.
  rewrite option_guard_True; [done|]. cbn. lia.
Qed.

(** X2: a pending action can be approved while less than 3600 seconds have
    passed since the submit; from 3600 seconds on its token is refused. *)
Theorem pending_action_expires env arguments w seconds :
  validate_ip env (Dict.get (u "ip") arguments) = true →
  wf_value (VDict arguments) →
  scalar_value (VDict arguments) →
  scalar_str (uuid4 env) →
  let key := APPROVAL_PREFIX ++ token_hex env in
  let later :=
    Redis.elapse seconds
      (call_tool env (u "ban_suspicious_ip") arguments w).2 in
  ((seconds < 3600)%Z →
   call_tool env (u "approve_action") (approval_of env) later =
     execute_action env (VStr (u "ban_suspicious_ip")) (VDict arguments)
       (consumed_world key later)) ∧
  ((3600 ≤ seconds)%Z →
   call_tool env (u "approve_action") (approval_of env) later =
     (Ok [text_content invalid_token_message], emit (StoreGet key) later)).
Proof.
  intros Hv Hwf Hsc Hu key later. subst later.
  rewrite (call_tool_dangerous env _ arguments w ban_is_dangerous Hv).
  cbn [snd].
  set (w1 := World _ _).
  assert (H1 : store w1 !! key =
               Some (Entry (Json.dumps (action_data env (u "ban_suspicious_ip") arguments))
                       APPROVAL_TTL)).
  { unfold w1. cbn [store]. apply lookup_insert_eq. }
  split; intros Hs.
  - eapply approve_submitted; try done.
    + apply (elapse_keeps seconds w1 key _ H1). cbn [ttl]. unfold APPROVAL_TTL. lia.
    + reflexivity.
  - rewrite call_tool_approve. apply approve_absent. rewrite approval_of_key.
    apply (elapse_expires seconds w1 key _ H1). cbn [ttl]. unfold APPROVAL_TTL. lia.
Qed.

Lemma pending_action_expires_witness :
  let key := APPROVAL_PREFIX ++ u "9f3a01bc" in
  let in_time := Redis.elapse 3599 Sample.pending_world in
  let too_late := Redis.elapse 3600 Sample.pending_world in
  call_tool Sample.env (u "approve_action") (approval_of Sample.env) in_time =
    execute_action Sample.env (VStr (u "ban_suspicious_ip"))
      (VDict Sample.ban_arguments) (consumed_world key in_time) ∧
  call_tool Sample.env (u "approve_action") (approval_of Sample.env) too_late =
    (Ok [text_content invalid_token_message], emit (StoreGet key) too_late).
Proof.
  split.
  - apply (pending_action_expires Sample.env Sample.ban_arguments
             Sample.empty_world 3599 sample_validated sample_wf sample_scalar
             (scalar_ascii _)).
    lia.
  - apply (pending_action_expires Sample.env Sample.ban_arguments
             Sample.empty_world 3600 sample_validated sample_wf sample_scalar
             (scalar_ascii _)).
    lia.
Defined.

(** X6: a submit that draws the token of a pending action replaces that
    action: the store is as if the earlier submit had not happened. *)
Theorem resubmission_replaces_pending env first second w :
  validate_ip env (Dict.get (u "ip") first) = true →
  validate_ip env (Dict.get (u "ip") second) = true →
  let key := APPROVAL_PREFIX ++ token_hex env in
  let w1 := (call_tool env (u "ban_suspicious_ip") first w).2 in
  let w2 := (call_tool env (u "ban_suspicious_ip") second w1).2 in
  store w2 = store (call_tool env (u "ban_suspicious_ip") second w).2 ∧
  store w2 !! key =
    Some (Entry (Json.dumps (action_data env (u "ban_suspicious_ip") second))
            APPROVAL_TTL).
Proof.
  intros H1 H2 key w1 w2. subst w1 w2.
  rewrite !(call_tool_dangerous env _ _ _ ban_is_dangerous) by done.
  cbn [snd store]. split; [apply insert_insert_eq|apply lookup_insert_eq].
Qed.

Lemma resubmission_replaces_pending_witness :
  let second := [(u "ip", VStr (u "2001:db8::1"))] in
  let w2 :=
    (call_tool Sample.env (u "ban_suspicious_ip") second Sample.pending_world).2 in
  store w2 =
    store (call_tool Sample.env (u "ban_suspicious_ip") second
             Sample.empty_world).2 ∧
  store w2 !! (APPROVAL_PREFIX ++ u "9f3a01bc") =
    Some (Entry (Json.dumps (action_data Sample.env (u "ban_suspicious_ip") second))
            APPROVAL_TTL).
Proof.
  apply (resubmission_replaces_pending Sample.env Sample.ban_arguments
           [(u "ip", VStr (u "2001:db8::1"))] Sample.empty_world).
  - exact sample_validated.
  - vm_compute. reflexivity.
Defined.

(** X7: whatever an approval finds and does, the pending action of every
    other token stays as it was. *)
Theorem approval_leaves_other_tokens env arguments w token :
  APPROVAL_PREFIX ++ token ≠ approval_key env arguments →
  store (call_tool env (u "approve_action") arguments w).2 !! (APPROVAL_PREFIX ++ token) =
    store w !! (APPROVAL_PREFIX ++ token).
Proof.
  intros Hne. rewrite call_tool_approve.
  destruct (approve_frame env arguments w) as (r & st' & evs & -> & _ & Hst).
  cbn [snd store].
  destruct Hst as [-> | [-> | (ip & seconds & ->)]]; [done| |].
  - by apply lookup_delete_ne.
  - rewrite lookup_insert_ne.
    + by apply lookup_delete_ne.
    + intros H. symmetry in H. by apply approval_key_not_blocklist in H.
Qed.

Lemma approval_leaves_other_tokens_witness :
  store (call_tool Sample.env (u "approve_action") Sample.approve_arguments
           Sample.mixed_world).2 !! (APPROVAL_PREFIX ++ u "0badc0de") =
    store Sample.mixed_world !! (APPROVAL_PREFIX ++ u "0badc0de").
Proof.
  apply (approval_leaves_other_tokens Sample.env Sample.approve_arguments
           Sample.mixed_world (u "0badc0de")).
  discriminate.
Defined.

(** X8: a key whose value is the empty text is refused like a missing one,
    a key whose value is no JSON makes the call raise [JSONDecodeError]; in
    both cases the key stays in the store. *)
Theorem unusable_value_keeps_key env arguments w e :
  store w !! approval_key env arguments = Some e →
  let key := approval_key env arguments in
  (payload e = [] →
   call_tool env (u "approve_action") arguments w =
     (Ok [text_content invalid_token_message], emit (StoreGet key) w)) ∧
  (payload e ≠ [] →
   Json.loads (payload e) = Json.DecodeError →
   call_tool env (u "approve_action") arguments w =
     (Raise JSONDecodeError, emit (StoreGet key) w)) ∧
  store (emit (StoreGet key) w) !! key = Some e.
Proof.
  intros H key. subst key. rewrite call_tool_approve.
  unfold approve, Redis.get, json_loads; run.
  fold (approval_key env arguments). rewrite H.
  cbn [fmap option_fmap option_map].
  split; [by intros ->|]. split; [|done].
  intros Hne Hl. destruct (payload e); [done|]. by rewrite Hl.
Qed.

Lemma unusable_value_keeps_key_witness :
  let key := APPROVAL_PREFIX ++ u "0badc0de" in
  call_tool Sample.env (u "approve_action") Scenario.corrupt_arguments
    Sample.mixed_world =
    (Raise JSONDecodeError, emit (StoreGet key) Sample.mixed_world) ∧
  store (emit (StoreGet key) Sample.mixed_world) !! key =
    Some (Entry (u "{not json") 3600).
Proof.
  destruct (unusable_value_keeps_key Sample.env Scenario.corrupt_arguments
              Sample.mixed_world (Entry (u "{not json") 3600))
    as (_ & Hraise & Hkept).
  - vm_compute. reflexivity.
  - split; [|exact Hkept]. apply Hraise.
    + discriminate.
    + vm_compute. reflexivity.
Defined.

(** X9: when the stored text decodes to something other than a dict with
    [name] and [arguments], the call raises [KeyError] or [TypeError] out of
    [call_tool], after the key has been deleted. *)
Theorem incomplete_record_consumes_token env arguments w e action :
  store w !! approval_key env arguments = Some e →
  payload e ≠ [] →
  Json.loads (payload e) = Json.Decoded action →
  ¬ complete_record action →
  let key := approval_key env arguments in
  ∃ x,
    call_tool env (u "approve_action") arguments w =
      (Raise x, consumed_world key w) ∧
    store (consumed_world key w) !! key = None ∧
    match action with
    | VDict d =>
        x = KeyError (match Dict.lookup (u "name") d with
                      | None => u "name"
                      | Some _ => u "arguments"
                      end)
    | _ => ∃ msg, x = TypeError msg
    end.
Proof.
  intros H Hne Hl Hinc key. rewrite call_tool_approve.
  rewrite (approve_present env arguments w e action H Hne Hl). fold key.
  assert (Hgone : store (consumed_world key w) !! key = None).
  { unfold consumed_world, emit, with_store. cbn [store]. apply lookup_delete_eq. }
  unfold py_getitem; run.
  destruct action as [| | | | |d]; try (eexists; split; [reflexivity|split; [done|eauto]]).
  destruct (Dict.lookup (u "name") d) as [name|] eqn:En.
  2:{ eexists; split; [reflexivity|split; done]. }
  destruct (Dict.lookup (u "arguments") d) as [args|] eqn:Ea.
  2:{ eexists; split; [reflexivity|split; done]. }
  exfalso. apply Hinc. by exists d, name, args.
Qed.

Lemma incomplete_record_consumes_token_witness :
  let key := APPROVAL_PREFIX ++ u "9f3a01bc" in
  ∃ x,
    call_tool Sample.env (u "approve_action") Sample.approve_arguments
      Scenario.incomplete_world =
      (Raise x, consumed_world key Scenario.incomplete_world) ∧
    store (consumed_world key Scenario.incomplete_world) !! key = None ∧
    x = KeyError (u "name").
Proof.
  apply (incomplete_record_consumes_token Sample.env Sample.approve_arguments
           Scenario.incomplete_world (Entry (u "{}") 3600) (VDict [])).
  - vm_compute. reflexivity.
  - discriminate.
  - vm_compute. reflexivity.
  - intros (d & name & args & Hd & Hn & _). injection Hd as <-. discriminate Hn.
Defined.

(** ** What the calls may change *)

(** Outside [approve_action], a call either leaves the store alone and
    writes no pending action, or is the validated submit. *)
Lemma call_tool_frame env name arguments w :
  name ≠ u "approve_action" →
  ∃ r st' evs,
    call_tool env name arguments w = (r, World st' (trace w ++ evs)) ∧
    ((st' = store w ∧ Forall no_setex evs) ∨
     (name = u "ban_suspicious_ip" ∧
      validate_ip env (Dict.get (u "ip") arguments) = true ∧
      st' = <[APPROVAL_PREFIX ++ token_hex env :=
                Entry (Json.dumps (action_data env name arguments)) APPROVAL_TTL]>
              (store w) ∧
      evs = [StoreSetex (APPROVAL_PREFIX ++ token_hex env) APPROVAL_TTL
               (Json.dumps (action_data env name arguments))])).
Proof.
  intros Ha. destruct w as [st tr]. cbn [store trace]. set (w := World st tr).
  destruct (decide (name = u "ban_suspicious_ip")) as [->|Hb].
  { destruct (validate_ip env (Dict.get (u "ip") arguments)) eqn:Hv.
    - rewrite (call_tool_dangerous env _ arguments w ban_is_dangerous Hv).
      eexists _, _, _. split; [reflexivity|]. right. done.
    - unfold call_tool. rewrite Hv. cbn [negb andb bool_decide].
      rewrite bool_decide_eq_true_2 by done. cbn [andb].
      exists (Ok [text_content (invalid_ip_message env (Dict.get (u "ip") arguments))]),
        st, []. run. rewrite app_nil_r.
      split; [reflexivity|]. left. split; [done|constructor]. }
  assert (Hcall : call_tool env name arguments w =
                  if bool_decide (name = u "list_pending_actions") then list_pending w
                  else execute_action env (VStr name) (VDict arguments) w).
  { unfold call_tool.
    rewrite (bool_decide_eq_false_2 (name = u "ban_suspicious_ip")) by exact Hb.
    cbn [andb]. rewrite (not_dangerous name Hb).
    rewrite (bool_decide_eq_false_2 (name = u "approve_action")) by exact Ha.
    by case_bool_decide. }
  rewrite Hcall. case_bool_decide as Hl.
  - destruct (list_pending_reads w) as (r & fetched & ->).
    eexists _, _, _. split; [reflexivity|]. left. split; [done|].
    constructor; [done|]. apply Forall_fmap, Forall_forall. by intros.
  - destruct (execute_action_spec env (VStr name) (VDict arguments) w)
      as (t & st' & evs & -> & Hq & Hs & _).
    destruct Hs as [-> _]; [unfold is_str; by apply bool_decide_eq_false_2|].
    eexists _, _, _. split; [reflexivity|]. left. split; [done|].
    by apply store_event_no_setex.
Qed.

(** X10: a call of any tool other than [approve_action] changes no key
    but the pending entry of the token drawn; in particular it leaves the
    block list as it was. *)
Theorem only_approval_changes_blocklist env name arguments w :
  name ≠ u "approve_action" →
  (∀ k, k ≠ APPROVAL_PREFIX ++ token_hex env →
        store (call_tool env name arguments w).2 !! k = store w !! k) ∧
  (∀ ip, store (call_tool env name arguments w).2 !! (u "blacklist:" ++ ip) =
         store w !! (u "blacklist:" ++ ip)).
Proof.
  intros Ha.
  destruct (call_tool_frame env name arguments w Ha)
    as (r & st' & evs & -> & [[-> _] | (_ & _ & -> & _)]); cbn [snd store].
  - done.
  - split.
    + intros k Hk. by apply lookup_insert_ne.
    + intros ip. apply lookup_insert_ne, approval_key_not_blocklist.
Qed.

Lemma only_approval_changes_blocklist_witness :
  (∀ k, k ≠ APPROVAL_PREFIX ++ u "9f3a01bc" →
        store (call_tool Sample.env (u "ban_suspicious_ip") Sample.ban_arguments
                 Sample.empty_world).2 !! k = store Sample.empty_world !! k) ∧
  (∀ ip, store (call_tool Sample.env (u "ban_suspicious_ip") Sample.ban_arguments
                  Sample.empty_world).2 !! (u "blacklist:" ++ ip) =
         store Sample.empty_world !! (u "blacklist:" ++ ip)).
Proof.
  apply (only_approval_changes_blocklist Sample.env (u "ban_suspicious_ip")
           Sample.ban_arguments Sample.empty_world).
  discriminate.
Defined.

(** X11: the only [SETEX] that a call issues is the one of a submit of
    [ban_suspicious_ip] whose [ip] has passed [validate_ip], under the key
    of the token drawn and with the approval time to live. *)
Theorem stored_actions_are_validated env name arguments w :
  ∃ evs,
    trace (call_tool env name arguments w).2 = trace w ++ evs ∧
    ∀ key seconds data,
      StoreSetex key seconds data ∈ evs →
      name = u "ban_suspicious_ip" ∧
      validate_ip env (Dict.get (u "ip") arguments) = true ∧
      key = APPROVAL_PREFIX ++ token_hex env ∧
      seconds = APPROVAL_TTL ∧
      data = Json.dumps (action_data env name arguments).
Proof.
  destruct (decide (name = u "approve_action")) as [->|Ha].
  - rewrite call_tool_approve.
    destruct (approve_frame env arguments w) as (r & st' & evs & -> & Hn & _).
    eexists. split; [reflexivity|]. intros key seconds data Hin. exfalso.
    apply elem_of_cons in Hin as [Hin|Hin]; [done|].
    rewrite Forall_forall in Hn. by apply Hn in Hin.
  - destruct (call_tool_frame env name arguments w Ha)
      as (r & st' & evs & -> & [[_ Hn] | (-> & Hv & _ & ->)]); cbn [snd trace];
      eexists; (split; [reflexivity|]); intros key seconds data Hin.
    + exfalso. rewrite Forall_forall in Hn. by apply Hn in Hin.
    + apply list_elem_of_singleton in Hin. by simplify_eq.
Qed.

(** X12: [execute_action] never raises: for every name and every arguments
    object it returns one text; it issues no approval command and changes
    no key of the store other than block list keys. *)
Theorem execute_action_always_answers env name arguments w :
  ∃ t w',
    execute_action env name arguments w = (Ok [text_content t], w') ∧
    (∀ k, (∀ ip, k ≠ u "blacklist:" ++ ip) → store w' !! k = store w !! k) ∧
    ∃ evs, trace w' = trace w ++ evs ∧
           Forall (λ e, is_store_event e = false) evs.
Proof.
  destruct (execute_action_spec env name arguments w)
    as (t & st' & evs & -> & Hq & _ & Hst).
  eexists _, _. split; [reflexivity|]. cbn [store trace]. split; [|eauto].
  intros k Hk. destruct Hst as [-> | (ip & seconds & ->)]; [done|].
  apply lookup_insert_ne. intros H. by apply (Hk ip).
Qed.

(** ** The listing *)

(** The loop of the listing reads the keys in turn, up to the one at which
    it raises, and changes nothing. *)
Lemma collect_actions_fetches keys :
  ∀ acc w, ∃ r fetched,
    collect_actions keys acc w =
      (r, World (store w) (trace w ++ (StoreGet <$> fetched))) ∧
    fetched `prefix_of` keys.
Proof.
  induction keys as [|k keys IH]; intros acc w.
  - exists (Ok acc), []. cbn. rewrite app_nil_r. by destruct w.
  - cbn [collect_actions]. unfold Redis.get, json_loads; run.
    assert (Hk : [k] `prefix_of` k :: keys) by (by exists keys).
    destruct (payload <$> store w !! k) as [s|]; [|by eexists _, [k]].
    destruct (Json.loads s); try by eexists _, [k].
    destruct (IH (Dict.set (Str.replace APPROVAL_PREFIX [] k) v acc)
                 (emit (StoreGet k) w)) as (r & fetched & -> & Hp).
    exists r, (k :: fetched). unfold emit. cbn [store trace fmap list_fmap].
    rewrite <- app_assoc. split; [done|]. by apply prefix_cons.
Qed.

(** X5: the listing leaves the store as it is, whether it returns or
    raises; it issues one [KEYS] and then a [GET] for the enumerated keys
    in turn, up to the one at which it stops. *)
Theorem listing_only_reads env arguments w :
  ∃ r fetched,
    call_tool env (u "list_pending_actions") arguments w =
      (r, World (store w)
            (trace w ++ StoreKeys APPROVAL_PREFIX :: (StoreGet <$> fetched))) ∧
    fetched `prefix_of` pending_keys w.
Proof.
  rewrite call_tool_list_pending. unfold list_pending, Redis.keys; run.
  fold (pending_keys w).
  destruct (pending_keys w) as [|k keys] eqn:E.
  - by eexists _, [].
  - destruct (collect_actions_fetches (k :: keys) []
                (emit (StoreKeys APPROVAL_PREFIX) w)) as (r & fetched & Hc & Hp).
    rewrite Hc. unfold emit. cbn [store trace]. rewrite <- app_assoc.
    destruct r as [actions|e]; by eexists _, fetched.
Qed.

Lemma startswith_app p s : Str.startswith p (p ++ s) = true.
Proof. induction p as [|c p IH]; [done|]. cbn. by rewrite N.eqb_refl. Qed.

Lemma hex_not_n c : Ipaddress.is_hex_digit c = true → (ch "n" =? c) = false.
Proof.
  unfold Ipaddress.is_hex_digit, Num.hex_val. intros H.
  apply N.eqb_neq. intros <-. vm_compute in H. discriminate.
Qed.

(** Text of hex digits holds no occurrence of the prefix. *)
Lemma replace_from_hex token :
  hex_text token → Str.replace_from APPROVAL_PREFIX [] 0 token = token.
Proof.
  induction 1 as [|c token Hc _ IH]; [done|].
  cbn [Str.replace_from].
  replace (Str.startswith APPROVAL_PREFIX (c :: token)) with false.
  - by rewrite IH.
  - change APPROVAL_PREFIX with (ch "n" :: u "exus:approval:").
    cbn [Str.startswith]. by rewrite hex_not_n.
Qed.

(** The listing names a pending action by its token. *)
Lemma replace_prefix token :
  hex_text token → Str.replace APPROVAL_PREFIX [] (APPROVAL_PREFIX ++ token) = token.
Proof.
  intros H. unfold Str.replace.
  change (APPROVAL_PREFIX ++ token) with (ch "n" :: (u "exus:approval:" ++ token)).
  cbn [Str.replace_from].
  change (ch "n" :: (u "exus:approval:" ++ token)) with (APPROVAL_PREFIX ++ token).
  rewrite startswith_app.
  change (Nat.pred (length APPROVAL_PREFIX)) with 14%nat.
  change (u "exus:approval:" ++ token)
    with (101 :: 120 :: 117 :: 115 :: 58 :: 97 :: 112 :: 112 :: 114 :: 111 ::
          118 :: 97 :: 108 :: 58 :: token).
  cbn [Str.replace_from app]. by apply replace_from_hex.
Qed.

Lemma nodup_singleton {A} (l : list A) a :
  NoDup l → (∀ x, x ∈ l ↔ x = a) → l = [a].
Proof.
  intros Hn Hin. destruct l as [|x l].
  - exfalso. eapply not_elem_of_nil. by apply Hin.
  - assert (x = a) as -> by (apply Hin; left).
    destruct l as [|y l]; [done|]. exfalso.
    assert (y = a) as -> by (apply Hin; right; left).
    apply NoDup_cons in Hn as [Hn _]. apply Hn. left.
Qed.

Lemma pending_keys_nodup w : NoDup (pending_keys w).
Proof. unfold pending_keys. apply NoDup_filter, NoDup_fst_map_to_list. Qed.

(** The one pending key after a submit into a store without any. *)
Lemma pending_keys_insert st tr tr' token e :
  pending_keys (World st tr) = [] →
  pending_keys (World (<[APPROVAL_PREFIX ++ token := e]> st) tr') =
    [APPROVAL_PREFIX ++ token].
Proof.
  intros Hnone. apply nodup_singleton; [apply pending_keys_nodup|].
  intros k. rewrite pending_keys_spec. cbn [store]. split.
  - intros [Hp Hs]. destruct (decide (k = APPROVAL_PREFIX ++ token)) as [|Hne]; [done|].
    exfalso. rewrite lookup_insert_ne in Hs by done.
    assert (Hin : k ∈ pending_keys (World st tr)) by (by apply pending_keys_spec).
    rewrite Hnone in Hin. by apply not_elem_of_nil in Hin.
  - intros ->. split; [apply startswith_app|]. rewrite lookup_insert_eq. eauto.
Qed.

(** X4: after a submit into a store without pending actions, the listing
    is the JSON text of one entry: the submitted action under the token that
    approves it. *)
Theorem listing_shows_submitted_action env arguments w :
  validate_ip env (Dict.get (u "ip") arguments) = true →
  wf_value (VDict arguments) →
  scalar_value (VDict arguments) →
  scalar_str (uuid4 env) →
  hex_text (token_hex env) →
  pending_keys w = [] →
  let submitted := (call_tool env (u "ban_suspicious_ip") arguments w).2 in
  (call_tool env (u "list_pending_actions") [] submitted).1 =
    Ok [text_content
          (Json.dumps_indent 2
             (VDict [(token_hex env,
                      action_data env (u "ban_suspicious_ip") arguments)]))].
Proof.
  intros Hv Hwf Hsc Hu Hhex Hnone submitted. subst submitted.
  rewrite (call_tool_dangerous env _ arguments w ban_is_dangerous Hv).
  cbn [snd]. set (key := APPROVAL_PREFIX ++ token_hex env).
  set (data := Json.dumps _). set (w1 := World _ _).
  assert (Hkeys : pending_keys w1 = [key]).
  { destruct w as [st tr]. by apply (pending_keys_insert st tr). }
  rewrite call_tool_list_pending. unfold list_pending, Redis.keys; run.
  fold (pending_keys w1). rewrite Hkeys.
  assert (Hdec : Forall2 (decodes_to w1) [key]
                   [action_data env (u "ban_suspicious_ip") arguments]).
  { constructor; [|constructor]. exists (Entry data APPROVAL_TTL). split.
    - unfold w1. cbn [store]. apply lookup_insert_eq.
    - by apply action_data_decodes. }
  unfold emit.
  rewrite (collect_actions_ok w1 _ _ Hdec [] (trace w1 ++ [StoreKeys APPROVAL_PREFIX])).
  cbn [fst zip zip_with fold_left fst snd]. unfold key.
  rewrite replace_prefix by done. reflexivity.
Qed.

Lemma listing_shows_submitted_action_witness :
  (call_tool Sample.env (u "list_pending_actions") [] Sample.pending_world).1 =
    Ok [text_content
          (Json.dumps_indent 2
             (VDict [(u "9f3a01bc",
                      action_data Sample.env (u "ban_suspicious_ip")
                        Sample.ban_arguments)]))].
Proof.
  apply (listing_shows_submitted_action Sample.env Sample.ban_arguments
           Sample.empty_world).
  - exact sample_validated.
  - exact sample_wf.
  - exact sample_scalar.
  - apply scalar_ascii.
  - exact sample_hex.
  - vm_compute. reflexivity.
Defined.

(** ** Executed bans and the life of a pending action *)

(** X13: executing a ban with a text [ip] and positive [hours] writes the
    key [blacklist:<ip>] with the value [banned] and [hours * 3600] seconds
    to live and says so; [hours] defaults to 1; the address is not
    validated again. *)
Theorem executed_ban_writes_blocklist env arguments ip hours w :
  Dict.get (u "ip") arguments = VStr ip →
  Dict.get_or (u "hours") (VInt 1) arguments = VInt hours →
  (0 < hours)%Z →
  blocklist_fault env (u "blacklist:" ++ ip) (hours * 3600) = None →
  execute_action env (VStr (u "ban_suspicious_ip")) (VDict arguments) w =
    (Ok [text_content
           (u "IP " ++ ip ++ u " has been banned for " ++
            Num.dec_of_Z (hours * 3600) ++ u " seconds.")],
     World (<[u "blacklist:" ++ ip := Entry (u "banned") (hours * 3600)]> (store w))
           (trace w ++ [BlocklistSet (u "blacklist:" ++ ip) (VInt (hours * 3600))])).
Proof.
  intros Hip Hh Hpos Hf.
  unfold execute_action, execute_action_body.
  change (is_str (VStr (u "ban_suspicious_ip")) (u "check_system_health")) with false.
  change (is_str (VStr (u "ban_suspicious_ip")) (u "get_security_events")) with false.
  change (is_str (VStr (u "ban_suspicious_ip")) (u "analyze_attack_patterns")) with false.
  change (is_str (VStr (u "ban_suspicious_ip")) (u "ban_suspicious_ip")) with true.
  cbv iota. unfold py_get; run.
  change (Dict.get_or (u "ip") VNone arguments) with (Dict.get (u "ip") arguments).
  rewrite Hip, Hh. unfold py_mul, ban_ip, blocklist_set; run.
  cbn [to_str Repr.to_str]. rewrite Hf.
  replace (0 <? hours * 3600)%Z with true by (symmetry; apply Z.ltb_lt; lia).
  reflexivity.
Qed.

Lemma executed_ban_writes_blocklist_witness :
  execute_action Sample.env (VStr (u "ban_suspicious_ip"))
    (VDict [(u "ip", VStr (u "not an address"))]) Sample.empty_world =
    (Ok [text_content (u "IP not an address has been banned for 3600 seconds.")],
     World (<[u "blacklist:not an address" := Entry (u "banned") 3600]> ∅)
           [BlocklistSet (u "blacklist:not an address") (VInt 3600)]).
Proof.
  apply (executed_ban_writes_blocklist Sample.env
           [(u "ip", VStr (u "not an address"))] (u "not an address") 1
           Sample.empty_world).
  - reflexivity.
  - reflexivity.
  - lia.
  - reflexivity.
Defined.

(** X14: executing a ban with [hours] zero or negative writes nothing: the
    reply is the ban error with the store's complaint about the expiry. *)
Theorem nonpositive_duration_bans_nothing env arguments ip hours w :
  Dict.get (u "ip") arguments = VStr ip →
  Dict.get_or (u "hours") (VInt 1) arguments = VInt hours →
  (hours ≤ 0)%Z →
  execute_action env (VStr (u "ban_suspicious_ip")) (VDict arguments) w =
    (Ok [text_content
           (u "Error banning IP: " ++ expiry_error env (VInt (hours * 3600)))],
     World (store w)
           (trace w ++ [BlocklistSet (u "blacklist:" ++ ip) (VInt (hours * 3600))])).
Proof.
  intros Hip Hh Hpos.
  unfold execute_action, execute_action_body.
  change (is_str (VStr (u "ban_suspicious_ip")) (u "check_system_health")) with false.
  change (is_str (VStr (u "ban_suspicious_ip")) (u "get_security_events")) with false.
  change (is_str (VStr (u "ban_suspicious_ip")) (u "analyze_attack_patterns")) with false.
  change (is_str (VStr (u "ban_suspicious_ip")) (u "ban_suspicious_ip")) with true.
  cbv iota. unfold py_get; run.
  change (Dict.get_or (u "ip") VNone arguments) with (Dict.get (u "ip") arguments).
  rewrite Hip, Hh. unfold py_mul, ban_ip, blocklist_set; run.
  cbn [to_str Repr.to_str].
  replace (0 <? hours * 3600)%Z with false by (symmetry; apply Z.ltb_ge; lia).
  reflexivity.
Qed.

Lemma nonpositive_duration_bans_nothing_witness :
  execute_action Sample.env (VStr (u "ban_suspicious_ip"))
    (VDict [(u "ip", VStr (u "1.2.3.4")); (u "hours", VInt 0)])
    Sample.empty_world =
    (Ok [text_content (u "Error banning IP: invalid expire time in 'set' command")],
     World ∅ [BlocklistSet (u "blacklist:1.2.3.4") (VInt 0)]).
Proof.
  apply (nonpositive_duration_bans_nothing Sample.env
           [(u "ip", VStr (u "1.2.3.4")); (u "hours", VInt 0)] (u "1.2.3.4") 0
           Sample.empty_world).
  - reflexivity.
  - reflexivity.
  - lia.
Defined.

(** The store after a submit and the approval of its token: the pending
    key is gone, and nothing else differs but one block list key. *)
Lemma submit_approve_store env arguments w k :
  validate_ip env (Dict.get (u "ip") arguments) = true →
  wf_value (VDict arguments) →
  scalar_value (VDict arguments) →
  scalar_str (uuid4 env) →
  let submitted := (call_tool env (u "ban_suspicious_ip") arguments w).2 in
  let approved :=
    (call_tool env (u "approve_action") (approval_of env) submitted).2 in
  store approved !! k = None ∨
  store approved !! k = store w !! k ∨
  ∃ ip, k = u "blacklist:" ++ ip.
Proof.
  intros Hv Hwf Hsc Hu submitted approved. subst approved submitted.
  rewrite (call_tool_dangerous env _ arguments w ban_is_dangerous Hv).
  cbn [snd]. set (key := APPROVAL_PREFIX ++ token_hex env).
  set (data := Json.dumps _). set (w1 := World _ _).
  rewrite (approve_submitted env arguments w1 (Entry data APPROVAL_TTL))
    by (done || apply lookup_insert_eq).
  fold key. set (w2 := consumed_world key w1).
  assert (Hw2 : store w2 = delete key (store w)).
  { unfold w2, consumed_world, emit, with_store, w1. cbn [store].
    apply delete_insert_eq. }
  destruct (execute_action_spec env (VStr (u "ban_suspicious_ip"))
              (VDict arguments) w2) as (t & st' & evs & -> & _ & _ & Hst).
  cbn [snd store].
  destruct (decide (k = key)) as [->|Hk].
  - left. destruct Hst as [-> | (ip & seconds & ->)].
    + rewrite Hw2. apply lookup_delete_eq.
    + rewrite lookup_insert_ne, Hw2; [apply lookup_delete_eq|].
      intros H. symmetry in H. by apply approval_key_not_blocklist in H.
  - destruct Hst as [-> | (ip & seconds & ->)].
    + right; left. rewrite Hw2. by apply lookup_delete_ne.
    + destruct (decide (k = u "blacklist:" ++ ip)) as [->|Hb]; [right; right; eauto|].
      right; left. rewrite lookup_insert_ne, Hw2 by done. by apply lookup_delete_ne.
Qed.

Lemma no_elements {A} (l : list A) : (∀ x, x ∉ l) → l = [].
Proof. destruct l as [|x l]; [done|]. intros H. exfalso. apply (H x). left. Qed.

(** X3: once the action of a submit has been approved, whatever came of
    its execution, no pending action is left and the listing says so. *)
Theorem approved_action_leaves_listing env arguments w :
  validate_ip env (Dict.get (u "ip") arguments) = true →
  wf_value (VDict arguments) →
  scalar_value (VDict arguments) →
  scalar_str (uuid4 env) →
  pending_keys w = [] →
  let submitted := (call_tool env (u "ban_suspicious_ip") arguments w).2 in
  let approved :=
    (call_tool env (u "approve_action") (approval_of env) submitted).2 in
  pending_keys approved = [] ∧
  call_tool env (u "list_pending_actions") [] approved =
    (Ok [text_content no_pending_message],
     emit (StoreKeys APPROVAL_PREFIX) approved).
Proof.
  intros Hv Hwf Hsc Hu Hnone submitted approved.
  assert (Hk : pending_keys approved = []).
  { apply no_elements. intros k Hin.
    apply pending_keys_spec in Hin as [Hp Hs].
    assert (Hno : store w !! k = None).
    { destruct (store w !! k) as [e|] eqn:E; [|done]. exfalso.
      assert (Hin : k ∈ pending_keys w) by (apply pending_keys_spec; eauto).
      rewrite Hnone in Hin. by apply not_elem_of_nil in Hin. }
    subst approved submitted.
    destruct (submit_approve_store env arguments w k Hv Hwf Hsc Hu)
      as [Hgone | [Hsame | (ip & ->)]].
    - rewrite Hgone in Hs. by destruct Hs.
    - rewrite Hsame, Hno in Hs. by destruct Hs.
    - discriminate Hp. }
  split; [exact Hk|].
  rewrite call_tool_list_pending. unfold list_pending, Redis.keys; run.
  fold (pending_keys approved). by rewrite Hk.
Qed.

Lemma approved_action_leaves_listing_witness :
  let approved :=
    (call_tool Sample.env (u "approve_action") (approval_of Sample.env)
       Sample.pending_world).2 in
  pending_keys approved = [] ∧
  call_tool Sample.env (u "list_pending_actions") [] approved =
    (Ok [text_content no_pending_message],
     emit (StoreKeys APPROVAL_PREFIX) approved).
Proof.
  apply (approved_action_leaves_listing Sample.env Sample.ban_arguments
           Sample.empty_world).
  - exact sample_validated.
  - exact sample_wf.
  - exact sample_scalar.
  - apply scalar_ascii.
  - vm_compute. reflexivity.
Defined.


(** ** The addresses [validate_ip] takes *)

(** X19: [validate_ip] accepts an integer exactly when it lies in
    [0, 2^128), and accepts both booleans. *)
Theorem validate_ip_accepts_integers env n :
  validate_ip env (VInt n) = bool_decide (0 ≤ n < 2 ^ 128)%Z ∧
  ∀ b, validate_ip env (VBool b) = true.
Proof.
  split; [|by intros []].
  unfold validate_ip, Ipaddress.ip_address, Ipaddress.v4_address,
    Ipaddress.v6_address, Ipaddress.as_int, Ipaddress.check_int_address,
    Ipaddress.ensure.
  destruct (n <? 0)%Z eqn:E0; cbn [negb mbind option_bind].
  { symmetry. apply bool_decide_eq_false_2. lia. }
  change (2 ^ Z.of_N 32 - 1)%Z with 4294967295%Z.
  change (2 ^ Z.of_N 128 - 1)%Z with 340282366920938463463374607431768211455%Z.
  change (2 ^ 128)%Z with 340282366920938463463374607431768211456%Z.
  destruct (4294967295 <? n)%Z eqn:E1; cbn [negb mbind option_bind].
  2:{ symmetry. apply bool_decide_eq_true_2. lia. }
  destruct (340282366920938463463374607431768211455 <? n)%Z eqn:E2;
    cbn [negb mbind option_bind]; symmetry.
  - apply bool_decide_eq_false_2. lia.
  - apply bool_decide_eq_true_2. lia.
Qed.

(** X17: [validate_ip] refuses every text with a slash in it: a network in
    prefix notation is not taken for an address. *)
Theorem validate_ip_rejects_slash env s :
  Str.contains (ch "/") s = true → validate_ip env (VStr s) = false.
Proof.
  intros H.
  unfold validate_ip, Ipaddress.ip_address, Ipaddress.v4_address,
    Ipaddress.v6_address, Ipaddress.v4_of_str.
  cbn [Ipaddress.as_int Repr.to_str]. by rewrite H.
Qed.

Lemma validate_ip_rejects_slash_witness :
  validate_ip Sample.env (VStr (u "10.0.0.0/8")) = false.
Proof.
  apply (validate_ip_rejects_slash Sample.env (u "10.0.0.0/8")).
  vm_compute. reflexivity.
Defined.

Lemma contains_app c s t :
  Str.contains c (s ++ t) = Str.contains c s || Str.contains c t.
Proof. apply existsb_app. Qed.

Lemma contains_cons c x s :
  Str.contains c (x :: s) = (c =? x) || Str.contains c s.
Proof. reflexivity. Qed.

Lemma partition_at sep s z :
  Str.contains sep s = false →
  Str.partition sep (s ++ sep :: z) = (s, true, z).
Proof.
  induction s as [|c s IH]; intros H.
  - cbn. by rewrite N.eqb_refl.
  - cbn in H. apply orb_false_iff in H as [Hc Hs].
    cbn [app Str.partition]. rewrite N.eqb_sym, Hc, IH; done.
Qed.

(** X18: [validate_ip] accepts an IPv6 address followed by a percent sign
    and any non-empty text without percent sign and slash. *)
Theorem validate_ip_ignores_scope_text env s z ip :
  Ipaddress.v6_int_from_string s = Some ip →
  Str.contains (ch "%") s = false →
  Str.contains (ch "/") s = false →
  z ≠ [] →
  Str.contains (ch "%") z = false →
  Str.contains (ch "/") z = false →
  validate_ip env (VStr (s ++ ch "%" :: z)) = true.
Proof.
  intros Hip Hs1 Hs2 Hz Hz1 Hz2.
  unfold validate_ip, Ipaddress.ip_address.
  destruct (Ipaddress.v4_address _ _); [done|].
  unfold Ipaddress.v6_address. cbn [Ipaddress.as_int Repr.to_str].
  rewrite contains_app, Hs2. cbn [Str.contains existsb].
  change (existsb (N.eqb (ch "/")) z) with (Str.contains (ch "/") z).
  rewrite Hz2. cbn [orb negb N.eqb ch]. 
  unfold Ipaddress.split_scope_id. rewrite (partition_at _ _ _ Hs1).
  cbn [negb]. rewrite Hz1, bool_decide_eq_false_2 by done.
  cbn. by rewrite Hip.
Qed.

Lemma validate_ip_ignores_scope_text_witness :
  validate_ip Sample.env (VStr (u "fe80::1" ++ ch "%" :: u "eth0 and more")) = true.
Proof.
  apply (validate_ip_ignores_scope_text Sample.env (u "fe80::1")
           (u "eth0 and more") 0xfe800000000000000000000000000001).
  - vm_compute. reflexivity.
  - vm_compute. reflexivity.
  - vm_compute. reflexivity.
  - discriminate.
  - vm_compute. reflexivity.
  - vm_compute. reflexivity.
Defined.

Lemma split_at sep s rest :
  Str.contains sep s = false →
  Str.split sep (s ++ sep :: rest) = s :: Str.split sep rest.
Proof.
  induction s as [|c s IH]; intros H.
  - cbn. by rewrite N.eqb_refl.
  - cbn in H. apply orb_false_iff in H as [Hc Hs].
    cbn [app Str.split]. rewrite N.eqb_sym, Hc, IH; done.
Qed.

Lemma split_none sep s : Str.contains sep s = false → Str.split sep s = [s].
Proof.
  induction s as [|c s IH]; intros H; [done|].
  cbn in H. apply orb_false_iff in H as [Hc Hs].
  cbn [Str.split]. rewrite N.eqb_sym, Hc, IH; done.
Qed.

Lemma octets_ok : forallb octet_ok (N.of_nat <$> seq 0 256) = true.
Proof. vm_compute. reflexivity. Qed.

Lemma octet_facts a :
  a < 256 →
  Ipaddress.parse_octet (Num.dec_of_N a) = Some a ∧
  Str.contains (ch ".") (Num.dec_of_N a) = false ∧
  Str.contains (ch "/") (Num.dec_of_N a) = false ∧
  Num.dec_of_N a ≠ [].
Proof.
  intros Ha. pose proof octets_ok as H.
  rewrite forallb_forall in H.
  assert (Hin : In a (N.of_nat <$> seq 0 256)).
  { apply list_elem_of_In, list_elem_of_fmap. exists (N.to_nat a).
    split; [by rewrite N2Nat.id|]. apply elem_of_seq. lia. }
  apply H in Hin. unfold octet_ok in Hin.
  apply andb_true_iff in Hin as [Hin H4].
  apply andb_true_iff in Hin as [Hin H3].
  apply andb_true_iff in Hin as [H1 H2].
  apply bool_decide_eq_true_1 in H1.
  apply negb_true_iff in H2, H3, H4.
  apply bool_decide_eq_false_1 in H4. done.
Qed.

(** X16: [validate_ip] accepts the dotted quad of any four octets written
    in decimal, and [ip_address] reads it as the IPv4 address of that
    value. *)
Theorem validate_ip_accepts_dotted_quad env a b c d :
  a < 256 → b < 256 → c < 256 → d < 256 →
  let text :=
    Num.dec_of_N a ++ ch "." :: Num.dec_of_N b ++ ch "." ::
    Num.dec_of_N c ++ ch "." :: Num.dec_of_N d in
  Ipaddress.ip_address (printable env) (VStr text) =
    Some (Ipaddress.IPv4Address (((a * 256 + b) * 256 + c) * 256 + d)) ∧
  validate_ip env (VStr text) = true.
Proof.
  intros Ha Hb Hc Hd text.
  destruct (octet_facts a Ha) as (Pa & Da & Sa & Na).
  destruct (octet_facts b Hb) as (Pb & Db & Sb & _).
  destruct (octet_facts c Hc) as (Pc & Dc & Sc & _).
  destruct (octet_facts d Hd) as (Pd & Dd & Sd & _).
  assert (E : Ipaddress.v4_address (printable env) (VStr text) =
              Some (((a * 256 + b) * 256 + c) * 256 + d)).
  { unfold Ipaddress.v4_address, Ipaddress.v4_of_str, Ipaddress.v4_int_from_string.
    cbn [Ipaddress.as_int Repr.to_str]. subst text.
    repeat rewrite ?contains_app, ?contains_cons.
    rewrite Sa, Sb, Sc, Sd.
    change (ch "/" =? ch ".") with false. cbn [orb negb Ipaddress.ensure mbind option_bind].
    match goal with
    | |- context [bool_decide (?t = [])] =>
        rewrite (bool_decide_eq_false_2 (t = []))
          by (intros E; by apply app_eq_nil in E as [? _])
    end.
    cbn [negb Ipaddress.ensure mbind option_bind].
    rewrite !split_at, split_none by done.
    cbn [length bool_decide]. rewrite bool_decide_eq_true_2 by done.
    cbn [Ipaddress.ensure mbind option_bind Ipaddress.fold_parts].
    rewrite Pa. cbn [mbind option_bind]. rewrite Pb. cbn [mbind option_bind].
    rewrite Pc. cbn [mbind option_bind]. rewrite Pd. cbn [mbind option_bind].
    f_equal. rewrite !lor_shiftl_add by (change (2 ^ 8) with 256; lia).
    change (2 ^ 8) with 256. lia. }
  unfold validate_ip, Ipaddress.ip_address. by rewrite E.
Qed.

Lemma validate_ip_accepts_dotted_quad_witness :
  Ipaddress.ip_address (printable Sample.env) (VStr (u "203.0.113.9")) =
    Some (Ipaddress.IPv4Address 3405803785) ∧
  validate_ip Sample.env (VStr (u "203.0.113.9")) = true.
Proof.
  apply (validate_ip_accepts_dotted_quad Sample.env 203 0 113 9); lia.
Defined.

(** ** The characters of a validated address *)

Lemma split_nonempty sep s : Str.split sep s ≠ [].
Proof.
  destruct s as [|c s]; [done|]. cbn.
  destruct (c =? sep); [done|]. by destruct (Str.split sep s).
Qed.

Lemma join_split sep s : Str.join [sep] (Str.split sep s) = s.
Proof.
  induction s as [|c s IH]; [done|]. cbn [Str.split].
  pose proof (split_nonempty sep s) as Hne.
  destruct (c =? sep) eqn:E.
  - apply N.eqb_eq in E as ->.
    destruct (Str.split sep s) as [|w ws]; [done|].
    rewrite join_cons2, IH. reflexivity.
  - destruct (Str.split sep s) as [|w ws]; [done|].
    destruct ws as [|w' ws].
    + cbn [Str.join] in *. by rewrite IH.
    + rewrite join_cons2 in *. rewrite <- IH. reflexivity.
Qed.

Lemma join_chars (P : N → Prop) sep parts :
  Forall P sep → Forall (Forall P) parts → Forall P (Str.join sep parts).
Proof.
  intros Hsep. induction 1 as [|p ps Hp Hps IH]; [constructor|].
  destruct ps as [|q ps]; [done|].
  cbn [Str.join] in *. apply Forall_app. split; [done|].
  apply Forall_app. by split.
Qed.

Lemma fold_parts_parsed parse width parts :
  ∀ acc r,
    Ipaddress.fold_parts parse width acc parts = Some r →
    Forall (λ p, is_Some (parse p)) parts.
Proof.
  induction parts as [|p ps IH]; intros acc r H; [constructor|].
  cbn [Ipaddress.fold_parts] in H.
  destruct (parse p) as [n|] eqn:E; cbn [mbind option_bind] in H; [|done].
  constructor; [by rewrite E|]. by eapply IH.
Qed.

Ltac open_check H :=
  match type of H with
  | (Ipaddress.ensure ?b ≫= _) = Some _ =>
      let E := fresh "E" in
      destruct b eqn:E; cbn [Ipaddress.ensure mbind option_bind] in H;
      [|discriminate H]
  end.

Lemma forallb_Forall' {A} (f : A → bool) l :
  forallb f l = true → Forall (λ x, f x = true) l.
Proof. intros H. apply Forall_forall. intros x Hx.
  rewrite forallb_forall in H. by apply H, list_elem_of_In. Qed.

Lemma parse_octet_digits p :
  is_Some (Ipaddress.parse_octet p) → Forall (λ c, Num.is_digit c = true) p.
Proof.
  intros [n H]. unfold Ipaddress.parse_octet in H.
  open_check H. open_check H. by apply forallb_Forall'.
Qed.

Lemma parse_hextet_hex p :
  is_Some (Ipaddress.parse_hextet p) →
  Forall (λ c, Ipaddress.is_hex_digit c = true) p.
Proof.
  intros [n H]. unfold Ipaddress.parse_hextet in H.
  open_check H. by apply forallb_Forall'.
Qed.

Lemma digit_is_hex c : Num.is_digit c = true → Ipaddress.is_hex_digit c = true.
Proof.
  unfold Num.is_digit, Ipaddress.is_hex_digit, Num.hex_val. by intros ->.
Qed.

(** A dotted quad is made of digits and dots. *)
Lemma v4_of_str_chars s n :
  Ipaddress.v4_of_str s = Some n →
  Forall (λ c, Num.is_digit c = true ∨ c = ch ".") s.
Proof.
  unfold Ipaddress.v4_of_str, Ipaddress.v4_int_from_string. intros H.
  do 3 open_check H.
  apply fold_parts_parsed in H.
  rewrite <- (join_split (ch ".") s).
  apply join_chars; [by repeat constructor; right|].
  eapply Forall_impl; [exact H|]. intros p Hp.
  apply parse_octet_digits in Hp.
  eapply Forall_impl; [exact Hp|]. by left.
Qed.

(** The parts that the two folds of the IPv6 parser read. *)
Lemma folds_cover parts hi lo acc1 acc2 r1 r2 :
  Ipaddress.fold_parts Ipaddress.parse_hextet 16 acc1 (take hi parts) = Some r1 →
  Ipaddress.fold_parts Ipaddress.parse_hextet 16 acc2
    (drop (length parts - lo) parts) = Some r2 →
  ∀ i p, parts !! i = Some p →
         (i < hi)%nat ∨ (length parts - lo ≤ i)%nat →
         Forall (λ c, Ipaddress.is_hex_digit c = true) p.
Proof.
  intros H1 H2 i p Hi Hr.
  apply fold_parts_parsed in H1, H2.
  rewrite Forall_forall in H1, H2.
  apply parse_hextet_hex. destruct Hr as [Hr|Hr].
  - apply H1. apply list_elem_of_lookup. exists i.
    by rewrite lookup_take_lt.
  - apply H2. apply list_elem_of_lookup. exists (i - (length parts - lo))%nat.
    rewrite lookup_drop. by replace (length parts - lo + (i - (length parts - lo)))%nat
      with i by lia.
Qed.

Ltac open_bind H E :=
  match type of H with
  | (?m ≫= _) = Some _ =>
      destruct m eqn:E; cbn [mbind option_bind] in H; [|discriminate H]
  end.

Lemma find_skip_found parts i :
  Ipaddress.find_skip parts = Some (Some i) →
  parts !! i = Some [] ∧ (1 ≤ i)%nat ∧ (i + 1 < length parts)%nat.
Proof.
  unfold Ipaddress.find_skip. intros H.
  destruct (filter _ _) as [|j [|]] eqn:E; simplify_eq.
  assert (Hin : i ∈ filter (λ i, parts !! i = Some []) (seq 1 (length parts - 2))).
  { rewrite E. left. }
  apply list_elem_of_filter in Hin as [Hp Hin]. apply elem_of_seq in Hin.
  split; [done|]. lia.
Qed.

(** Every part of an IPv6 text is empty or a hextet, whichever way the
    parser accepts the parts. *)
Lemma v6_parts_hex parts skip hi lo sk acc1 acc2 r1 r2 :
  Ipaddress.find_skip parts = Some skip →
  match skip with
  | Some i =>
      parts_hi ←
        (if bool_decide (head parts = Some [])
         then (Ipaddress.ensure (bool_decide (Nat.pred i = 0%nat)) ≫= λ _,
               Some (Nat.pred i))
         else Some i);
      parts_lo ←
        (if bool_decide (last parts = Some [])
         then (Ipaddress.ensure
                 (bool_decide (Nat.pred (length parts - i - 1) = 0%nat)) ≫= λ _,
               Some (Nat.pred (length parts - i - 1)))
         else Some (length parts - i - 1)%nat);
      Ipaddress.ensure
        (negb (8 - Z.of_nat (parts_hi + parts_lo) <? 1)%Z) ≫= λ _,
      Some (parts_hi, parts_lo, Z.to_N (8 - Z.of_nat (parts_hi + parts_lo)))
  | None =>
      Ipaddress.ensure (bool_decide (length parts = 8%nat)) ≫= λ _,
      Ipaddress.ensure (negb (bool_decide (head parts = Some []))) ≫= λ _,
      Ipaddress.ensure (negb (bool_decide (last parts = Some []))) ≫= λ _,
      Some (length parts, 0%nat, 0)
  end = Some (hi, lo, sk) →
  Ipaddress.fold_parts Ipaddress.parse_hextet 16 acc1 (take hi parts) = Some r1 →
  Ipaddress.fold_parts Ipaddress.parse_hextet 16 acc2
    (drop (length parts - lo) parts) = Some r2 →
  ∀ i p, parts !! i = Some p →
         p = [] ∨ Forall (λ c, Ipaddress.is_hex_digit c = true) p.
Proof.
  intros Hskip Hshape F1 F2 i p Hi.
  pose proof (folds_cover parts hi lo acc1 acc2 r1 r2 F1 F2 i p Hi) as Hcov.
  pose proof (lookup_lt_Some _ _ _ Hi) as Hlt.
  destruct skip as [i0|].
  - apply find_skip_found in Hskip as (H0 & H1 & H2).
    assert (Hempty : parts !! i = Some [] → p = [] ∨ Forall (λ c, Ipaddress.is_hex_digit c = true) p).
    { intros E. rewrite E in Hi. left. by simplify_eq. }
    open_bind Hshape Ehi. open_bind Hshape Elo. open_check Hshape.
    simplify_eq.
    destruct (decide (i < hi)%nat) as [|Hnhi]; [right; apply Hcov; by left|].
    destruct (decide (length parts - lo ≤ i)%nat) as [|Hnlo]; [right; apply Hcov; by right|].
    apply Hempty.
    destruct (decide (i = i0)) as [->|Hne]; [done|].
    destruct (bool_decide (head parts = Some [])) eqn:Hfirst;
      destruct (bool_decide (last parts = Some [])) eqn:Hlast;
      try apply bool_decide_eq_true_1 in Hfirst;
      try apply bool_decide_eq_true_1 in Hlast;
      try rewrite head_lookup in Hfirst; try rewrite last_lookup in Hlast.
    + open_check Ehi. open_check Elo. simplify_eq.
      apply bool_decide_eq_true_1 in E0, E1.
      destruct (decide (i < i0)%nat).
      * by replace i with 0%nat by lia.
      * by replace i with (Nat.pred (length parts)) by lia.
    + open_check Ehi. simplify_eq. apply bool_decide_eq_true_1 in E0.
      destruct (decide (i < i0)%nat); [|lia].
      by replace i with 0%nat by lia.
    + open_check Elo. injection Ehi as <-. injection Elo as <-.
      apply bool_decide_eq_true_1 in E0.
      destruct (decide (i < i0)%nat); [lia|].
      by replace i with (Nat.pred (length parts)) by lia.
    + injection Ehi as <-. injection Elo as <-. lia.
  - do 3 open_check Hshape. simplify_eq.
    apply bool_decide_eq_true_1 in E. right. apply Hcov. left. lia.
Qed.

Lemma hex_or_empty_chars p :
  p = [] ∨ Forall (λ c, Ipaddress.is_hex_digit c = true) p →
  Forall address_char p.
Proof.
  intros [->|H]; [constructor|].
  eapply Forall_impl; [exact H|]. by left.
Qed.

(** An IPv6 text is made of hex digits, colons and dots. *)
Lemma v6_int_from_string_chars s n :
  Ipaddress.v6_int_from_string s = Some n → Forall address_char s.
Proof.
  unfold Ipaddress.v6_int_from_string. intros H.
  do 2 open_check H.
  set (parts0 := Str.split (ch ":") s) in *.
  open_bind H Eparts. rename l into parts.
  open_check H.
  open_bind H Eskip. rename o into skip.
  open_bind H Eshape. destruct p as [[hi lo] sk].
  open_bind H F1.
  pose proof (v6_parts_hex parts skip hi lo sk _ _ _ _ Eskip Eshape F1 H) as Hparts.
  rewrite <- (join_split (ch ":") s). fold parts0.
  apply join_chars; [by repeat constructor; right; right|].
  apply Forall_lookup. intros i p Hi.
  destruct (last parts0) as [tail|] eqn:El.
  2:{ simplify_eq. by eapply hex_or_empty_chars, Hparts. }
  destruct (Str.contains (ch ".") tail) eqn:Edot.
  2:{ simplify_eq. by eapply hex_or_empty_chars, Hparts. }
  open_bind Eparts E4. simplify_eq.
  rewrite last_lookup in El.
  destruct (decide (i = Nat.pred (length parts0))) as [->|Hne].
  - rewrite El in Hi. simplify_eq.
    apply v4_of_str_chars in E4.
    eapply Forall_impl; [exact E4|].
    intros c [Hc| ->]; [left; by apply digit_is_hex|by right; left].
  - eapply hex_or_empty_chars, (Hparts i).
    pose proof (lookup_lt_Some _ _ _ Hi).
    rewrite lookup_app_l.
    + rewrite removelast_firstn_len. change firstn with (@take str).
      by rewrite lookup_take_lt by lia.
    + rewrite removelast_firstn_len, length_firstn. lia.
Qed.

Lemma partition_none sep s :
  Str.contains sep s = false → Str.partition sep s = (s, false, []).
Proof.
  induction s as [|c s IH]; intros H; [done|].
  cbn in H. apply orb_false_iff in H as [Hc Hs].
  cbn [Str.partition]. rewrite N.eqb_sym, Hc, IH; done.
Qed.

Lemma address_chars_no_percent s :
  Forall (λ c, Num.is_digit c = true ∨ c = ch ".") s →
  Str.contains (ch "%") s = false.
Proof.
  induction 1 as [|c s Hc _ IH]; [done|].
  rewrite contains_cons, IH, orb_false_r.
  apply N.eqb_neq. intros <-. destruct Hc as [Hc|Hc]; vm_compute in Hc; discriminate.
Qed.

(** X15: in a text that [validate_ip] accepts, everything before the
    first percent sign consists of hex digits, dots and colons; without a
    percent sign that is the whole text. *)
Theorem validated_address_characters env s :
  validate_ip env (VStr s) = true →
  Forall address_char (Str.partition (ch "%") s).1.1 ∧
  (Str.contains (ch "%") s = false → Forall address_char s).
Proof.
  intros Hv.
  assert (Hmain : Forall address_char (Str.partition (ch "%") s).1.1).
  { unfold validate_ip, Ipaddress.ip_address in Hv.
    destruct (Ipaddress.v4_address _ _) as [n|] eqn:E4.
    - unfold Ipaddress.v4_address in E4. cbn [Ipaddress.as_int Repr.to_str] in E4.
      apply v4_of_str_chars in E4.
      rewrite partition_none by by apply address_chars_no_percent.
      cbn [fst]. eapply Forall_impl; [exact E4|].
      intros c [Hc| ->]; [left; by apply digit_is_hex|by right; left].
    - destruct (Ipaddress.v6_address _ _) as [[n scope]|] eqn:E6; [|done].
      unfold Ipaddress.v6_address in E6. cbn [Ipaddress.as_int Repr.to_str] in E6.
      open_check E6. open_bind E6 Esplit. destruct p as [addr sc].
      open_bind E6 Eip. cbn [fst] in Eip.
      apply v6_int_from_string_chars in Eip.
      unfold Ipaddress.split_scope_id in Esplit.
      destruct (Str.partition (ch "%") s) as [[a found] z].
      cbn [fst]. destruct found; cbn [negb] in Esplit.
      + open_check Esplit. by simplify_eq.
      + by simplify_eq. }
  split; [exact Hmain|].
  intros Hp. by rewrite partition_none in Hmain.
Qed.

Lemma validated_address_characters_witness :
  Forall address_char
    (Str.partition (ch "%") (u "::ffff:1.2.3.4%eth0")).1.1 ∧
  (Str.contains (ch "%") (u "::ffff:1.2.3.4%eth0") = false →
   Forall address_char (u "::ffff:1.2.3.4%eth0")).
Proof.
  apply (validated_address_characters Sample.env (u "::ffff:1.2.3.4%eth0")).
  vm_compute. reflexivity.
Defined.

(** ** The services *)

Lemma check_service_health_down http_get service_url requested error :
  down_error (http_get requested (health_url service_url)) = Some error →
  HealthService.check_service_health http_get service_url requested =
    (Ok (VDict [(u "status", VStr (u "DOWN")); (u "error", VStr error)]),
     requested ++ [health_url service_url]).
Proof.
  unfold HealthService.check_service_health, down_error, health_url.
  destruct (http_get _ _) as [code json|msg|e]; try done.
  - destruct (code =? 200)%Z; [done|]. by intros [= <-].
  - by intros [= <-].
Qed.

(** X20: when neither Aegis nor Cryptex answers with status 200 (another
    status, or a request error), [get_system_health] does not raise: it
    requests both health URLs in turn and reports both services [DOWN] with
    the error, and Nexus [UP]. *)
Theorem unreachable_services_reported_down settings http_get requested e1 e2 :
  let url1 := health_url (AEGIS_URL settings) in
  let url2 := health_url (CRYPTEX_URL settings) in
  down_error (http_get requested url1) = Some e1 →
  down_error (http_get (requested ++ [url1]) url2) = Some e2 →
  HealthService.get_system_health settings http_get requested =
    (Ok (VDict
           [(u "aegis", VDict [(u "status", VStr (u "DOWN")); (u "error", VStr e1)]);
            (u "cryptex", VDict [(u "status", VStr (u "DOWN")); (u "error", VStr e2)]);
            (u "nexus", VDict [(u "status", VStr (u "UP"))])]),
     requested ++ [url1; url2]).
Proof.
  intros url1 url2 H1 H2. unfold HealthService.get_system_health.
  subst url1 url2.
  rewrite (check_service_health_down _ _ _ _ H1). cbv beta iota.
  rewrite (check_service_health_down _ _ _ _ H2). cbv beta iota.
  by rewrite <- app_assoc.
Qed.

Lemma unreachable_services_reported_down_witness :
  HealthService.get_system_health default_settings
    (http_get Scenario.backends_down) [] =
    (Ok (VDict
           [(u "aegis", VDict [(u "status", VStr (u "DOWN"));
                               (u "error", VStr (u "HTTP 503"))]);
            (u "cryptex", VDict [(u "status", VStr (u "DOWN"));
                                 (u "error", VStr (u "All connection attempts failed"))]);
            (u "nexus", VDict [(u "status", VStr (u "UP"))])]),
     [u "http://localhost:8080/actuator/health";
      u "http://localhost:8081/actuator/health"]).
Proof.
  apply (unreachable_services_reported_down default_settings
           (http_get Scenario.backends_down) [] (u "HTTP 503")
           (u "All connection attempts failed")).
  - vm_compute. reflexivity.
  - vm_compute. reflexivity.
Defined.

(** X21: when Aegis answers 200 with a body that [response.json()] cannot
    decode, [get_system_health] raises before Cryptex is requested, and the
    tool [check_system_health] replies with the system error of that
    exception. *)
Theorem broken_health_body_fails_report settings b base e arguments w :
  http_get b [] (health_url (AEGIS_URL settings)) =
    HealthService.Response 200 (Raise e) →
  HealthService.get_system_health settings (http_get b) [] =
    (Raise e, [health_url (AEGIS_URL settings)]) ∧
  call_tool (with_services settings b base) (u "check_system_health") arguments w =
    (Ok [text_content (u "System Error: " ++ exn_str (printable base) e)],
     World (store w) (trace w ++ [HealthProbe])).
Proof.
  intros H.
  assert (E : HealthService.get_system_health settings (http_get b) [] =
              (Raise e, [health_url (AEGIS_URL settings)])).
  { unfold HealthService.get_system_health, HealthService.check_service_health.
    fold (health_url (AEGIS_URL settings)). by rewrite H. }
  split; [exact E|].
  change (call_tool (with_services settings b base) (u "check_system_health") arguments w)
    with (execute_action (with_services settings b base)
            (VStr (u "check_system_health")) (VDict arguments) w).
  unfold execute_action, execute_action_body.
  change (is_str (VStr (u "check_system_health")) (u "check_system_health")) with true.
  cbv iota. unfold get_system_health, with_services at 1. cbn [system_health].
  rewrite E. run. reflexivity.
Qed.

Lemma broken_health_body_fails_report_witness :
  HealthService.get_system_health default_settings
    (http_get Scenario.backends_up) [] =
    (Raise (Fault (u "Expecting value: line 1 column 1 (char 0)")),
     [u "http://localhost:8080/actuator/health"]) ∧
  call_tool (with_services default_settings Scenario.backends_up Sample.env)
    (u "check_system_health") [] Sample.empty_world =
    (Ok [text_content
           (u "System Error: Expecting value: line 1 column 1 (char 0)")],
     World ∅ [HealthProbe]).
Proof.
  apply (broken_health_body_fails_report default_settings Scenario.backends_up
           Sample.env (Fault (u "Expecting value: line 1 column 1 (char 0)"))
           [] Sample.empty_world).
  reflexivity.
Defined.

(** The replies of the two tools that read the event stream. *)
Lemma security_events_reply env arguments w :
  let limit := Dict.get_or (u "limit") (VInt 10) arguments in
  call_tool env (u "get_security_events") arguments w =
    (Ok [text_content (Json.dumps_indent 2 (VList (suspicious_activity env limit)))],
     World (store w) (trace w ++ [ActivityRead limit])).
Proof. reflexivity. Qed.

Lemma analyze_patterns_reply env arguments w :
  let limit := Dict.get_or (u "limit") (VInt 10) arguments in
  let events := suspicious_activity env limit in
  call_tool env (u "analyze_attack_patterns") arguments w =
    match events with
    | [] => (Ok [text_content no_activity_message],
             World (store w) (trace w ++ [ActivityRead limit]))
    | _ => (Ok [text_content (analysis env events)],
            World (store w) (trace w ++ [ActivityRead limit; Analysis events]))
    end.
Proof.
  intros limit events.
  change (call_tool env (u "analyze_attack_patterns") arguments w)
    with (execute_action env (VStr (u "analyze_attack_patterns")) (VDict arguments) w).
  unfold execute_action, execute_action_body.
  change (is_str (VStr (u "analyze_attack_patterns")) (u "check_system_health")) with false.
  change (is_str (VStr (u "analyze_attack_patterns")) (u "get_security_events")) with false.
  change (is_str (VStr (u "analyze_attack_patterns")) (u "analyze_attack_patterns")) with true.
  cbv iota. unfold py_get, get_recent_suspicious_activity, analyze_security_events; run.
  fold limit. fold events. destruct events; [reflexivity|].
  unfold emit. cbn [store trace]. by rewrite <- app_assoc.
Qed.

(** X22: when reading the event stream fails, [get_security_events]
    replies with the empty JSON list and [analyze_attack_patterns] with its
    no-activity message: exactly what they reply when there are no
    events. *)
Theorem stream_failure_looks_quiet settings b base arguments w e :
  let env := with_services settings b base in
  let limit := Dict.get_or (u "limit") (VInt 10) arguments in
  xrevrange b limit = Raise e →
  call_tool env (u "get_security_events") arguments w =
    (Ok [text_content (u "[]")], World (store w) (trace w ++ [ActivityRead limit])) ∧
  call_tool env (u "analyze_attack_patterns") arguments w =
    (Ok [text_content no_activity_message],
     World (store w) (trace w ++ [ActivityRead limit])).
Proof.
  intros env limit H. split.
  - rewrite security_events_reply. fold limit. unfold env at 1.
    cbn [suspicious_activity with_services].
    unfold SecurityService.get_recent_suspicious_activity. by rewrite H.
  - rewrite analyze_patterns_reply. fold limit. unfold env at 1.
    cbn [suspicious_activity with_services].
    unfold SecurityService.get_recent_suspicious_activity. by rewrite H.
Qed.

Lemma stream_failure_looks_quiet_witness :
  let env := with_services default_settings Scenario.backends_down Sample.env in
  call_tool env (u "get_security_events") [] Sample.empty_world =
    (Ok [text_content (u "[]")], World ∅ [ActivityRead (VInt 10)]) ∧
  call_tool env (u "analyze_attack_patterns") [] Sample.empty_world =
    (Ok [text_content no_activity_message], World ∅ [ActivityRead (VInt 10)]).
Proof.
  apply (stream_failure_looks_quiet default_settings Scenario.backends_down
           Sample.env [] Sample.empty_world (Fault (u "Connection refused"))).
  reflexivity.
Defined.

(** The reply of the analysis tool when the stream has events. *)
Lemma analysis_tool_reply settings b base arguments w :
  let env := with_services settings b base in
  let limit := Dict.get_or (u "limit") (VInt 10) arguments in
  let events :=
    SecurityService.get_recent_suspicious_activity (xrevrange b) limit in
  events ≠ [] →
  call_tool env (u "analyze_attack_patterns") arguments w =
    (Ok [text_content
           (AnalyzeService.analyze_security_events (printable base)
              (AnalyzeService._initialize_llm settings (construct b)
                 (LLM_PROVIDER settings))
              events)],
     World (store w) (trace w ++ [ActivityRead limit; Analysis events])).
Proof.
  intros env limit events Hne. rewrite analyze_patterns_reply. fold limit.
  unfold env at 1 3 4. cbn [suspicious_activity with_services]. fold events.
  destruct events; [done|]. reflexivity.
Qed.

(** X23: with a provider other than [openai] and [anthropic] (the default,
    or any unknown name) whose Ollama model cannot be built, the analysis
    tool answers every non-empty batch of events with the not-initialized
    message. *)
Theorem analysis_without_model settings b base arguments w :
  let env := with_services settings b base in
  let limit := Dict.get_or (u "limit") (VInt 10) arguments in
  let events :=
    SecurityService.get_recent_suspicious_activity (xrevrange b) limit in
  LLM_PROVIDER settings ≠ u "openai" →
  LLM_PROVIDER settings ≠ u "anthropic" →
  construct b (AnalyzeService.OllamaLLM (u "llama3") (OLLAMA_BASE_URL settings)) = None →
  events ≠ [] →
  call_tool env (u "analyze_attack_patterns") arguments w =
    (Ok [text_content (u "LLM not initialized. Cannot perform analysis.")],
     World (store w) (trace w ++ [ActivityRead limit; Analysis events])).
Proof.
  intros env limit events Ho Ha Hc Hne.
  unfold env. rewrite analysis_tool_reply by done. fold limit. fold events.
  unfold AnalyzeService._initialize_llm.
  rewrite (bool_decide_eq_false_2 _ Ho), (bool_decide_eq_false_2 _ Ha).
  destruct (bool_decide _); by rewrite Hc.
Qed.

Lemma analysis_without_model_witness :
  let env := with_services default_settings Scenario.backends_no_model Sample.env in
  let events :=
    SecurityService.get_recent_suspicious_activity
      (xrevrange Scenario.backends_no_model) (VInt 10) in
  call_tool env (u "analyze_attack_patterns") [] Sample.empty_world =
    (Ok [text_content (u "LLM not initialized. Cannot perform analysis.")],
     World ∅ [ActivityRead (VInt 10); Analysis events]).
Proof.
  apply (analysis_without_model default_settings Scenario.backends_no_model
           Sample.env [] Sample.empty_world).
  - discriminate.
  - discriminate.
  - reflexivity.
  - discriminate.
Defined.

(** X24: when the model raises, the analysis tool replies with the text
    [Error during analysis: ...] of the service, not with a system
    error. *)
Theorem model_failure_reported_as_text settings b base arguments w chain e :
  let env := with_services settings b base in
  let limit := Dict.get_or (u "limit") (VInt 10) arguments in
  let events :=
    SecurityService.get_recent_suspicious_activity (xrevrange b) limit in
  AnalyzeService._initialize_llm settings (construct b) (LLM_PROVIDER settings) =
    Some chain →
  chain (Repr.to_str (printable base) (VList events)) = Raise e →
  events ≠ [] →
  call_tool env (u "analyze_attack_patterns") arguments w =
    (Ok [text_content (u "Error during analysis: " ++ exn_str (printable base) e)],
     World (store w) (trace w ++ [ActivityRead limit; Analysis events])).
Proof.
  intros env limit events Hi Hc Hne.
  unfold env. rewrite analysis_tool_reply by done. fold limit. fold events.
  rewrite Hi. unfold AnalyzeService.analyze_security_events.
  rewrite Hc. by destruct events.
Qed.

Lemma model_failure_reported_as_text_witness :
  let env := with_services default_settings Scenario.backends_up Sample.env in
  let events :=
    SecurityService.get_recent_suspicious_activity
      (xrevrange Scenario.backends_up) (VInt 10) in
  call_tool env (u "analyze_attack_patterns") [] Sample.empty_world =
    (Ok [text_content (u "Error during analysis: model 'llama3' not found")],
     World ∅ [ActivityRead (VInt 10); Analysis events]).
Proof.
  apply (model_failure_reported_as_text default_settings Scenario.backends_up
           Sample.env [] Sample.empty_world
           (λ _, Raise (Fault (u "model 'llama3' not found")))
           (Fault (u "model 'llama3' not found"))).
  - reflexivity.
  - reflexivity.
  - discriminate.
Defined.

Lemma scan_repr_list f tail :
  Json.scan_once (S (S (S (S f)))) (ch "[" :: ch "{" :: ch "'" :: tail) =
    Json.Malformed.
Proof. reflexivity. Qed.

Lemma loads_repr_list tail :
  Json.loads (ch "[" :: ch "{" :: ch "'" :: tail) = Json.DecodeError.
Proof.
  unfold Json.loads.
  change (Str.startswith [0xFEFF] (ch "[" :: ch "{" :: ch "'" :: tail)) with false.
  change (Json.skip_ws (ch "[" :: ch "{" :: ch "'" :: tail))
    with (ch "[" :: ch "{" :: ch "'" :: tail).
  replace (2 * length (ch "[" :: ch "{" :: ch "'" :: tail))%nat
    with (S (S (S (2 * length tail + 3))))%nat by (cbn [length]; lia).
  by rewrite scan_repr_list.
Qed.

Lemma join_head sep p ps : ∃ tail, Str.join sep (p :: ps) = p ++ tail.
Proof.
  destruct ps as [|q ps].
  - exists []. cbn. by rewrite app_nil_r.
  - by eexists.
Qed.

(** X25: the text that the model is given under the name [events_json] is
    the [str] of the event list; for a non-empty list it is no JSON
    document. *)
Theorem model_input_is_not_json printable xrevrange limit :
  let events := SecurityService.get_recent_suspicious_activity xrevrange limit in
  events ≠ [] →
  Json.loads (Repr.to_str printable (VList events)) = Json.DecodeError.
Proof.
  intros events Hne. subst events.
  unfold SecurityService.get_recent_suspicious_activity in *.
  destruct (xrevrange limit) as [[|[event_id data] entries]|e]; try done.
  cbn [fmap list_fmap Repr.to_str Repr.repr map].
  match goal with
  | |- context [Str.join ?sep (?p :: ?ps)] =>
      destruct (join_head sep p ps) as (t1 & ->)
  end.
  cbn [map fst snd].
  match goal with
  | |- context [Str.join ?sep (?p :: ?ps)] =>
      destruct (join_head sep p ps) as (t2 & ->)
  end.
  change (Repr.repr_str printable (u "id")) with (u "'id'").
  apply loads_repr_list.
Qed.

Lemma model_input_is_not_json_witness :
  Json.loads
    (Repr.to_str (printable Sample.env)
       (VList (SecurityService.get_recent_suspicious_activity
                 (xrevrange Scenario.backends_up) (VInt 10)))) =
    Json.DecodeError.
Proof.
  apply (model_input_is_not_json (printable Sample.env)
           (xrevrange Scenario.backends_up) (VInt 10)).
  discriminate.
Defined.

(** ** The endpoints of [app/main.py] *)

(** X26: the endpoint [/tools/ban] writes the block list key at once, for
    any text as address and any positive number of hours: no validation, no
    token; pending actions are untouched. *)
Theorem rest_ban_skips_interlock env ip hours w :
  (0 < hours)%Z →
  blocklist_fault env (u "blacklist:" ++ ip) (hours * 3600) = None →
  Rest.tool_ban_ip env ip hours w =
    (Ok (VDict [(u "result",
                 VStr (u "IP " ++ ip ++ u " has been banned for " ++
                       Num.dec_of_Z (hours * 3600) ++ u " seconds."))]),
     World (<[u "blacklist:" ++ ip := Entry (u "banned") (hours * 3600)]> (store w))
           (trace w ++ [BlocklistSet (u "blacklist:" ++ ip) (VInt (hours * 3600))])) ∧
  ∀ token,
    store (Rest.tool_ban_ip env ip hours w).2 !! (APPROVAL_PREFIX ++ token) =
      store w !! (APPROVAL_PREFIX ++ token).
Proof.
  intros Hh Hf.
  assert (E : Rest.tool_ban_ip env ip hours w =
    (Ok (VDict [(u "result",
                 VStr (u "IP " ++ ip ++ u " has been banned for " ++
                       Num.dec_of_Z (hours * 3600) ++ u " seconds."))]),
     World (<[u "blacklist:" ++ ip := Entry (u "banned") (hours * 3600)]> (store w))
           (trace w ++ [BlocklistSet (u "blacklist:" ++ ip) (VInt (hours * 3600))]))).
  { unfold Rest.tool_ban_ip, ban_ip, blocklist_set; run.
    cbn [to_str Repr.to_str]. rewrite Hf.
    replace (0 <? hours * 3600)%Z with true by (symmetry; apply Z.ltb_lt; lia).
    reflexivity. }
  split; [exact E|]. intros token. rewrite E. cbn [snd store].
  apply lookup_insert_ne. intros H. symmetry in H.
  by apply approval_key_not_blocklist in H.
Qed.

Lemma rest_ban_skips_interlock_witness :
  Rest.tool_ban_ip Sample.env (u "not-an-ip") 2 Sample.pending_world =
    (Ok (VDict [(u "result",
                 VStr (u "IP not-an-ip has been banned for 7200 seconds."))]),
     World (<[u "blacklist:not-an-ip" := Entry (u "banned") 7200]>
              (store Sample.pending_world))
           (trace Sample.pending_world ++
            [BlocklistSet (u "blacklist:not-an-ip") (VInt 7200)])) ∧
  ∀ token,
    store (Rest.tool_ban_ip Sample.env (u "not-an-ip") 2 Sample.pending_world).2
      !! (APPROVAL_PREFIX ++ token) =
    store Sample.pending_world !! (APPROVAL_PREFIX ++ token).
Proof.
  apply (rest_ban_skips_interlock Sample.env (u "not-an-ip") 2
           Sample.pending_world).
  - lia.
  - reflexivity.
Defined.

(** X27: for the same limit the endpoint [/tools/analyze] and the tool
    [analyze_attack_patterns] change the world alike and carry the same
    analysis; they differ in the message for no events. *)
Theorem rest_analysis_agrees_with_tool env limit w :
  let rest := Rest.tool_analyze_events env limit w in
  let tool :=
    call_tool env (u "analyze_attack_patterns") [(u "limit", VInt limit)] w in
  let events := suspicious_activity env (VInt limit) in
  rest.2 = tool.2 ∧
  match events with
  | [] =>
      rest.1 = Ok (VDict [(u "analysis", VStr (u "No events found."))]) ∧
      tool.1 = Ok [text_content no_activity_message]
  | _ =>
      rest.1 = Ok (VDict [(u "analysis", VStr (analysis env events))]) ∧
      tool.1 = Ok [text_content (analysis env events)]
  end.
Proof.
  intros rest tool events. subst rest tool.
  rewrite analyze_patterns_reply.
  change (Dict.get_or (u "limit") (VInt 10) [(u "limit", VInt limit)])
    with (VInt limit).
  unfold Rest.tool_analyze_events, get_recent_suspicious_activity,
    analyze_security_events; run.
  fold events. destruct events; [done|].
  unfold emit. cbn [store trace fst snd]. by rewrite <- app_assoc.
Qed.
